(** * DESWL / psf : star-candidate refinement and blacklist bookkeeping

    A shallow embedding of the parts of [psf/run_psfex.py] and
    [psf/plot_fs.py] that screen a detection catalog, together with the
    properties established about them.

    Conventions of the embedding.
    - The scripts are Python 2 programs (statement [print], [except E as e]).
      Exceptions are values of [exn]; a computation that may raise returns a
      [result]; a computation that also touches files, the quality flag or
      external programs lives in the monad [M].
    - A finite float is given by the rational it equals ([Q]).  Comparisons,
      minima, maxima and medians are taken on these values.  Where the code
      turns a float product into a count ([int(reserve * n)]) the product is
      rounded to binary64, and [numpy.mean], whose rounding depends on the
      precision of the column and on numpy's order of summation, is taken
      from the environment.  The one not-a-number that the code can
      manufacture on its own (the median of an empty slice) is modelled
      explicitly by an [option].
    - numpy arrays are lists; a table (FITS binary table) is a list of rows. *)

From Stdlib Require Import ZArith QArith Qround Qabs Qpower List String Ascii Bool Lia Permutation.
From Stdlib Require Import DecimalString Sorted Lqa.
From stdpp Require Import base gmap strings.
Import ListNotations.

Open Scope Z_scope.

(* ================================================================== *)
(** * Part I : the model                                               *)
(* ================================================================== *)

(** ** Python exceptions and results *)

Module Py.

Inductive exn : Type :=
| NoStarsException
| OSError
| IOError
| TypeError
| ValueError
| IndexError
| KeyError
| UnboundLocalError
| OverflowError.

Inductive result (A : Type) : Type :=
| Ok (a : A)
| Raise (e : exn).

Arguments Ok {A} a.
Arguments Raise {A} e.

Definition rbind {A B} (r : result A) (k : A -> result B) : result B :=
  match r with
  | Ok a => k a
  | Raise e => Raise e
  end.

(** Every class above derives from [Exception]; the handlers of [main]
    distinguish [NoStarsException] from the rest. *)
Definition is_NoStars (e : exn) : bool :=
  match e with NoStarsException => true | _ => false end.

Definition is_OSError (e : exn) : bool :=
  match e with OSError => true | _ => false end.

End Py.
Export Py.

Declare Scope res_scope.
Delimit Scope res_scope with res.
Notation "'do' x <- r ; k" := (rbind r (fun x => k))
  (at level 10, x name, r at level 100, k at level 200) : res_scope.

(** ** Numbers *)

Module Num.

(** [a < b] on floats, as a boolean. *)
Definition Qlt_bool (a b : Q) : bool :=
  (Qnum a * QDen b <? Qnum b * QDen a)%Z.

(** [int(q)] : truncation toward zero. *)
Definition py_int (q : Q) : Z := Z.quot (Qnum q) (QDen q).

(** [l[0:stop]] for a Python integer [stop]. *)
Definition slice_to {A} (stop : Z) (l : list A) : list A :=
  if (0 <=? stop)%Z then firstn (Z.to_nat stop) l
  else firstn (Z.to_nat (Z.of_nat (length l) + stop)) l.

(** [l[start:]] for a Python integer [start]. *)
Definition slice_from {A} (start : Z) (l : list A) : list A :=
  if (0 <=? start)%Z then skipn (Z.to_nat start) l
  else skipn (Z.to_nat (Z.of_nat (length l) + start)) l.

(** numpy.sort on a float column (insertion sort; only the sorted values
    matter to the callers). *)
Fixpoint insert_sorted (v : Q) (l : list Q) : list Q :=
  match l with
  | [] => [v]
  | w :: l' => if Qle_bool v w then v :: l else w :: insert_sorted v l'
  end.

Definition np_sort (l : list Q) : list Q := fold_right insert_sorted [] l.

(** numpy.min / numpy.max of a non-empty column given as head and tail. *)
Definition Qmin_list (v : Q) (l : list Q) : Q :=
  fold_left (fun m w => if Qlt_bool w m then w else m) l v.

Definition Qmax_list (v : Q) (l : list Q) : Q :=
  fold_left (fun m w => if Qlt_bool m w then w else m) l v.

(** numpy.median : the middle value of the sorted column, or the mean of the
    two middle values; [None] stands for the nan that numpy returns (with a
    warning) on an empty column. *)
Definition median_sorted (s : list Q) : Q :=
  let n := length s in
  if Nat.even n
  then ((nth (n / 2 - 1) s 0 + nth (n / 2) s 0) / 2)%Q
  else nth (n / 2) s 0%Q.

Definition np_median (l : list Q) : option Q :=
  match l with
  | [] => None
  | _ => Some (median_sorted (np_sort l))
  end.

End Num.
Export Num.

(** ** numpy boolean masks *)

Module Np.

(** The result of a reduction is either a 0-dimensional scalar or an array. *)
Inductive np_bool : Type :=
| NpScalar (b : bool)
| NpArray (m : list bool).

(** [numpy.any(masks, axis=0)] for a Python list [masks] of equally long
    boolean arrays.  An empty Python list becomes an array of shape (0,), whose
    reduction along axis 0 is the scalar False. *)
Definition any_axis0 (masks : list (list bool)) : np_bool :=
  match masks with
  | [] => NpScalar false
  | m :: ms => NpArray (fold_left (fun acc m' => zip_with orb acc m') ms m)
  end.

(** The builtin [sum(mask)]: iterates over its argument, so a numpy scalar is
    rejected with TypeError ("'numpy.bool_' object is not iterable"). *)
Definition py_sum (mask : np_bool) : result Z :=
  match mask with
  | NpScalar _ => Raise TypeError
  | NpArray m => Ok (Z.of_nat (length (List.filter id m)))
  end.

(** [data[mask]] for a boolean array [mask]: the rows whose entry is True.  A
    mask of the wrong length is an IndexError. *)
Fixpoint index_mask {A} (data : list A) (mask : list bool) : result (list A) :=
  match data, mask with
  | [], [] => Ok []
  | r :: data', b :: mask' =>
    match index_mask data' mask' with
    | Ok rest => Ok (if b then r :: rest else rest)
    | Raise e => Raise e
    end
  | _, _ => Raise IndexError
  end.

(** [data[idx]] for an integer index array [idx] (fancy indexing). *)
Fixpoint index_rows {A} (data : list A) (idx : list nat) : result (list A) :=
  match idx with
  | [] => Ok []
  | i :: idx' =>
    match nth_error data i, index_rows data idx' with
    | Some r, Ok rest => Ok (r :: rest)
    | None, _ => Raise IndexError
    | _, Raise e => Raise e
    end
  end.

(** [numpy.count_nonzero(mask)] *)
Definition count_nonzero (mask : list bool) : Z :=
  Z.of_nat (length (List.filter id mask)).

End Np.
Export Np.

(** ** Catalogs and regions *)

(** One record of the LDAC_OBJECTS table; only the columns the scripts read. *)
Record Row : Type := mkRow {
  NUMBER : Z;
  FLAGS : Z;
  X_IMAGE : Q;
  Y_IMAGE : Q;
  MAG_AUTO : Q;
  FLUX_RADIUS : Q;
  XWIN_IMAGE : Q;
  YWIN_IMAGE : Q;
  BACKGROUND : Q;
  ALPHAWIN_J2000 : Q;
  DELTAWIN_J2000 : Q
}.

Definition Catalog : Type := list Row.

(** The column projection written to the reserve file, in the order
    NUMBER, FLAGS, XWIN_IMAGE, YWIN_IMAGE, BACKGROUND, ALPHAWIN_J2000,
    DELTAWIN_J2000, FLUX_RADIUS. *)
Definition ReserveRow : Type := (Z * Z * Q * Q * Q * Q * Q * Q)%type.

Definition reserve_cols (r : Row) : ReserveRow :=
  (NUMBER r, FLAGS r, XWIN_IMAGE r, YWIN_IMAGE r, BACKGROUND r,
   ALPHAWIN_J2000 r, DELTAWIN_J2000 r, FLUX_RADIUS r).

(** What a FITS file of the work directory holds. *)
Inductive Table : Type :=
| LDAC (objects : Catalog)
| ReserveTable (rows : list ReserveRow).

(** A tape bump [(ymin, xmin, ymax, xmax)], as built by
    [read_tapebump_file]. *)
Definition Region : Type := (Z * Z * Z * Z)%type.

Definition tb0 (tb : Region) : Z := fst (fst (fst tb)).
Definition tb1 (tb : Region) : Z := snd (fst (fst tb)).
Definition tb2 (tb : Region) : Z := snd (fst tb).
Definition tb3 (tb : Region) : Z := snd tb.

(** ** Strings : formatting and [str.replace] *)

Module Str.

Open Scope string_scope.

(** [str(n)] and [%d] for an integer. *)
Definition str_of_Z (n : Z) : string := NilZero.string_of_int (Z.to_int n).

(** Round to the nearest integer, ties to even (the rounding of [%f]). *)
Definition round_half_even (q : Q) : Z :=
  let f := Qfloor q in
  let twice := (2 * (q - inject_Z f))%Q in
  if Qlt_bool twice 1 then f
  else if Qlt_bool 1 twice then (f + 1)%Z
  else if Z.even f then f else (f + 1)%Z.

Fixpoint zero_pad (width : nat) (s : string) : string :=
  match width with
  | O => s
  | S w => if (String.length s <? width)%nat then "0" ++ zero_pad w s else s
  end.

(** ["%0.<d>f" % q] for a finite float [q] and [d >= 1]. *)
Definition fmt_f (d : nat) (q : Q) : string :=
  let scale := (10 ^ Z.of_nat d)%Z in
  let r := round_half_even (Qabs q * inject_Z scale) in
  (if Qlt_bool q 0 then "-" else "")
  ++ str_of_Z (r / scale) ++ "." ++ zero_pad d (str_of_Z (r mod scale)).

(** [s.replace(old, new)] for a non-empty [old]: the non-overlapping
    occurrences of [old] are replaced from left to right.  [skip] counts the
    characters of a matched occurrence still to be dropped. *)
Fixpoint replace_aux (old new : string) (skip : nat) (s : string) : string :=
  match s with
  | EmptyString => EmptyString
  | String c s' =>
    match skip with
    | S k => replace_aux old new k s'
    | O =>
      if String.prefix old s
      then new ++ replace_aux old new (String.length old - 1) s'
      else String c (replace_aux old new 0 s')
    end
  end.

Definition py_replace (s old new : string) : string := replace_aux old new 0 s.

(** Does [old] occur somewhere in [s]? *)
Fixpoint occurs (old s : string) : bool :=
  match s with
  | EmptyString => String.prefix old EmptyString
  | String _ s' => String.prefix old s || occurs old s'
  end.

Definition ends_with_slash (a : string) : bool :=
  match String.get (String.length a - 1) a with
  | Some c => Ascii.eqb c "/"%char
  | None => false
  end.

(** [os.path.join(a, b)] (posixpath, two components). *)
Definition os_path_join (a b : string) : string :=
  if String.prefix "/" b then b
  else if (String.length a =? 0)%nat || ends_with_slash a then a ++ b
  else a ++ "/" ++ b.

(** The text before and after the last occurrence of the character [c]. *)
Fixpoint split_last (c : ascii) (s : string) : option (string * string) :=
  match s with
  | EmptyString => None
  | String a s' =>
    match split_last c s' with
    | Some (b, e) => Some (String a b, e)
    | None => if Ascii.eqb a c then Some (EmptyString, s') else None
    end
  end.

(** The operands of the [%] operator. *)
Inductive pyval : Type :=
| VStr (s : string)
| VInt (n : Z).

Inductive fmt_item : Type :=
| Lit (s : string)
| FmtS
| FmtD.

(** [fmt % args] for a tuple [args]: too few or too many arguments, or a
    string given to [%d], is a TypeError. *)
Fixpoint py_format (fmt : list fmt_item) (args : list pyval) : result string :=
  match fmt with
  | [] => match args with [] => Ok "" | _ => Raise TypeError end
  | Lit s :: fmt' =>
    match py_format fmt' args with
    | Ok rest => Ok (s ++ rest)
    | Raise e => Raise e
    end
  | FmtS :: fmt' =>
    match args with
    | [] => Raise TypeError
    | v :: args' =>
      match py_format fmt' args' with
      | Ok rest => Ok (match v with VStr s => s | VInt n => str_of_Z n end ++ rest)
      | Raise e => Raise e
      end
    end
  | FmtD :: fmt' =>
    match args with
    | [] => Raise TypeError
    | VStr _ :: _ => Raise TypeError
    | VInt n :: args' =>
      match py_format fmt' args' with
      | Ok rest => Ok (str_of_Z n ++ rest)
      | Raise e => Raise e
      end
    end
  end.

(** The line-feed character. *)
Definition nl : string := String (Ascii.ascii_of_nat 10) EmptyString.

End Str.
Export Str.

(** ** binary64 arithmetic *)

Module Float.

(** floor(log2 a) for a positive [a]. *)
Definition Qlog2 (a : Q) : Z :=
  if Qle_bool 1 a then Z.log2 (Qfloor a)
  else (- Z.log2_up (Qceiling (/ a)))%Z.

(** The binary64 number nearest to [q], ties to even: 53 significant bits,
    the last place no finer than 2^-1074.  [None] stands for an infinity: the
    rounded magnitude is not below 2^1024. *)
Definition b64_round (q : Q) : option Q :=
  if Qeq_bool q 0 then Some 0%Q
  else
    let a := Qabs q in
    let e := Z.max (-1074) (Qlog2 a - 52) in
    let m := round_half_even (a / 2 ^ e) in
    let r := (inject_Z m * 2 ^ e)%Q in
    if Qle_bool (2 ^ 1024) r then None
    else Some (if Qlt_bool q 0 then (- r)%Q else r).

(** [float(n)] for a Python integer, as done by [float * int]. *)
Definition float_of_int (n : Z) : result Q :=
  match b64_round (inject_Z n) with
  | Some f => Ok f
  | None => Raise OverflowError
  end.

(** [int(a * b)] for two floats: the product is rounded, then truncated;
    [int] rejects an infinity with OverflowError. *)
Definition int_of_product (a b : Q) : result Z :=
  match b64_round (a * b) with
  | Some p => Ok (py_int p)
  | None => Raise OverflowError
  end.

End Float.
Export Float.

(** ** The work directory, the quality flag and the external programs *)

Module Sys.

(** The steps of [main] whose execution is recorded. *)
Inductive Step : Type :=
| StepFindstars
| StepRemoveBadStars (cat_file : string)
| StepGetFwhm (cat_file : string)
| StepPsfex (cat_file : string)
| StepPiff (cat_file : string).

(** The state threaded through the processing of one detector unit: the FITS
    files of the work directory, the local variable [flag] of [main], and the
    record of what was started. *)
Record World : Type := mkWorld {
  files : gmap string Table;
  flag : Z;
  calls : list Step
}.

(** What the environment answers: the [star_flag] column of the file written
    by findstars ([None] when the file is still missing after the second
    attempt), the permutation drawn by [numpy.random.permutation], whether
    PSFEx and Piff leave an output file, which paths name an existing
    directory (the modelled steps create and remove none), and the value of
    [numpy.mean] on a non-empty float column. *)
Record Env : Type := mkEnv {
  findstars_out : option (list Z);
  permutation : nat -> list nat;
  psfex_ok : bool;
  piff_ok : bool;
  is_dir : string -> bool;
  numpy_mean : list Q -> Q
}.

Definition M (A : Type) : Type := World -> result A * World.

Definition ret {A} (a : A) : M A := fun w => (Ok a, w).

Definition raise {A} (e : exn) : M A := fun w => (Raise e, w).

Definition bind {A B} (m : M A) (k : A -> M B) : M B :=
  fun w =>
    match m w with
    | (Ok a, w') => k a w'
    | (Raise e, w') => (Raise e, w')
    end.

Definition lift {A} (r : result A) : M A := fun w => (r, w).

(** [pyfits.open(name)[2].data] *)
Definition read_catalog (name : string) : M Catalog :=
  fun w =>
    match files w !! name with
    | Some (LDAC data) => (Ok data, w)
    | Some (ReserveTable _) => (Raise IndexError, w)
    | None => (Raise IOError, w)
    end.

(** Can the file [name] be created or overwritten?  Its directory part, the
    text before the last slash, must be an existing directory; a name without
    a slash lies in the current directory and a name with a leading slash
    only in the root. *)
Definition can_create (env : Env) (name : string) : bool :=
  match split_last "/" name with
  | Some (dir, base) =>
    negb (String.eqb base "") && (String.eqb dir "" || is_dir env dir)
  | None => negb (String.eqb name "")
  end.

(** [hdu_list.writeto(name, clobber=True)] and [fitsio ... write_table]: a
    file that cannot be created is an IOError, and nothing is written. *)
Definition write_table (env : Env) (name : string) (t : Table) : M unit :=
  fun w =>
    if can_create env name
    then (Ok tt, mkWorld (<[name := t]> (files w)) (flag w) (calls w))
    else (Raise IOError, w).

(** [flag |= bit] *)
Definition or_flag (bit : Z) : M unit :=
  fun w => (Ok tt, mkWorld (files w) (Z.lor (flag w) bit) (calls w)).

Definition call (c : Step) : M unit :=
  fun w => (Ok tt, mkWorld (files w) (flag w) (calls w ++ [c])).

(** [if c: m] *)
Definition when_ (c : bool) (m : M unit) : M unit := if c then m else ret tt.

End Sys.
Export Sys.

Declare Scope m_scope.
Delimit Scope m_scope with M.
Notation "'do' x <- m ; k" := (bind m (fun x => k))
  (at level 10, x name, m at level 100, k at level 200) : m_scope.
Notation "'do' ' ( x , y ) <- m ; k" := (bind m (fun p => let '(x, y) := p in k))
  (at level 10, x name, y name, m at level 100, k at level 200) : m_scope.
Notation "m1 ;; m2" := (bind m1 (fun _ => m2))
  (at level 100, m2 at level 200, right associativity) : m_scope.

(* ------------------------------------------------------------------ *)
(** ** psf/run_psfex.py                                                *)
(* ------------------------------------------------------------------ *)

Module RunPsfex.

(** How many stars are too few or too many? *)
Definition FEW_STARS : Z := 20.
Definition MANY_STARS_FRAC : Q := 1 # 2.
(** How high is a high FWHM? *)
Definition HIGH_FWHM : Q := 138 # 10.

(** flag values *)
Definition NO_STARS_FLAG : Z := 1.
Definition TOO_FEW_STARS_FLAG : Z := 2.
Definition TOO_MANY_STARS_FLAG : Z := 4.
Definition TOO_HIGH_FWHM_FLAG : Z := 8.
Definition FINDSTARS_FAILURE : Z := 16.
Definition PSFEX_FAILURE : Z := 32.
Definition ERROR_FLAG : Z := 64.

(** The options of [parse_args] that the modelled code reads. *)
Record Args : Type := mkArgs {
  run_psfex_opt : bool;
  run_piff_opt : bool;
  use_findstars : Z;
  mag_cut : Q;
  nbright_stars : Z;
  max_mag : Q;
  use_tapebumps : Z;
  tapebump_extra : Q;
  reserve : Q;
  blacklist : Z
}.

(** Python truth value of a number. *)
Definition truthyZ (n : Z) : bool := negb (n =? 0)%Z.
Definition truthyQ (q : Q) : bool := negb (Qeq_bool q 0).

(** *** [exclude_tapebumps] *)

(** One entry of
    [(y>tb[0]-extra) & (x>tb[1]-extra) & (y<tb[2]+extra) & (x<tb[3]+extra)]. *)
Definition bump_mask (extra : Q) (tb : Region) (r : Row) : bool :=
  Qlt_bool (inject_Z (tb0 tb) - extra) (Y_IMAGE r)
  && Qlt_bool (inject_Z (tb1 tb) - extra) (X_IMAGE r)
  && Qlt_bool (Y_IMAGE r) (inject_Z (tb2 tb) + extra)
  && Qlt_bool (X_IMAGE r) (inject_Z (tb3 tb) + extra).

Definition exclude_tapebumps (tbd : list Region) (data : Catalog) (extra : Q)
  : result Catalog :=
  let extra := (extra + (1 # 2))%Q in
  let masks := map (fun tb => map (bump_mask extra tb) data) tbd in
  let mask := any_axis0 masks in
  (* if sum(mask) > 0: print ... *)
  (do nmasked <- py_sum mask;
   match mask with
   | NpArray m => index_mask data (map negb m)
   | NpScalar _ => Raise TypeError (* not reached: [sum] has raised *)
   end)%res.

(** *** [log_blacklist] *)

(** The blacklist file and the behaviour of the operating system around it:
    [failures] lists the exceptions with which the coming attempts to open the
    file for appending and write to it fail (nothing is written by a failed
    attempt); once the list is used up every attempt succeeds.  [slept] counts
    the calls of [time.sleep(1)]. *)
Record BlFile : Type := mkBlFile {
  content : string;
  failures : list exn;
  slept : nat
}.

(** Under Python 2 the builtin [open] and [file.write] report a failure of the
    operating system as IOError, and IOError is not a subclass of OSError
    (both derive from EnvironmentError). *)
Definition py2_open_failure : exn := IOError.

(** ["%s %s %d %d\n"] *)
Definition blacklist_fmt : list fmt_item :=
  [FmtS; Lit " "; FmtS; Lit " "; FmtD; Lit " "; FmtD; Lit nl].

(** The recursion of the handler is the recursion on [failures]: each failed
    attempt uses one entry up.  [py_format] raises TypeError only, which the
    handler does not catch. *)
Fixpoint log_blacklist (fails : list exn) (text : string) (naps : nat)
    (run exp : string) (ccdnum flag : Z) {struct fails} : result unit * BlFile :=
  match fails with
  | e :: rest =>
    if is_OSError e
    then log_blacklist rest text (S naps) run exp ccdnum flag
    else (Raise e, mkBlFile text rest naps)
  | [] =>
    match py_format blacklist_fmt [VStr run; VStr exp; VInt ccdnum; VInt flag] with
    | Ok line => (Ok tt, mkBlFile (text ++ line) [] naps)
    | Raise e => (Raise e, mkBlFile text [] naps)
    end
  end.

(** *** [run_findstars] *)

Definition run_findstars (env : Env) (wdir root cat_file : string)
  : M (option (string * Z * Z)) :=
  (call StepFindstars ;;
   match findstars_out env with
   | None => ret None
   | Some star_flag =>
     let mask := map (fun f => (f =? 1)%Z) star_flag in
     let nstars := count_nonzero mask in
     let ntot := Z.of_nat (length mask) in
     if (nstars =? 0)%Z then raise NoStarsException
     else
       do cat <- read_catalog cat_file;
       do data <- lift (index_mask cat mask);
       let new_cat_file := py_replace cat_file "psfcat" "psfcat_findstars" in
       write_table env new_cat_file (LDAC data) ;;
       ret (Some (new_cat_file, nstars, ntot))
   end)%M.

(** *** [remove_bad_stars] *)

(** [if mag_cut > 0: ...] *)
Definition bright_cut (mag_cut : Q) (nbright_stars : Z)
    (data : Catalog) (new_cat_file : string) : result (Catalog * string) :=
  if Qlt_bool 0 mag_cut then
    let mags := np_sort (map MAG_AUTO data) in
    let min_star := np_median (slice_to nbright_stars mags) in
    (* print '   min mag = ',mags[0] *)
    (do first <- match mags with [] => Raise IndexError | m0 :: _ => Ok m0 end;
     let mag_mask :=
       map (fun r => match min_star with
                     | Some m => Qlt_bool (m + mag_cut) (MAG_AUTO r)
                     | None => false
                     end) data in
     do data' <- index_mask data mag_mask;
     Ok (data',
         py_replace new_cat_file "psfcat" ("psfcat_magcut_" ++ fmt_f 1 mag_cut)))%res
  else Ok (data, new_cat_file).

(** [if max_mag > 0: ...] *)
Definition faint_cut (max_mag : Q)
    (data : Catalog) (new_cat_file : string) : result (Catalog * string) :=
  if Qlt_bool 0 max_mag then
    let mag_mask := map (fun r => Qlt_bool (MAG_AUTO r) max_mag) data in
    (do data' <- index_mask data mag_mask;
     Ok (data',
         py_replace new_cat_file "psfcat" ("psfcat_maxmag_" ++ fmt_f 1 max_mag)))%res
  else Ok (data, new_cat_file).

(** [if use_tapebumps: ...] *)
Definition tapebump_cut (use_tapebumps : Z) (tbdata : gmap Z (list Region))
    (ccdnum : Z) (tapebump_extra fwhm : Q)
    (data : Catalog) (new_cat_file : string) : result (Catalog * string) :=
  if truthyZ use_tapebumps then
    (do tbd <- match tbdata !! ccdnum with
               | Some tbd => Ok tbd
               | None => Raise KeyError
               end;
     do data' <- exclude_tapebumps tbd data (tapebump_extra * fwhm);
     Ok (data', py_replace new_cat_file "psfcat" "psfcat_tb"))%res
  else Ok (data, new_cat_file).

(** [n1 = int(reserve * n)]: the integer [n] becomes a float, the product is
    rounded to binary64 and truncated. *)
Definition reserve_count (reserve : Q) (n : nat) : result Z :=
  (do fn <- float_of_int (Z.of_nat n);
   int_of_product reserve fn)%res.

(** The two index selections of the reservation:
    [data[perm[:n1]]] and [data[perm[n1:]]]. *)
Definition reserve_split (reserve : Q) (perm : list nat) (data : Catalog)
  : result (Catalog * Catalog) :=
  let n := length data in
  (do n1 <- reserve_count reserve n;
   do reserve_data <- index_rows data (slice_to n1 perm);
   do data' <- index_rows data (slice_from n1 perm);
   Ok (reserve_data, data'))%res.

(** [if reserve: ...] *)
Definition reserve_cut (env : Env) (wdir root : string) (reserve : Q)
    (data : Catalog) (new_cat_file : string) : M (Catalog * string) :=
  if truthyQ reserve then
    (let perm := permutation env (length data) in
     do '(reserve_data, data') <- lift (reserve_split reserve perm data);
     let new_cat_file' :=
       py_replace new_cat_file "psfcat" ("psfcat_reserve_" ++ fmt_f 2 reserve) in
     let reserve_file := os_path_join wdir (root ++ "_reserve.fits") in
     write_table env reserve_file (ReserveTable (map reserve_cols reserve_data)) ;;
     ret (data', new_cat_file'))%M
  else ret (data, new_cat_file).

Definition remove_bad_stars (env : Env) (wdir root : string) (ccdnum : Z)
    (cat_file : string) (tbdata : gmap Z (list Region))
    (mag_cut : Q) (nbright_stars : Z) (max_mag : Q)
    (use_tapebumps : Z) (tapebump_extra : Q) (reserve : Q) (fwhm : Q)
  : M (string * Z) :=
  (call (StepRemoveBadStars cat_file) ;;
   do data <- read_catalog cat_file;
   (* Start with a basic FLAGS==0 mask *)
   let flags_mask := map (fun r => (FLAGS r =? 0)%Z) data in
   do data <- lift (index_mask data flags_mask);
   (* Start with the current name.  We will update it below. *)
   let new_cat_file := cat_file in
   do '(data, new_cat_file) <- lift (bright_cut mag_cut nbright_stars data new_cat_file);
   do '(data, new_cat_file) <- lift (faint_cut max_mag data new_cat_file);
   do '(data, new_cat_file) <-
      lift (tapebump_cut use_tapebumps tbdata ccdnum tapebump_extra fwhm
                         data new_cat_file);
   do '(data, new_cat_file) <- reserve_cut env wdir root reserve data new_cat_file;
   (* create new catalog file with only these entries *)
   do original <- read_catalog cat_file;
   write_table env new_cat_file (LDAC data) ;;
   ret (new_cat_file, Z.of_nat (length data)))%M.

(** *** [get_fwhm] *)

(** The statistics of [2. * data['FLUX_RADIUS']]; [numpy.min] is evaluated
    first and rejects a zero-size array with ValueError. *)
Definition fwhm_stats (env : Env) (flux_radius : list Q)
  : result (Q * Q * Q * Q) :=
  let fwhm := map (Qmult 2) flux_radius in
  match fwhm with
  | [] => Raise ValueError
  | v :: rest =>
    Ok (Qmin_list v rest, Qmax_list v rest, numpy_mean env fwhm,
        median_sorted (np_sort fwhm))
  end.

Definition get_fwhm (env : Env) (cat_file : string) : M (Q * Q * Q * Q) :=
  (call (StepGetFwhm cat_file) ;;
   do data <- read_catalog cat_file;
   lift (fwhm_stats env (map FLUX_RADIUS data)))%M.

(** *** [run_psfex], [run_piff] : external programs *)

Definition run_psfex (env : Env) (cat_file : string) : M bool :=
  (call (StepPsfex cat_file) ;; ret (psfex_ok env))%M.

Definition run_piff (env : Env) (cat_file : string) : M bool :=
  (call (StepPiff cat_file) ;; ret (piff_ok env))%M.
(** *** [main] : the processing of one detector unit *)

(** [tbdata] is assigned only [if args.use_tapebumps]. *)
Definition main_tbdata (args : Args) (tbfile : gmap Z (list Region))
  : option (gmap Z (list Region)) :=
  if truthyZ (use_tapebumps args) then Some tbfile else None.

(** [args.run_psfex or args.run_piff or args.use_findstars or args.mag_cut>0
    or args.use_tapebumps] *)
Definition needs_catalog (args : Args) : bool :=
  run_psfex_opt args || run_piff_opt args || truthyZ (use_findstars args)
  || Qlt_bool 0 (mag_cut args) || truthyZ (use_tapebumps args).

(** [args.mag_cut>0 or args.use_tapebumps or args.max_mag>0 or args.reserve>0] *)
Definition needs_refinement (args : Args) : bool :=
  Qlt_bool 0 (mag_cut args) || truthyZ (use_tapebumps args)
  || Qlt_bool 0 (max_mag args) || Qlt_bool 0 (reserve args).

(** [if args.use_findstars: ...] *)
Definition findstars_pass (env : Env) (args : Args) (wdir root cat_file : string)
  : M string :=
  (if truthyZ (use_findstars args) then
     do r <- run_findstars env wdir root cat_file;
     match r with
     | None =>
       or_flag FINDSTARS_FAILURE ;; raise NoStarsException
     | Some (cat_file', nstars, ntot) =>
       (* Check if there are few or many stars. *)
       when_ (nstars <? FEW_STARS)%Z (or_flag TOO_FEW_STARS_FLAG) ;;
       when_ (Qlt_bool (MANY_STARS_FRAC * inject_Z ntot) (inject_Z nstars))
             (or_flag TOO_MANY_STARS_FLAG) ;;
       ret cat_file'
     end
   else ret cat_file)%M.

(** [if args.mag_cut>0 or args.use_tapebumps or args.max_mag>0 or
    args.reserve>0: ...].  Reading the unassigned local [tbdata] for the call
    is an UnboundLocalError. *)
Definition refinement_pass (env : Env) (args : Args)
    (tbfile : gmap Z (list Region)) (wdir root : string) (ccdnum : Z)
    (cat_file : string) (fwhm : Q) : M string :=
  (if needs_refinement args then
     match main_tbdata args tbfile with
     | None => raise UnboundLocalError
     | Some tbdata =>
       do '(cat_file', nstars) <-
          remove_bad_stars env wdir root ccdnum cat_file tbdata
            (mag_cut args) (nbright_stars args) (max_mag args)
            (use_tapebumps args) (tapebump_extra args) (reserve args) fwhm;
       (* Recheck this. *)
       when_ (nstars <? FEW_STARS)%Z (or_flag TOO_FEW_STARS_FLAG) ;;
       if (nstars <=? 1)%Z then raise NoStarsException else ret cat_file'
     end
   else ret cat_file)%M.

(** [star_fwhm = get_fwhm(cat_file)] and the two checks of its median. *)
Definition fwhm_pass (env : Env) (args : Args) (cat_file : string) (fwhm : Q)
  : M unit :=
  (if needs_catalog args then
     do star_fwhm <- get_fwhm env cat_file;
     let median := snd star_fwhm in
     when_ (Qlt_bool HIGH_FWHM median) (or_flag TOO_HIGH_FWHM_FLAG) ;;
     when_ (Qlt_bool ((3 # 2) * fwhm) median) (or_flag TOO_HIGH_FWHM_FLAG)
   else ret tt)%M.

Definition fit_pass (env : Env) (args : Args) (cat_file : string) : M unit :=
  (when_ (run_psfex_opt args)
     (do success <- run_psfex env cat_file;
      if success then ret tt else or_flag PSFEX_FAILURE) ;;
   when_ (run_piff_opt args)
     (do success <- run_piff env cat_file;
      if success then ret tt else or_flag PSFEX_FAILURE))%M.

(** The [try] block of the loop over [file_name], from the star selection on.
    [cat_file] and [fwhm] are what [run_sextractor] and [read_image_header]
    returned; they are bound whenever the steps below read them.  The moving
    and removal of files at the end of the block is not modelled. *)
Definition unit_body (env : Env) (args : Args) (tbfile : gmap Z (list Region))
    (wdir root : string) (ccdnum : Z) (cat_file : string) (fwhm : Q) : M unit :=
  (do cat_file1 <- findstars_pass env args wdir root cat_file;
   do cat_file2 <- refinement_pass env args tbfile wdir root ccdnum cat_file1 fwhm;
   fwhm_pass env args cat_file2 fwhm ;;
   fit_pass env args cat_file2)%M.

(** [flag = 0], the [try] block and its two handlers. *)
Definition main_unit (env : Env) (args : Args) (tbfile : gmap Z (list Region))
    (wdir root : string) (ccdnum : Z) (cat_file : string) (fwhm : Q)
    (work : gmap string Table) : World :=
  let w0 := mkWorld work 0 [] in
  match unit_body env args tbfile wdir root ccdnum cat_file fwhm w0 with
  | (Ok _, w) => w
  | (Raise e, w) =>
    if is_NoStars e then snd (or_flag NO_STARS_FLAG w)
    else snd (or_flag ERROR_FLAG w)
  end.

(** [if flag and args.blacklist: log_blacklist(...)] *)
Definition main_blacklist (args : Args) (w : World) (bl : BlFile)
    (run exp : string) (ccdnum : Z) : result unit * BlFile :=
  if truthyZ (flag w) && truthyZ (blacklist args)
  then log_blacklist (failures bl) (content bl) (slept bl) run exp ccdnum (flag w)
  else (Ok tt, bl).

(** *** [read_tapebump_file] *)

(** What [numpy.genfromtxt] hands back: a two-dimensional array of floats, one
    row per line of the file, or (for a file of one line) a one-dimensional
    array.  An entry that could not be read is nan, here [None]. *)
Inductive FloatTable : Type :=
| Table1D (values : list (option Q))
| Table2D (rows : list (list (option Q))).

(** [d[k]] on a row of the table. *)
Definition row_get (d : list (option Q)) (k : nat) : result (option Q) :=
  match nth_error d k with
  | Some v => Ok v
  | None => Raise IndexError
  end.

(** [int(v)] on a float: truncation; nan is rejected with ValueError. *)
Definition int_of_float (v : option Q) : result Z :=
  match v with
  | Some q => Ok (py_int q)
  | None => Raise ValueError
  end.

(** The body of the loop [for d in raw_tbdata]. *)
Definition tapebump_row (tbdata : gmap Z (list Region)) (d : list (option Q))
  : result (gmap Z (list Region)) :=
  (do v0 <- row_get d 0;
   do ccdnum <- int_of_float v0;
   let tbdata1 :=
     match tbdata !! ccdnum with
     | None => <[ccdnum := []]> tbdata
     | Some _ => tbdata
     end in
   do v1 <- row_get d 1; do a <- int_of_float v1;
   do v2 <- row_get d 2; do b <- int_of_float v2;
   do v3 <- row_get d 3; do c <- int_of_float v3;
   do v4 <- row_get d 4; do e <- int_of_float v4;
   Ok (alter (fun l => (l ++ [(a, b, c, e)])%list) ccdnum tbdata1))%res.

Fixpoint tapebump_rows (tbdata : gmap Z (list Region))
    (rows : list (list (option Q))) : result (gmap Z (list Region)) :=
  match rows with
  | [] => Ok tbdata
  | d :: rows' =>
    match tapebump_row tbdata d with
    | Ok tbdata' => tapebump_rows tbdata' rows'
    | Raise e => Raise e
    end
  end.

(** Iterating over a one-dimensional array yields scalars, and [d[0]] on a
    scalar is an IndexError. *)
Definition read_tapebump_file (raw_tbdata : FloatTable)
  : result (gmap Z (list Region)) :=
  match raw_tbdata with
  | Table1D [] => Ok ∅
  | Table1D (_ :: _) => Raise IndexError
  | Table2D rows => tapebump_rows ∅ rows
  end.

(** *** [parse_file_name] *)

Fixpoint all_dots (s : string) : bool :=
  match s with
  | EmptyString => true
  | String a s' => Ascii.eqb a "." && all_dots s'
  end.

(** [os.path.split(p)[1]] *)
Definition os_path_basename (p : string) : string :=
  match split_last "/" p with
  | Some (_, tail) => tail
  | None => p
  end.

(** [os.path.splitext(p)]: the extension starts at the last dot of the last
    path component, unless only dots stand in front of it. *)
Definition os_path_splitext (p : string) : string * string :=
  let '(head, tail) :=
    match split_last "/" p with
    | Some (h, t) => (h ++ "/", t)
    | None => (EmptyString, p)
    end in
  match split_last "." tail with
  | Some (b, e) =>
    if all_dots b then (p, EmptyString) else (head ++ b, String "." e)
  | None => (p, EmptyString)
  end.

(** [s.split(sep)[-1]] for a separator of one character. *)
Definition last_field (sep : ascii) (s : string) : string :=
  match split_last sep s with
  | Some (_, tail) => tail
  | None => s
  end.

(** [int_of_str] stands for the builtin [int] on a string.  In
    ["Invalid file name "+file] the name [file] is the builtin type, so that
    the concatenation raises TypeError before ValueError is built. *)
Definition parse_file_name (int_of_str : string -> result Z)
    (file_name : string) : result (string * Z) :=
  let base_file := os_path_basename file_name in
  let base_file :=
    if String.eqb (snd (os_path_splitext base_file)) ".fz"
    then fst (os_path_splitext base_file)
    else base_file in
  if negb (String.eqb (snd (os_path_splitext base_file)) ".fits")
  then Raise TypeError
  else
    let root := fst (os_path_splitext base_file) in
    (do ccdnum <- int_of_str (last_field "_" root);
     Ok (root, ccdnum))%res.

(** *** [remove_temp_files] *)

(** [save in files] *)
Definition list_mem (x : string) (l : list string) : bool :=
  existsb (String.eqb x) l.

(** [files.remove(save)]: the first occurrence goes. *)
Fixpoint list_remove (x : string) (l : list string) : list string :=
  match l with
  | [] => []
  | y :: l' => if String.eqb x y then l' else y :: list_remove x l'
  end.

(** The loop [for save in args]. *)
Definition drop_saved (files args : list string) : list string :=
  fold_left (fun fs save => if list_mem save fs then list_remove save fs else fs)
            args files.

(** The loop [for f in files: os.remove(f)] on the set of existing paths;
    removing a path that does not exist is an OSError. *)
Fixpoint os_remove_all (fs : list string) (disk : gset string)
  : result unit * gset string :=
  match fs with
  | [] => (Ok tt, disk)
  | f :: fs' =>
    if decide (f ∈ disk) then os_remove_all fs' (disk ∖ {[f]})
    else (Raise OSError, disk)
  end.

(** [listing] is the value of [sorted(glob.glob('%s/%s*'%(wdir,root)))]. *)
Definition remove_temp_files (listing args : list string) (disk : gset string)
  : result unit * gset string :=
  os_remove_all (drop_saved listing args) disk.

End RunPsfex.

(* ------------------------------------------------------------------ *)
(** ** psf/plot_fs.py                                                  *)
(* ------------------------------------------------------------------ *)

Module PlotFs.

Definition FINDSTARS_FAILURE : Z := 16.

(** *** [log_blacklist] *)

(** The format has four conversions and the tuple [(exp, ccdnum, flag)] three
    values.  The file has been opened (and possibly created) when the format
    is evaluated. *)
Fixpoint log_blacklist (fails : list exn) (text : string) (naps : nat)
    (exp ccdnum flag : pyval) {struct fails}
  : result unit * RunPsfex.BlFile :=
  match fails with
  | e :: rest =>
    if is_OSError e
    then log_blacklist rest text (S naps) exp ccdnum flag
    else (Raise e, RunPsfex.mkBlFile text rest naps)
  | [] =>
    match py_format RunPsfex.blacklist_fmt [exp; ccdnum; flag] with
    | Ok line => (Ok tt, RunPsfex.mkBlFile (text ++ line) [] naps)
    | Raise e => (Raise e, RunPsfex.mkBlFile text [] naps)
    end
  end.

(** *** The matching of the two catalogs in [main] *)

(** A position [(x, y)]. *)
Definition Pos : Type := (Q * Q)%type.

(** [(numpy.abs(xxs-x)<1) & (numpy.abs(yys-y)<1)] at one entry of [x], [y]. *)
Definition near (s c : Pos) : bool :=
  Qlt_bool (Qabs (fst s - fst c)) 1 && Qlt_bool (Qabs (snd s - snd c)) 1.

(** [numpy.where(mask)[0]] *)
Fixpoint where_from (i : nat) (mask : list bool) : list nat :=
  match mask with
  | [] => []
  | b :: mask' => if b then i :: where_from (S i) mask' else where_from (S i) mask'
  end.

Definition np_where (mask : list bool) : list nat := where_from 0 mask.

(** [numpy.concatenate(arrays)]: an empty sequence of arrays is rejected with
    ValueError ("need at least one array to concatenate"). *)
Definition np_concatenate (arrays : list (list nat)) : result (list nat) :=
  match arrays with
  | [] => Raise ValueError
  | _ => Ok (concat arrays)
  end.

(** [m1], [m2], [cat_m] and [sex_m]; [sex] lists [zip(xs, ys)] and [cat] the
    positions [(x, y)] of [cat_data]. *)
Definition match_catalogs (sex cat : list Pos) : result (list nat * list nat) :=
  let m1 := map (fun s => np_where (map (near s) cat)) sex in
  let m2 := map (fun a => length a) m1 in
  let single := map (fun n => (n =? 1)%nat) m2 in
  (do chosen <- index_mask m1 single;
   do cat_m <- np_concatenate chosen;
   let sex_m := np_where single in
   Ok (cat_m, sex_m))%res.

(** *** The labels of the detections in [main] *)

(** [idx[0]] on an index array. *)
Definition first_index (idx : list nat) : result nat :=
  match idx with
  | [] => Raise IndexError
  | j :: _ => Ok j
  end.

(** [used]: for every star of the PSFEx list, in order, the first detection
    of [cat_data] within one pixel on both axes. *)
Fixpoint used_stars (psfex cat : list Pos) : result (list nat) :=
  match psfex with
  | [] => Ok []
  | u :: rest =>
    match first_index (np_where (map (near u) cat)) with
    | Ok j =>
      match used_stars rest cat with
      | Ok js => Ok (j :: js)
      | Raise e => Raise e
      end
    | Raise e => Raise e
    end
  end.

(** [flag[mask] = v] for a boolean array [mask]. *)
Fixpoint set_mask (flag : list Z) (mask : list bool) (v : Z) : result (list Z) :=
  match flag, mask with
  | [], [] => Ok []
  | f :: flag', b :: mask' =>
    match set_mask flag' mask' v with
    | Ok rest => Ok ((if b then v else f) :: rest)
    | Raise e => Raise e
    end
  | _, _ => Raise IndexError
  end.

(** [flag[idx] = v] for an index array [idx]. *)
Fixpoint set_index (flag : list Z) (idx : list nat) (v : Z) : result (list Z) :=
  match idx with
  | [] => Ok flag
  | i :: idx' =>
    if (i <? length flag)%nat
    then set_index (<[i := v]> flag) idx' v
    else Raise IndexError
  end.

(** The labels after [flag[cat_data['size_flags']>0] = 4] and
    [flag[used] = 2], with [cand], which is taken before the two
    assignments. *)
Definition label_detections (star_flag size_flags : list Z)
    (psfex cat : list Pos) : result (list Z * list nat * list nat) :=
  let flag := star_flag in
  let cand := np_where (map (fun f => (f =? 1)%Z) flag) in
  (do flag1 <- set_mask flag (map (fun s => (0 <? s)%Z) size_flags) 4;
   do used <- used_stars psfex cat;
   do flag2 <- set_index flag1 used 2;
   Ok (flag2, cand, used))%res.

End PlotFs.

(* ------------------------------------------------------------------ *)
(** ** Vocabulary of the statements, and sample data                   *)
(* ------------------------------------------------------------------ *)

Import RunPsfex.

(** The containment predicate of the specification (closed bounds) and the
    one of the code (open bounds), for the inflated region. *)
Definition inside_closed (margin : Q) (tb : Region) (r : Row) : Prop :=
  (inject_Z (tb0 tb) - (margin + (1 # 2)) <= Y_IMAGE r
   /\ Y_IMAGE r <= inject_Z (tb2 tb) + (margin + (1 # 2))
   /\ inject_Z (tb1 tb) - (margin + (1 # 2)) <= X_IMAGE r
   /\ X_IMAGE r <= inject_Z (tb3 tb) + (margin + (1 # 2)))%Q.

Definition inside_open (margin : Q) (tb : Region) (r : Row) : Prop :=
  (inject_Z (tb0 tb) - (margin + (1 # 2)) < Y_IMAGE r
   /\ Y_IMAGE r < inject_Z (tb2 tb) + (margin + (1 # 2))
   /\ inject_Z (tb1 tb) - (margin + (1 # 2)) < X_IMAGE r
   /\ X_IMAGE r < inject_Z (tb3 tb) + (margin + (1 # 2)))%Q.

(** A star on the lower edge of the inflated bump. *)
Definition edge_star : Row :=
  mkRow 1 0 15 (19 # 2) 18 2 15 (19 # 2) 0 0 0.

Definition one_bump : Region := (10, 10, 20, 20).

(** A plain star record: identifier, detection flag, position, magnitude and
    flux radius. *)
Definition star (number flags : Z) (x y mag flux_radius : Q) : Row :=
  mkRow number flags x y mag flux_radius x y 0 0 0.

Definition five_stars : Catalog :=
  [star 1 0 100 100 15 2; star 2 0 200 100 16 2; star 3 0 300 100 17 2;
   star 4 0 400 100 18 2; star 5 0 500 100 19 2].

Definition thirty_stars : Catalog :=
  map (fun i => star (Z.of_nat i) 0 (inject_Z (100 + Z.of_nat i)) 100 18 2)
      (seq 0 30).

(** Ten stars in a row. *)
Definition ten_stars : Catalog :=
  map (fun i => star (Z.of_nat i) 0 (inject_Z (100 + Z.of_nat i)) 100 18 2)
      (seq 0 10).

(** The binary64 number nearest to 0.7. *)
Definition double_0_7 : Q := 3152519739159347 # 4503599627370496.

(** Is the rational a binary64 number? *)
Definition is_binary64 (q : Q) : bool :=
  match b64_round q with
  | Some p => Qeq_bool p q
  | None => false
  end.

(** The tape bumps of detector unit 1. *)
Definition bumps_of_unit_1 : gmap Z (list Region) := {[ 1%Z := [one_bump] ]}.

(** The mean without rounding, which is what [numpy.mean] returns when the
    sum and the quotient are representable. *)
Definition plain_mean (l : list Q) : Q :=
  (fold_right Qplus 0 l / inject_Z (Z.of_nat (length l)))%Q.

(** The only directory is the work directory "w". *)
Definition only_w (dir : string) : bool := String.eqb dir "w".

Definition no_fit_env : Env :=
  mkEnv None (fun n => seq 0 n) true true only_w plain_mean.

(** A work directory whose name is "psfcat", and no other directory. *)
Definition only_psfcat (dir : string) : bool := String.eqb dir "psfcat".

Definition psfcat_dir_env : Env :=
  mkEnv None (fun n => seq 0 n) true true only_psfcat plain_mean.

(** The default options apart from [use_findstars = 0]: no magnitude cut, no
    reservation, tape bumps avoided, PSFEx run. *)
Definition tapebumps_only : Args := mkArgs true false 0 (-1) 10 (-1) 1 2 0 1.

(** A computation that leaves the quality flag as it is. *)
Definition keeps_flag {A} (m : M A) : Prop :=
  forall w, flag (snd (m w)) = flag w.

(** The name that the stages of [remove_bad_stars] give to the output
    catalog, replacement after replacement. *)
Definition renamed (mag_cut max_mag : Q) (use_tapebumps : Z) (reserve : Q)
    (cat_file : string) : string :=
  let name1 :=
    if Qlt_bool 0 mag_cut
    then py_replace cat_file "psfcat" ("psfcat_magcut_" ++ fmt_f 1 mag_cut)
    else cat_file in
  let name2 :=
    if Qlt_bool 0 max_mag
    then py_replace name1 "psfcat" ("psfcat_maxmag_" ++ fmt_f 1 max_mag)
    else name1 in
  let name3 :=
    if truthyZ use_tapebumps
    then py_replace name2 "psfcat" "psfcat_tb"
    else name2 in
  if truthyQ reserve
  then py_replace name3 "psfcat" ("psfcat_reserve_" ++ fmt_f 2 reserve)
  else name3.

(** Three detections of which findstars calls the first two stars. *)
Definition three_rows : Catalog :=
  [star 1 0 100 100 15 2; star 2 0 200 100 16 2; star 3 0 300 100 17 2].

Definition two_of_three_env : Env :=
  mkEnv (Some [1; 1; 0]%Z) (fun n => seq 0 n) true true only_w plain_mean.

Definition with_findstars : Args := mkArgs true false 1 (-1) 10 (-1) 1 2 0 1.

(** A catalog whose only detection has a non-zero FLAGS value. *)
Definition one_flagged_row : Catalog := [star 1 4 50 50 18 2].

Definition psfcat_only (c : Catalog) : gmap string Table :=
  {[ "w/r_psfcat.fits"%string := LDAC c ]}.

(** The indices of [cat] that the code pairs with the position [s]. *)
Definition candidates (s : PlotFs.Pos) (cat : list PlotFs.Pos) : list nat :=
  PlotFs.np_where (map (PlotFs.near s) cat).

(** The same selection for an arbitrary tolerance [t]: the reading of the
    specification. *)
Definition near_tol (t : Q) (s c : PlotFs.Pos) : bool :=
  Qlt_bool (Qabs (fst s - fst c)) t && Qlt_bool (Qabs (snd s - snd c)) t.

Definition candidates_tol (t : Q) (s : PlotFs.Pos) (cat : list PlotFs.Pos)
  : list nat :=
  PlotFs.np_where (map (near_tol t s) cat).

(** The string has no letter p. *)
Fixpoint no_p (s : string) : bool :=
  match s with
  | EmptyString => true
  | String c s' => negb (Ascii.eqb c "p") && no_p s'
  end.

(** The token each stage of [remove_bad_stars] puts behind "psfcat"; the
    empty string when the stage is off. *)
Definition magcut_token (mag_cut : Q) : string :=
  if Qlt_bool 0 mag_cut then "_magcut_" ++ fmt_f 1 mag_cut else "".

Definition maxmag_token (max_mag : Q) : string :=
  if Qlt_bool 0 max_mag then "_maxmag_" ++ fmt_f 1 max_mag else "".

Definition tapebump_token (use_tapebumps : Z) : string :=
  if truthyZ use_tapebumps then "_tb" else "".

Definition reserve_token (reserve : Q) : string :=
  if truthyQ reserve then "_reserve_" ++ fmt_f 2 reserve else "".

(** The options of [tapebumps_only] with the bright-end cut [--mag_cut 1]. *)
Definition with_bright_cut : Args := mkArgs true false 0 1 10 (-1) 1 2 0 1.

(** A line of the tape bump file with all five numbers present. *)
Definition bump_line (ccdnum : Z) (tb : Region) : list (option Q) :=
  [Some (inject_Z ccdnum); Some (inject_Z (tb0 tb)); Some (inject_Z (tb1 tb));
   Some (inject_Z (tb2 tb)); Some (inject_Z (tb3 tb))].

(** The first five entries of a row, when none of them is nan. *)
Definition five_numbers (d : list (option Q)) : option (Q * Q * Q * Q * Q) :=
  match d with
  | Some v0 :: Some v1 :: Some v2 :: Some v3 :: Some v4 :: _ =>
    Some (v0, v1, v2, v3, v4)
  | _ => None
  end.

(** Is the entry a nan? *)
Definition is_nan (v : option Q) : bool :=
  match v with
  | None => true
  | Some _ => false
  end.

(** The exception that a row without five numbers produces. *)
Definition row_failure (d : list (option Q)) : exn :=
  if existsb is_nan (firstn 5 d) then ValueError else IndexError.

(** The bumps that the rows of the table list for the unit [ccdnum], in the
    order of the rows. *)
Fixpoint bumps_listed (ccdnum : Z) (rows : list (list (option Q)))
  : list Region :=
  match rows with
  | [] => []
  | d :: rows' =>
    match five_numbers d with
    | Some (v0, v1, v2, v3, v4) =>
      if (py_int v0 =? ccdnum)%Z
      then (py_int v1, py_int v2, py_int v3, py_int v4) :: bumps_listed ccdnum rows'
      else bumps_listed ccdnum rows'
    | None => bumps_listed ccdnum rows'
    end
  end.

(** A dictionary entry: present exactly when the list is not empty. *)
Definition entry_of (l : list Region) : option (list Region) :=
  match l with
  | [] => None
  | _ => Some l
  end.

(** A computation that only sets bits of [allowed] in the quality flag. *)
Definition sets_only (allowed : Z) {A} (m : M A) : Prop :=
  forall w, exists b, Z.land b allowed = b
                      /\ flag (snd (m w)) = Z.lor (flag w) b.

(** The bits that the [try] block of [main] can set:
    too few, too many, high FWHM, findstars failure, PSFEx failure. *)
Definition body_bits : Z := 62.

(** The character [c] occurs in [s]. *)
Fixpoint has_char (c : ascii) (s : string) : bool :=
  match s with
  | EmptyString => false
  | String a s' => Ascii.eqb a c || has_char c s'
  end.

(** A stand-in for [int] on strings of digits, for the examples. *)
Definition int_of_digits (s : string) : result Z :=
  match NilEmpty.uint_of_string s with
  | Some (Decimal.Nil) | None => Raise ValueError
  | Some d => Ok (Z.of_uint d)
  end.

(* ================================================================== *)
(** * Part II : properties                                             *)
(* ================================================================== *)

(** ** Comparisons and masks *)

Lemma Qlt_bool_iff (a b : Q) : Qlt_bool a b = true <-> (a < b)%Q.
Proof. unfold Qlt_bool, Qlt. apply Z.ltb_lt. Qed.

Lemma Qlt_bool_false_iff (a b : Q) : Qlt_bool a b = false <-> (b <= a)%Q.
Proof. unfold Qlt_bool, Qle. apply Z.ltb_ge. Qed.

Lemma index_mask_map {A} (f : A -> bool) (data : list A) :
  index_mask data (map f data) = Ok (List.filter f data).
Proof.
  induction data as [|r data IH]; simpl; [reflexivity|].
  rewrite IH. destruct (f r); reflexivity.
Qed.

Lemma zip_with_orb_map {A} (f g : A -> bool) (data : list A) :
  zip_with orb (map f data) (map g data) = map (fun r => f r || g r) data.
Proof.
  induction data as [|r data IH]; simpl; [reflexivity|]. now rewrite IH.
Qed.

(** Folding the masks of the regions one after the other gives, row by row,
    the disjunction over the regions. *)
Lemma fold_masks {A B} (g : B -> A -> bool) (data : list A) (tbs : list B)
    (f : A -> bool) :
  fold_left (fun acc m' => zip_with orb acc m')
            (map (fun tb => map (g tb) data) tbs) (map f data)
  = map (fun r => f r || existsb (fun tb => g tb r) tbs) data.
Proof.
  revert f. induction tbs as [|tb tbs IH]; intros f; simpl.
  - apply map_ext. intros r. now rewrite orb_false_r.
  - rewrite zip_with_orb_map, IH. apply map_ext. intros r.
    now rewrite orb_assoc.
Qed.

Lemma any_axis0_regions {A B} (g : B -> A -> bool) (data : list A)
    (tb : B) (tbs : list B) :
  any_axis0 (map (fun tb => map (g tb) data) (tb :: tbs))
  = NpArray (map (fun r => existsb (fun tb => g tb r) (tb :: tbs)) data).
Proof. simpl. now rewrite fold_masks. Qed.

(** The code of [exclude_tapebumps] on a non-empty list of regions. *)
Lemma exclude_tapebumps_filter (tb : Region) (tbs : list Region)
    (data : Catalog) (extra : Q) :
  exclude_tapebumps (tb :: tbs) data extra
  = Ok (List.filter
          (fun r => negb (existsb (fun tb => bump_mask (extra + (1 # 2)) tb r)
                                  (tb :: tbs)))
          data).
Proof.
  unfold exclude_tapebumps. rewrite any_axis0_regions.
  cbn [py_sum rbind]. rewrite map_map. apply index_mask_map.
Qed.

(** ** Tape bumps *)

Lemma bump_mask_iff (margin : Q) (tb : Region) (r : Row) :
  bump_mask (margin + (1 # 2)) tb r = true <-> inside_open margin tb r.
Proof.
  unfold bump_mask, inside_open.
  rewrite !andb_true_iff, !Qlt_bool_iff. tauto.
Qed.

(** C1, as stated, fails: with margin 0 the bump (10, 10, 20, 20) is inflated
    to [9.5, 20.5] on both axes; the star at x = 15, y = 9.5 satisfies the
    closed containment test of the claim, yet the code keeps it. *)
Lemma C1_edge_star_is_kept :
  exclude_tapebumps [one_bump] [edge_star] 0 = Ok [edge_star]
  /\ inside_closed 0 one_bump edge_star.
Proof.
  split; [reflexivity|].
  unfold inside_closed, one_bump, edge_star, tb0, tb1, tb2, tb3; simpl.
  repeat split; unfold Qle; simpl; lia.
Qed.

(** C1 (amended): for a non-empty region list, tapebump exclusion returns a
    sub-catalog of the input (a filtering of it: nothing added, nothing
    altered, order kept) in which a row is kept if and only if for every
    region it is not STRICTLY inside the region inflated by margin + 0.5 on
    each side; and the refinement pipeline passes tapebump_extra * fwhm as the
    margin, for the regions of the detector unit. *)
Theorem C1_exclude_tapebumps_open_bounds
    (tbd : list Region) (data : Catalog) (margin : Q)
    (use : Z) (tbdata : gmap Z (list Region)) (ccdnum : Z)
    (tapebump_extra fwhm : Q) (name : string) :
  tbd <> [] ->
  truthyZ use = true ->
  tbdata !! ccdnum = Some tbd ->
  (exists keep : Row -> bool,
     exclude_tapebumps tbd data margin = Ok (List.filter keep data)
     /\ forall r, keep r = true <->
                  forall tb, In tb tbd -> ~ inside_open margin tb r)
  /\ tapebump_cut use tbdata ccdnum tapebump_extra fwhm data name
     = rbind (exclude_tapebumps tbd data (tapebump_extra * fwhm))
             (fun kept => Ok (kept, py_replace name "psfcat" "psfcat_tb")).
Proof.
  intros Hne Huse Hlook. destruct tbd as [|tb tbs]; [congruence|]. split.
  - eexists. split; [apply exclude_tapebumps_filter|].
    intros r. cbv beta. rewrite negb_true_iff. split.
    + intros Hex tb' Hin Hinside.
      apply bump_mask_iff in Hinside.
      assert (existsb (fun tb => bump_mask (margin + (1 # 2)) tb r) (tb :: tbs)
              = true) as Habs
        by (apply existsb_exists; eauto).
      congruence.
    + intros Hall.
      destruct (existsb _ (tb :: tbs)) eqn:E; [|reflexivity].
      apply existsb_exists in E. destruct E as (tb' & Hin & Hm).
      apply bump_mask_iff in Hm. exfalso. eapply Hall; eauto.
  - unfold tapebump_cut. rewrite Huse, Hlook. reflexivity.
Qed.

Lemma C1_exclude_tapebumps_open_bounds_witness :
  (exists keep : Row -> bool,
     exclude_tapebumps [one_bump] [edge_star] 0 = Ok (List.filter keep [edge_star])
     /\ forall r, keep r = true <->
                  forall tb, In tb [one_bump] -> ~ inside_open 0 tb r)
  /\ tapebump_cut 1 bumps_of_unit_1 1 2 4 [edge_star] "w/r_psfcat.fits"
     = rbind (exclude_tapebumps [one_bump] [edge_star] (2 * 4))
             (fun kept => Ok (kept, py_replace "w/r_psfcat.fits" "psfcat" "psfcat_tb")).
Proof.
  apply (C1_exclude_tapebumps_open_bounds
           [one_bump] [edge_star] 0 1 bumps_of_unit_1 1 2 4 "w/r_psfcat.fits").
  - discriminate.
  - reflexivity.
  - reflexivity.
Defined.

(** C9: with an empty region list the list of masks is empty, [numpy.any]
    reduces it to the scalar False, and the builtin [sum] rejects the scalar:
    the call raises TypeError for every catalog and every margin, instead of
    returning the catalog unchanged. *)
Theorem C9_empty_region_list_raises (data : Catalog) (margin : Q) :
  exclude_tapebumps [] data margin = Raise TypeError.
Proof. reflexivity. Qed.

(** ** The blacklist *)

(** When the file can be opened, exactly one line is appended: the four
    fields in order, separated by one space, closed by a line feed. *)
Lemma log_blacklist_appends_line (text : string) (naps : nat)
    (run exp : string) (ccdnum flag : Z) :
  log_blacklist [] text naps run exp ccdnum flag
  = (Ok tt,
     mkBlFile (text ++ (run ++ " " ++ exp ++ " " ++ str_of_Z ccdnum ++ " "
                        ++ str_of_Z flag ++ nl))%string
              [] naps).
Proof. reflexivity. Qed.

(** Failures that are raised as OSError are retried, with one sleep each, and
    the line is appended once in the end. *)
Lemma log_blacklist_retries_OSError (k : nat) (text : string) (naps : nat)
    (run exp : string) (ccdnum flag : Z) :
  log_blacklist (repeat OSError k) text naps run exp ccdnum flag
  = (Ok tt,
     mkBlFile (text ++ (run ++ " " ++ exp ++ " " ++ str_of_Z ccdnum ++ " "
                        ++ str_of_Z flag ++ nl))%string
              [] (k + naps)).
Proof.
  revert naps. induction k as [|k IH]; intros naps; simpl.
  - reflexivity.
  - rewrite IH. do 2 f_equal. lia.
Qed.

Lemma plot_fs_format_fails (exp ccdnum flag : pyval) :
  py_format blacklist_fmt [exp; ccdnum; flag] = Raise TypeError.
Proof. destruct exp, ccdnum, flag; reflexivity. Qed.

(** C3: a failure of [open] or [write] reaches [log_blacklist] of
    run_psfex.py as IOError, which [except OSError] does not catch: the
    exception leaves the function at the first failure, nothing is appended
    and nothing is retried.  And [log_blacklist] of plot_fs.py never appends
    a line: its format asks for four values and is given three. *)
Theorem C3_failed_append_is_not_retried :
  (forall (rest : list exn) (text : string) (naps : nat)
          (run exp : string) (ccdnum flag : Z),
     log_blacklist (py2_open_failure :: rest) text naps run exp ccdnum flag
     = (Raise IOError, mkBlFile text rest naps))
  /\ (forall (text : string) (naps : nat) (exp ccdnum flag : pyval),
        PlotFs.log_blacklist [] text naps exp ccdnum flag
        = (Raise TypeError, mkBlFile text [] naps)).
Proof.
  split.
  - intros. reflexivity.
  - intros. cbn [PlotFs.log_blacklist]. now rewrite plot_fs_format_fails.
Qed.

(** ** Sorting and the statistics *)

Lemma Qle_bool_false_lt (v w : Q) : Qle_bool v w = false -> (w < v)%Q.
Proof.
  intros H. apply Qnot_le_lt. intros Hle.
  apply Qle_bool_iff in Hle. congruence.
Qed.

Lemma insert_sorted_perm (v : Q) (l : list Q) :
  Permutation (insert_sorted v l) (v :: l).
Proof.
  induction l as [|w l IH]; simpl; [reflexivity|].
  destruct (Qle_bool v w); [reflexivity|].
  rewrite IH. apply perm_swap.
Qed.

Lemma np_sort_perm (l : list Q) : Permutation (np_sort l) l.
Proof.
  induction l as [|v l IH]; simpl; [reflexivity|].
  rewrite insert_sorted_perm. now constructor.
Qed.

Lemma np_sort_length (l : list Q) : length (np_sort l) = length l.
Proof. apply Permutation_length, np_sort_perm. Qed.

Lemma insert_sorted_sorted (v : Q) (l : list Q) :
  StronglySorted Qle l -> StronglySorted Qle (insert_sorted v l).
Proof.
  induction 1 as [|w l Hs IH Hall]; simpl.
  - repeat constructor.
  - destruct (Qle_bool v w) eqn:E.
    + apply Qle_bool_iff in E. constructor; [now constructor|].
      constructor; [exact E|].
      eapply List.Forall_impl; [|exact Hall].
      intros x Hx. eapply Qle_trans; eauto.
    + apply Qle_bool_false_lt in E. constructor; [exact IH|].
      rewrite List.Forall_forall. intros x Hx.
      apply (Permutation_in _ (insert_sorted_perm v l)) in Hx.
      destruct Hx as [<-|Hx]; [now apply Qlt_le_weak|].
      rewrite List.Forall_forall in Hall. now apply Hall.
Qed.

Lemma np_sort_sorted (l : list Q) : StronglySorted Qle (np_sort l).
Proof.
  induction l as [|v l IH]; simpl; [constructor|].
  now apply insert_sorted_sorted.
Qed.

Lemma Qmin_list_spec (l : list Q) (v : Q) :
  In (Qmin_list v l) (v :: l)
  /\ forall x, In x (v :: l) -> (Qmin_list v l <= x)%Q.
Proof.
  revert v. induction l as [|w l IH]; intros v; unfold Qmin_list; simpl.
  - split; [now left|]. intros x [<-|[]]. apply Qle_refl.
  - fold (Qmin_list (if Qlt_bool w v then w else v) l).
    destruct (IH (if Qlt_bool w v then w else v)) as [Hin Hle].
    assert (Hv : ((if Qlt_bool w v then w else v) <= v)%Q).
    { destruct (Qlt_bool w v) eqn:E; [|apply Qle_refl].
      apply Qlt_bool_iff in E. now apply Qlt_le_weak. }
    assert (Hw : ((if Qlt_bool w v then w else v) <= w)%Q).
    { destruct (Qlt_bool w v) eqn:E; [apply Qle_refl|].
      now apply Qlt_bool_false_iff in E. }
    split.
    + destruct Hin as [Hin|Hin].
      * rewrite <- Hin. destruct (Qlt_bool w v); [right; now left|now left].
      * right. now right.
    + intros x [<-|[<-|Hx]].
      * eapply Qle_trans; [|exact Hv]. apply Hle. now left.
      * eapply Qle_trans; [|exact Hw]. apply Hle. now left.
      * apply Hle. now right.
Qed.

Lemma Qmax_list_spec (l : list Q) (v : Q) :
  In (Qmax_list v l) (v :: l)
  /\ forall x, In x (v :: l) -> (x <= Qmax_list v l)%Q.
Proof.
  revert v. induction l as [|w l IH]; intros v; unfold Qmax_list; simpl.
  - split; [now left|]. intros x [<-|[]]. apply Qle_refl.
  - fold (Qmax_list (if Qlt_bool v w then w else v) l).
    destruct (IH (if Qlt_bool v w then w else v)) as [Hin Hle].
    assert (Hv : (v <= (if Qlt_bool v w then w else v))%Q).
    { destruct (Qlt_bool v w) eqn:E; [|apply Qle_refl].
      apply Qlt_bool_iff in E. now apply Qlt_le_weak. }
    assert (Hw : (w <= (if Qlt_bool v w then w else v))%Q).
    { destruct (Qlt_bool v w) eqn:E; [apply Qle_refl|].
      now apply Qlt_bool_false_iff in E. }
    split.
    + destruct Hin as [Hin|Hin].
      * rewrite <- Hin. destruct (Qlt_bool v w); [right; now left|now left].
      * right. now right.
    + intros x [<-|[<-|Hx]].
      * eapply Qle_trans; [exact Hv|]. apply Hle. now left.
      * eapply Qle_trans; [exact Hw|]. apply Hle. now left.
      * apply Hle. now right.
Qed.


(** ** The reservation *)

Lemma py_int_floor (q : Q) : (0 <= q)%Q -> py_int q = Qfloor q.
Proof.
  intros Hq. unfold py_int, Qfloor. destruct q as [a b]; simpl.
  unfold Qle in Hq; simpl in Hq.
  apply Z.quot_div_nonneg; lia.
Qed.

Lemma round_half_even_bounds (x : Q) (K1 K2 : Z) :
  (inject_Z K1 <= x)%Q -> (x <= inject_Z K2)%Q ->
  (K1 <= round_half_even x <= K2)%Z.
Proof.
  intros H1 H2. unfold round_half_even.
  pose proof (Qfloor_le x) as Hf.
  assert (Hlo : (K1 <= Qfloor x)%Z).
  { rewrite <- (Qfloor_Z K1). now apply Qfloor_resp_le. }
  assert (Hhi : (Qfloor x <= K2)%Z).
  { rewrite <- (Qfloor_Z K2). now apply Qfloor_resp_le. }
  destruct (Qlt_bool (2 * (x - inject_Z (Qfloor x))) 1) eqn:E1; [lia|].
  apply Qlt_bool_false_iff in E1.
  assert (Hlt : (Qfloor x < K2)%Z).
  { rewrite Zlt_Qlt. lra. }
  destruct (Qlt_bool 1 (2 * (x - inject_Z (Qfloor x)))); [lia|].
  destruct (Z.even (Qfloor x)); lia.
Qed.

Lemma Qlog2_small (a : Q) :
  (a < inject_Z (2 ^ 53))%Q -> (Qlog2 a <= 52)%Z.
Proof.
  intros Ha. unfold Qlog2. destruct (Qle_bool 1 a) eqn:E.
  - apply Qle_bool_iff in E.
    assert (H1 : (1 <= Qfloor a)%Z).
    { change 1%Z with (Qfloor 1). now apply Qfloor_resp_le. }
    assert (H2 : (Qfloor a < 2 ^ 53)%Z).
    { rewrite Zlt_Qlt. pose proof (Qfloor_le a). lra. }
    apply Z.log2_lt_pow2 in H2; lia.
  - pose proof (Z.log2_up_nonneg (Qceiling (/ a))). lia.
Qed.

Lemma pow2_nonpos (e : Z) :
  (e <= 0)%Z -> (2 ^ e == / inject_Z (2 ^ (- e)))%Q.
Proof.
  intros He. rewrite <- (Z.opp_involutive e) at 1.
  rewrite Qpower_opp. apply Qinv_comp.
  rewrite Zpower_Qpower by lia. reflexivity.
Qed.

Lemma b64_round_between (q : Q) (K1 K2 : Z) :
  (0 <= K1)%Z -> (K2 < 2 ^ 53)%Z ->
  (inject_Z K1 <= q)%Q -> (q <= inject_Z K2)%Q ->
  exists p, b64_round q = Some p /\ (inject_Z K1 <= p)%Q /\ (p <= inject_Z K2)%Q.
Proof.
  intros HK1 HK2 H1 H2.
  assert (H0 : (0 <= q)%Q).
  { apply Qle_trans with (inject_Z K1); [|exact H1].
    change 0%Q with (inject_Z 0). now rewrite <- Zle_Qle. }
  unfold b64_round. destruct (Qeq_bool q 0) eqn:Ez.
  - apply Qeq_bool_iff in Ez. exists 0%Q. split; [reflexivity|]. split; lra.
  - assert (Habs : Qabs q = q).
    { destruct q as [a b]. unfold Qle in H0. simpl in H0.
      unfold Qabs. f_equal. apply Z.abs_eq. lia. }
    rewrite Habs.
    set (e := Z.max (-1074) (Qlog2 q - 52)).
    assert (He : (e <= 0)%Z).
    { assert (Hq : (q < inject_Z (2 ^ 53))%Q).
      { apply Qle_lt_trans with (inject_Z K2); [exact H2|]. now rewrite <- Zlt_Qlt. }
      pose proof (Qlog2_small q Hq). subst e. lia. }
    set (P := (2 ^ (- e))%Z).
    assert (HP : (0 < P)%Z) by (subst P; apply Z.pow_pos_nonneg; lia).
    assert (HPq : (0 < inject_Z P)%Q).
    { change 0%Q with (inject_Z 0). now rewrite <- Zlt_Qlt. }
    assert (Hpow : (2 ^ e == / inject_Z P)%Q) by (apply pow2_nonpos; exact He).
    assert (Hx : (q / 2 ^ e == q * inject_Z P)%Q).
    { rewrite Hpow. unfold Qdiv. rewrite Qinv_involutive. reflexivity. }
    destruct (round_half_even_bounds (q / 2 ^ e) (K1 * P) (K2 * P)) as [Hm1 Hm2].
    { rewrite Hx, inject_Z_mult. apply Qmult_le_compat_r; [exact H1|lra]. }
    { rewrite Hx, inject_Z_mult. apply Qmult_le_compat_r; [exact H2|lra]. }
    set (m := round_half_even (q / 2 ^ e)) in *.
    assert (Hr1 : (inject_Z K1 <= inject_Z m * 2 ^ e)%Q).
    { rewrite Hpow. apply Qle_shift_div_l; [exact HPq|].
      rewrite <- inject_Z_mult, <- Zle_Qle. exact Hm1. }
    assert (Hr2 : (inject_Z m * 2 ^ e <= inject_Z K2)%Q).
    { rewrite Hpow. apply Qle_shift_div_r; [exact HPq|].
      rewrite <- inject_Z_mult, <- Zle_Qle. exact Hm2. }
    assert (Hfin : Qle_bool (2 ^ 1024) (inject_Z m * 2 ^ e) = false).
    { apply Bool.not_true_iff_false. intros Hc. apply Qle_bool_iff in Hc.
      assert (Hbig : (inject_Z K2 < 2 ^ 1024)%Q).
      { rewrite <- (Zpower_Qpower 2 1024) by lia.
        rewrite <- Zlt_Qlt. apply Z.lt_trans with (2 ^ 53)%Z; [exact HK2|].
        apply Z.pow_lt_mono_r; lia. }
      lra. }
    rewrite Hfin.
    assert (Hs : Qlt_bool q 0 = false) by (now apply Qlt_bool_false_iff).
    rewrite Hs. eexists. split; [reflexivity|]. split; assumption.
Qed.

Lemma reserve_count_bounds (reserve : Q) (n : nat) :
  (0 <= reserve)%Q -> (reserve <= 1)%Q -> (Z.of_nat n < 2 ^ 53)%Z ->
  exists n1 : Z,
    reserve_count reserve n = Ok n1
    /\ (Qfloor (reserve * inject_Z (Z.of_nat n)) <= n1
        <= Qfloor (reserve * inject_Z (Z.of_nat n)) + 1)%Z
    /\ (0 <= n1 <= Z.of_nat n)%Z.
Proof.
  intros H0 H1 Hn.
  set (N := Z.of_nat n) in *.
  assert (HN : (0 <= inject_Z N)%Q).
  { change 0%Q with (inject_Z 0). rewrite <- Zle_Qle. subst N. lia. }
  destruct (b64_round_between (inject_Z N) N N) as (fn & Hfn & Hfn1 & Hfn2);
    [subst N; lia | exact Hn | apply Qle_refl | apply Qle_refl |].
  assert (Hfn' : (fn == inject_Z N)%Q) by (now apply Qle_antisym).
  set (F := Qfloor (reserve * inject_Z N)).
  assert (HF0 : (0 <= F)%Z).
  { subst F. change 0%Z with (Qfloor 0). apply Qfloor_resp_le.
    now apply Qmult_le_0_compat. }
  assert (Hqn : (reserve * inject_Z N <= inject_Z N)%Q).
  { rewrite <- (Qmult_1_l (inject_Z N)) at 2. now apply Qmult_le_compat_r. }
  assert (HFn : (F <= N)%Z).
  { subst F. apply Z.le_trans with (Qfloor (inject_Z N));
      [now apply Qfloor_resp_le | rewrite Qfloor_Z; lia]. }
  pose proof (Qfloor_le (reserve * inject_Z N)) as HFle. fold F in HFle.
  pose proof (Qlt_floor (reserve * inject_Z N)) as HFlt. fold F in HFlt.
  destruct (b64_round_between (reserve * fn) F (Z.min (F + 1) N))
    as (p & Hp & Hp1 & Hp2).
  - exact HF0.
  - lia.
  - rewrite Hfn'. exact HFle.
  - rewrite Hfn'. destruct (Z.min_spec (F + 1) N) as [[_ ->]|[_ ->]];
      [apply Qlt_le_weak; exact HFlt | exact Hqn].
  - assert (Hp0 : (0 <= p)%Q).
    { apply Qle_trans with (inject_Z F); [|exact Hp1].
      change 0%Q with (inject_Z 0). now rewrite <- Zle_Qle. }
    exists (Qfloor p). split.
    + unfold reserve_count, float_of_int, int_of_product.
      fold N. rewrite Hfn. cbn [rbind]. rewrite Hp.
      now rewrite py_int_floor.
    + assert (Hlo : (F <= Qfloor p)%Z).
      { rewrite <- (Qfloor_Z F). now apply Qfloor_resp_le. }
      assert (Hhi : (Qfloor p <= Z.min (F + 1) N)%Z).
      { rewrite <- (Qfloor_Z (Z.min (F + 1) N)). now apply Qfloor_resp_le. }
      lia.
Qed.

Lemma reserve_count_zero (reserve : Q) (n : nat) :
  (reserve == 0)%Q -> (Z.of_nat n < 2 ^ 53)%Z ->
  reserve_count reserve n = Ok 0%Z.
Proof.
  intros Hr Hn.
  destruct (b64_round_between (inject_Z (Z.of_nat n)) (Z.of_nat n) (Z.of_nat n))
    as (fn & Hfn & _); [lia | exact Hn | apply Qle_refl | apply Qle_refl |].
  unfold reserve_count, float_of_int, int_of_product.
  rewrite Hfn. cbn [rbind]. unfold b64_round.
  assert (Hz : Qeq_bool (reserve * fn) 0 = true).
  { apply Qeq_bool_iff. rewrite Hr. apply Qmult_0_l. }
  rewrite Hz. reflexivity.
Qed.

Lemma index_rows_in_range {A} (data : list A) (idx : list nat) :
  List.Forall (fun i => (i < length data)%nat) idx ->
  exists rows, index_rows data idx = Ok rows
               /\ map Some rows = map (nth_error data) idx.
Proof.
  induction 1 as [|i idx Hi _ IH]; simpl.
  - now exists [].
  - destruct IH as (rows & -> & Hrows).
    destruct (nth_error data i) as [r|] eqn:E.
    + exists (r :: rows). simpl. now rewrite Hrows.
    + apply nth_error_None in E. lia.
Qed.

Lemma nth_error_seq_all {A} (data : list A) :
  map (nth_error data) (seq 0 (length data)) = map Some data.
Proof.
  induction data as [|r data IH]; simpl; [reflexivity|].
  rewrite <- seq_shift, map_map. simpl. f_equal.
  rewrite <- IH. now apply map_ext.
Qed.

Lemma map_Some_inj {A} (l1 l2 : list A) :
  map Some l1 = map Some l2 -> l1 = l2.
Proof.
  revert l2. induction l1 as [|a l1 IH]; intros [|b l2] H; simpl in H;
    try discriminate; [reflexivity|].
  injection H as -> H. f_equal. now apply IH.
Qed.

Lemma NoDup_app_disjoint {A} (l1 l2 : list A) :
  List.NoDup (l1 ++ l2) -> forall x, In x l1 -> ~ In x l2.
Proof.
  induction l1 as [|a l1 IH]; simpl; intros Hnd x Hin; [contradiction|].
  inversion Hnd as [|? ? Hnotin Hnd']; subst.
  destruct Hin as [<-|Hin].
  - intros Hin2. apply Hnotin. apply in_or_app. now right.
  - now apply IH.
Qed.

(** C6, as stated, fails on the size of the reserved subset: for the
    binary64 number nearest to 0.7 and ten rows the product, rounded to
    binary64, is 7, so seven rows are reserved and three are left, whereas
    floor(r * n) is 6. *)
Lemma C6_reserved_size_is_not_floor :
  let r := double_0_7 in
  (0 <= r)%Q /\ (r <= 1)%Q /\ is_binary64 r = true
  /\ Qfloor (r * 10) = 6%Z
  /\ reserve_count r 10 = Ok 7%Z
  /\ exists reserved training,
       reserve_split r (seq 0 10) ten_stars = Ok (reserved, training)
       /\ length reserved = 7%nat /\ length training = 3%nat.
Proof.
  cbv zeta. split; [unfold Qle; simpl; lia|]. split; [unfold Qle; simpl; lia|].
  split; [vm_compute; reflexivity|]. split; [vm_compute; reflexivity|].
  split; [vm_compute; reflexivity|].
  assert (H : exists p, reserve_split double_0_7 (seq 0 10) ten_stars = Ok p
                        /\ length (fst p) = 7%nat /\ length (snd p) = 3%nat).
  { eexists. split; [vm_compute; reflexivity|]. split; reflexivity. }
  destruct H as ([reserved training] & H1 & H2 & H3).
  exists reserved, training. auto.
Qed.

(** C6 (amended): for a reservation fraction between 0 and 1, fewer than
    2^53 rows and whatever permutation of the row indices is drawn, the two
    selections succeed; the number n1 of reserved rows is the binary64
    product reserve * n truncated, which is floor(reserve * n) or one more
    and never exceeds n; the reserved rows are those at the first n1 indices
    of the permutation, the training rows those at the remaining indices; no
    index is in both, the sizes add up to n, and together the two subsets
    hold exactly the rows of the input.  In the stage itself a fraction equal
    to 0 skips the split: all rows are training rows and nothing is
    written. *)
Theorem C6_reserve_split_is_partition
    (reserve : Q) (perm : list nat) (data : Catalog) :
  (0 <= reserve)%Q -> (reserve <= 1)%Q ->
  (Z.of_nat (length data) < 2 ^ 53)%Z ->
  Permutation perm (seq 0 (length data)) ->
  let floor_rn := Qfloor (reserve * inject_Z (Z.of_nat (length data))) in
  exists (n1 : nat) (reserved training : Catalog),
    reserve_count reserve (length data) = Ok (Z.of_nat n1)
    /\ (floor_rn <= Z.of_nat n1 <= floor_rn + 1)%Z
    /\ (n1 <= length data)%nat
    /\ reserve_split reserve perm data = Ok (reserved, training)
    /\ index_rows data (firstn n1 perm) = Ok reserved
    /\ index_rows data (skipn n1 perm) = Ok training
    /\ (forall i, In i (firstn n1 perm) -> ~ In i (skipn n1 perm))
    /\ length reserved = n1
    /\ (length reserved + length training = length data)%nat
    /\ Permutation (reserved ++ training) data
    /\ forall env wdir root name w,
         permutation env (length data) = perm ->
         can_create env (os_path_join wdir (root ++ "_reserve.fits")) = true ->
         if truthyQ reserve then
           reserve_cut env wdir root reserve data name w
           = (Ok (training,
                  py_replace name "psfcat" ("psfcat_reserve_" ++ fmt_f 2 reserve)),
              mkWorld (<[os_path_join wdir (root ++ "_reserve.fits")
                         := ReserveTable (map reserve_cols reserved)]> (files w))
                      (flag w) (calls w))
         else
           reserve_cut env wdir root reserve data name w = (Ok (data, name), w)
           /\ reserved = [].
Proof.
  intros H0 H1 Hsmall Hperm floor_rn.
  destruct (reserve_count_bounds reserve (length data) H0 H1 Hsmall)
    as (z & Hcount & Hfloor & Hz).
  fold floor_rn in Hfloor.
  set (n1 := Z.to_nat z).
  assert (Hz1 : Z.of_nat n1 = z) by (subst n1; lia).
  assert (Hrange : List.Forall (fun i => (i < length data)%nat) perm).
  { rewrite List.Forall_forall. intros i Hi.
    apply (Permutation_in _ Hperm) in Hi. apply in_seq in Hi. lia. }
  assert (Hlen : length perm = length data)
    by (rewrite (Permutation_length Hperm); apply length_seq).
  assert (Hn1 : (n1 <= length perm)%nat) by (subst n1; lia).
  assert (Hf : List.Forall (fun i => (i < length data)%nat) (firstn n1 perm)).
  { rewrite List.Forall_forall in *. intros i Hi. apply Hrange.
    rewrite <- (firstn_skipn n1 perm). apply in_or_app. now left. }
  assert (Hs : List.Forall (fun i => (i < length data)%nat) (skipn n1 perm)).
  { rewrite List.Forall_forall in *. intros i Hi. apply Hrange.
    rewrite <- (firstn_skipn n1 perm). apply in_or_app. now right. }
  destruct (index_rows_in_range data _ Hf) as (reserved & Hres & Hres').
  destruct (index_rows_in_range data _ Hs) as (training & Htr & Htr').
  assert (Hsplit : reserve_split reserve perm data = Ok (reserved, training)).
  { unfold reserve_split. rewrite Hcount. cbn [rbind].
    unfold slice_to, slice_from.
    destruct (Z.leb_spec 0 z); [|lia].
    fold n1. rewrite Hres. cbn [rbind]. rewrite Htr. reflexivity. }
  assert (Hlr : length reserved = n1).
  { rewrite <- (length_map Some reserved), Hres', length_map.
    apply firstn_length_le, Hn1. }
  assert (Hlt : length training = (length data - n1)%nat).
  { rewrite <- (length_map Some training), Htr', length_map, length_skipn. lia. }
  assert (Hall : Permutation (reserved ++ training) data).
  { assert (Hm : map Some (reserved ++ training) = map (nth_error data) perm).
    { rewrite map_app, Hres', Htr', <- map_app. now rewrite firstn_skipn. }
    assert (Hp : Permutation (map Some (reserved ++ training)) (map Some data)).
    { rewrite Hm, <- nth_error_seq_all. now apply Permutation_map. }
    apply Permutation_map_inv in Hp. destruct Hp as (l3 & Heq & Hp).
    apply map_Some_inj in Heq. subst l3. now symmetry. }
  exists n1, reserved, training.
  split; [now rewrite Hz1|]. split; [now rewrite Hz1|]. split; [lia|].
  repeat split; try assumption.
  - apply NoDup_app_disjoint. rewrite firstn_skipn.
    apply (Permutation_NoDup (Permutation_sym Hperm)), seq_NoDup.
  - lia.
  - intros env wdir root name w Henv Hdir. unfold reserve_cut.
    destruct (truthyQ reserve) eqn:Et.
    + rewrite Henv. unfold bind, lift, write_table, ret.
      rewrite Hsplit, Hdir. reflexivity.
    + split; [reflexivity|].
      unfold truthyQ in Et. apply negb_false_iff, Qeq_bool_iff in Et.
      rewrite (reserve_count_zero reserve (length data) Et Hsmall) in Hcount.
      injection Hcount as Hcount.
      assert (Hz0 : n1 = 0%nat) by (subst n1; lia).
      rewrite Hz0 in Hlr. now destruct reserved.
Qed.

Lemma C6_reserve_split_is_partition_witness :
  exists reserved training : Catalog,
    reserve_split (3 # 8) [2; 0; 4; 1; 3]%nat five_stars = Ok (reserved, training)
    /\ length reserved = 1%nat
    /\ (length reserved + length training = 5)%nat
    /\ Permutation (reserved ++ training) five_stars.
Proof.
  destruct (C6_reserve_split_is_partition (3 # 8) [2; 0; 4; 1; 3]%nat five_stars)
    as (n1 & reserved & training & H0 & _ & _ & H1 & _ & _ & _ & H2 & H3 & H4 & _).
  - unfold Qle; simpl; lia.
  - unfold Qle; simpl; lia.
  - vm_compute. reflexivity.
  - simpl.
    apply (Permutation_cons_app [0; 1]%nat [3; 4]%nat 2%nat). simpl.
    apply perm_skip.
    apply (Permutation_cons_app [1; 3]%nat []%nat 4%nat). reflexivity.
  - exists reserved, training. repeat split; try assumption.
    assert (Hn : Z.of_nat n1 = 1%Z).
    { assert (Hc : reserve_count (3 # 8) (length five_stars) = Ok 1%Z)
        by (vm_compute; reflexivity).
      rewrite Hc in H0. now injection H0. }
    lia.
Defined.

(** ** The quality flag through the passes of [main] *)

Lemma keeps_flag_ret {A} (a : A) : keeps_flag (ret a).
Proof. intros w. reflexivity. Qed.

Lemma keeps_flag_raise {A} (e : exn) : keeps_flag (@raise A e).
Proof. intros w. reflexivity. Qed.

Lemma keeps_flag_lift {A} (r : result A) : keeps_flag (lift r).
Proof. intros w. reflexivity. Qed.

Lemma keeps_flag_call (c : Step) : keeps_flag (call c).
Proof. intros w. reflexivity. Qed.

Lemma keeps_flag_write (env : Env) (name : string) (t : Table) :
  keeps_flag (write_table env name t).
Proof. intros w. unfold write_table. destruct (can_create env name); reflexivity. Qed.

Lemma keeps_flag_read (name : string) : keeps_flag (read_catalog name).
Proof.
  intros w. unfold read_catalog.
  destruct (files w !! name) as [[?|?]|]; reflexivity.
Qed.

Lemma keeps_flag_bind {A B} (m : M A) (k : A -> M B) :
  keeps_flag m -> (forall a, keeps_flag (k a)) -> keeps_flag (bind m k).
Proof.
  intros Hm Hk w. unfold bind. specialize (Hm w).
  destruct (m w) as [[a|e] w']; simpl in *.
  - now rewrite Hk.
  - exact Hm.
Qed.

Create HintDb flagdb.

#[local] Hint Resolve keeps_flag_ret keeps_flag_raise keeps_flag_lift
  keeps_flag_call keeps_flag_write keeps_flag_read : flagdb.

Lemma keeps_flag_reserve_cut env wdir root reserve data name :
  keeps_flag (reserve_cut env wdir root reserve data name).
Proof.
  unfold reserve_cut. destruct (truthyQ reserve); auto with flagdb.
  apply keeps_flag_bind; auto with flagdb.
  intros [rd d']. apply keeps_flag_bind; auto with flagdb.
Qed.

(** The refinement itself never touches the flag: only [main] does. *)
Lemma keeps_flag_remove_bad_stars env wdir root ccdnum cat_file tbdata
    mag_cut nbright_stars max_mag use_tapebumps tapebump_extra reserve fwhm :
  keeps_flag (remove_bad_stars env wdir root ccdnum cat_file tbdata mag_cut
                nbright_stars max_mag use_tapebumps tapebump_extra reserve fwhm).
Proof.
  unfold remove_bad_stars.
  repeat (first [ apply keeps_flag_bind
                | apply keeps_flag_reserve_cut
                | progress auto with flagdb
                | intros [? ?]
                | intros ? ]).
Qed.

Lemma testbit_lor_few (f : Z) : Z.testbit (Z.lor f TOO_FEW_STARS_FLAG) 1 = true.
Proof. rewrite Z.lor_spec. apply orb_true_r. Qed.

Lemma testbit_lor_many (f : Z) : Z.testbit (Z.lor f TOO_MANY_STARS_FLAG) 2 = true.
Proof. rewrite Z.lor_spec. apply orb_true_r. Qed.

Lemma testbit_lor_few_2 (f : Z) :
  Z.testbit (Z.lor f TOO_FEW_STARS_FLAG) 2 = Z.testbit f 2.
Proof. rewrite Z.lor_spec. apply orb_false_r. Qed.

Lemma testbit_lor_many_1 (f : Z) :
  Z.testbit (Z.lor f TOO_MANY_STARS_FLAG) 1 = Z.testbit f 1.
Proof. rewrite Z.lor_spec. apply orb_false_r. Qed.

(** C5, as stated, fails after the refinement: thirty clean stars away from
    the tape bump all survive, thirty is more than half of the thirty input
    rows, and the "too many stars" bit (value 4) of the final flag is not
    set. *)
Lemma C5_many_survivors_not_flagged :
  let w := main_unit no_fit_env tapebumps_only bumps_of_unit_1
                     "w" "r" 1 "w/r_psfcat.fits" 4
                     {[ "w/r_psfcat.fits"%string := LDAC thirty_stars ]} in
  files w !! "w/r_psfcat_tb.fits"%string = Some (LDAC thirty_stars)
  /\ length thirty_stars = 30%nat
  /\ (MANY_STARS_FRAC * 30 < 30)%Q
  /\ Z.testbit (flag w) 2 = false.
Proof.
  vm_compute. repeat split; reflexivity.
Qed.

(** C5 (amended): after the pass over the provisional star-finding result,
    when at least one star is found and the catalog of the stars can be
    written, the "too few stars" bit (value 2) is set when the number of stars
    is below 20 and the "too many stars" bit (value 4) when it exceeds 0.5
    times the number of rows, and the pass goes on with the new catalog.
    After the refinement only the "too few stars" check is repeated, on the
    number of surviving rows: the "too many stars" bit is left as it was; the
    pass goes on with the refined catalog when more than one row survives,
    and raises the "no stars" anomaly when at most one does. *)
Theorem C5_star_count_flags :
  (forall env args wdir root cat_file w star_flag cat,
     truthyZ (use_findstars args) = true ->
     findstars_out env = Some star_flag ->
     files w !! cat_file = Some (LDAC cat) ->
     length cat = length star_flag ->
     can_create env (py_replace cat_file "psfcat" "psfcat_findstars") = true ->
     let nstars := count_nonzero (map (fun f => (f =? 1)%Z) star_flag) in
     let ntot := Z.of_nat (length star_flag) in
     nstars <> 0%Z ->
     exists cat_file' w',
       findstars_pass env args wdir root cat_file w = (Ok cat_file', w')
       /\ flag w'
          = Z.lor (Z.lor (flag w)
                         (if (nstars <? FEW_STARS)%Z then TOO_FEW_STARS_FLAG else 0))
                  (if Qlt_bool (MANY_STARS_FRAC * inject_Z ntot) (inject_Z nstars)
                   then TOO_MANY_STARS_FLAG else 0)
       /\ ((nstars < FEW_STARS)%Z -> Z.testbit (flag w') 1 = true)
       /\ ((MANY_STARS_FRAC * inject_Z ntot < inject_Z nstars)%Q ->
           Z.testbit (flag w') 2 = true))
  /\ (forall env args tbfile wdir root ccdnum cat_file fwhm w tbdata name n w1,
        needs_refinement args = true ->
        main_tbdata args tbfile = Some tbdata ->
        remove_bad_stars env wdir root ccdnum cat_file tbdata
          (mag_cut args) (nbright_stars args) (max_mag args)
          (use_tapebumps args) (tapebump_extra args) (reserve args) fwhm w
        = (Ok (name, n), w1) ->
        let out := refinement_pass env args tbfile wdir root ccdnum cat_file fwhm w in
        flag (snd out)
        = Z.lor (flag w) (if (n <? FEW_STARS)%Z then TOO_FEW_STARS_FLAG else 0)
        /\ ((n < FEW_STARS)%Z -> Z.testbit (flag (snd out)) 1 = true)
        /\ Z.testbit (flag (snd out)) 2 = Z.testbit (flag w) 2
        /\ ((1 < n)%Z -> fst out = Ok name)
        /\ ((n <= 1)%Z -> fst out = Raise NoStarsException)).
Proof.
  split.
  - intros env args wdir root cat_file w star_flag cat Hfs Hout Hcat Hlen Hdir
           nstars ntot Hn.
    assert (Hmask : exists data,
               index_mask cat (map (fun f => (f =? 1)%Z) star_flag) = Ok data).
    { clear - Hlen. revert star_flag Hlen.
      induction cat as [|r cat IH]; intros [|f fl] Hlen; simpl in Hlen;
        try discriminate.
      - now exists [].
      - destruct (IH fl) as [d Hd]; [lia|]. simpl. rewrite Hd. eauto. }
    destruct Hmask as [data Hdata].
    unfold findstars_pass. rewrite Hfs.
    unfold run_findstars. rewrite Hout, length_map. fold nstars. fold ntot.
    destruct (Z.eqb_spec nstars 0) as [|_]; [contradiction|].
    unfold bind, call, read_catalog, lift, write_table, ret, when_, or_flag.
    cbn [files flag calls]. rewrite Hcat, Hdata, Hdir.
    destruct (nstars <? FEW_STARS)%Z eqn:Efew;
      destruct (Qlt_bool (MANY_STARS_FRAC * inject_Z ntot) (inject_Z nstars))
        eqn:Emany;
      do 2 eexists; (split; [reflexivity|]); cbn [flag];
      rewrite ?Z.lor_0_r; (split; [reflexivity|]); split; intros H;
      rewrite ?testbit_lor_many, ?testbit_lor_many_1, ?testbit_lor_few;
      try reflexivity;
      try (apply Z.ltb_lt in H; congruence);
      try (apply Qlt_bool_iff in H; congruence).
  - intros env args tbfile wdir root ccdnum cat_file fwhm w tbdata name n w1
           Hneed Htb Hrbs out.
    pose proof (keeps_flag_remove_bad_stars env wdir root ccdnum cat_file tbdata
                  (mag_cut args) (nbright_stars args) (max_mag args)
                  (use_tapebumps args) (tapebump_extra args) (reserve args) fwhm w)
      as Hkeep.
    rewrite Hrbs in Hkeep. simpl in Hkeep.
    assert (Hrun :
      out = (if (n <=? 1)%Z then Raise NoStarsException else Ok name,
             if (n <? FEW_STARS)%Z
             then mkWorld (files w1) (Z.lor (flag w1) TOO_FEW_STARS_FLAG) (calls w1)
             else w1)).
    { subst out. unfold refinement_pass. rewrite Hneed, Htb.
      unfold bind. rewrite Hrbs. unfold when_, or_flag, ret, raise.
      destruct (n <? FEW_STARS)%Z; destruct (n <=? 1)%Z; reflexivity. }
    rewrite Hrun. clear Hrun.
    destruct (n <? FEW_STARS)%Z eqn:Efew; destruct (n <=? 1)%Z eqn:E1;
      cbn [fst snd flag]; rewrite Hkeep, ?Z.lor_0_r;
      (split; [reflexivity|]); (split; [|split; [|split]]); intros;
      rewrite ?testbit_lor_few, ?testbit_lor_few_2; try reflexivity;
      try (apply Z.ltb_ge in Efew; lia); try (apply Z.leb_le in E1; lia);
      try (apply Z.leb_gt in E1; lia).
Qed.

Lemma C5_star_count_flags_witness :
  (exists cat_file' w',
     findstars_pass two_of_three_env with_findstars "w" "r" "w/r_psfcat.fits"
                    (mkWorld (psfcat_only three_rows) 0 [])
     = (Ok cat_file', w')
     /\ Z.testbit (flag w') 1 = true
     /\ Z.testbit (flag w') 2 = true)
  /\ (let out := refinement_pass no_fit_env tapebumps_only bumps_of_unit_1
                   "w" "r" 1 "w/r_psfcat.fits" 4
                   (mkWorld (psfcat_only five_stars) 0 []) in
      Z.testbit (flag (snd out)) 1 = true
      /\ Z.testbit (flag (snd out)) 2 = false
      /\ fst out = Ok "w/r_psfcat_tb.fits"%string)
  /\ fst (refinement_pass no_fit_env tapebumps_only bumps_of_unit_1
             "w" "r" 1 "w/r_psfcat.fits" 4
             (mkWorld (psfcat_only [star 1 0 100 100 15 2]) 0 []))
     = Raise NoStarsException.
Proof.
  destruct C5_star_count_flags as [Hfind Hrefine]. split; [|split].
  - destruct (Hfind two_of_three_env with_findstars "w"%string "r"%string
                    "w/r_psfcat.fits"%string
                    (mkWorld (psfcat_only three_rows) 0 [])
                    [1; 1; 0]%Z three_rows)
      as (c & w' & Hrun & _ & Hfew & Hmany);
      [reflexivity | reflexivity | reflexivity | reflexivity | reflexivity
      | vm_compute; discriminate |].
    exists c, w'. split; [exact Hrun|]. split.
    + apply Hfew. vm_compute. reflexivity.
    + apply Hmany. vm_compute. reflexivity.
  - destruct (Hrefine no_fit_env tapebumps_only bumps_of_unit_1
                "w"%string "r"%string 1%Z "w/r_psfcat.fits"%string 4%Q
                (mkWorld (psfcat_only five_stars) 0 [])
                bumps_of_unit_1 "w/r_psfcat_tb.fits"%string 5%Z
                (snd (remove_bad_stars no_fit_env "w" "r" 1 "w/r_psfcat.fits"
                        bumps_of_unit_1 (-1) 10 (-1) 1 2 0 4
                        (mkWorld (psfcat_only five_stars) 0 []))))
      as (_ & Hfew & Hmany & Hgo & _);
      [reflexivity | reflexivity | vm_compute; reflexivity |].
    split; [apply Hfew; reflexivity|]. split; [exact Hmany|].
    apply Hgo. reflexivity.
  - destruct (Hrefine no_fit_env tapebumps_only bumps_of_unit_1
                "w"%string "r"%string 1%Z "w/r_psfcat.fits"%string 4%Q
                (mkWorld (psfcat_only [star 1 0 100 100 15 2]) 0 [])
                bumps_of_unit_1 "w/r_psfcat_tb.fits"%string 1%Z
                (snd (remove_bad_stars no_fit_env "w" "r" 1 "w/r_psfcat.fits"
                        bumps_of_unit_1 (-1) 10 (-1) 1 2 0 4
                        (mkWorld (psfcat_only [star 1 0 100 100 15 2]) 0 []))))
      as (_ & _ & _ & _ & Hstop);
      [reflexivity | reflexivity | vm_compute; reflexivity |].
    apply Hstop. reflexivity.
Defined.

(** ** No row passes the quality filter *)

Lemma slice_to_nil {A} (stop : Z) : slice_to stop (@nil A) = [].
Proof. unfold slice_to. destruct (0 <=? stop)%Z; apply firstn_nil. Qed.

Lemma slice_from_nil {A} (start : Z) : slice_from start (@nil A) = [].
Proof. unfold slice_from. destruct (0 <=? start)%Z; apply skipn_nil. Qed.

Lemma Qlt_bool_0_nonpos (q : Q) : (q <= 0)%Q -> Qlt_bool 0 q = false.
Proof. intros H. now apply Qlt_bool_false_iff. Qed.

Lemma bright_cut_off (mag_cut : Q) (nbright_stars : Z) (data : Catalog)
    (name : string) :
  (mag_cut <= 0)%Q -> bright_cut mag_cut nbright_stars data name = Ok (data, name).
Proof. intros H. unfold bright_cut. now rewrite (Qlt_bool_0_nonpos _ H). Qed.

Lemma faint_cut_nil (max_mag : Q) (name : string) :
  faint_cut max_mag [] name
  = Ok ([], if Qlt_bool 0 max_mag
            then py_replace name "psfcat" ("psfcat_maxmag_" ++ fmt_f 1 max_mag)
            else name).
Proof. unfold faint_cut. destruct (Qlt_bool 0 max_mag); reflexivity. Qed.

Lemma tapebump_cut_nil (use : Z) (tbdata : gmap Z (list Region)) (ccdnum : Z)
    (tapebump_extra fwhm : Q) (name : string) (tbd : list Region) :
  truthyZ use = true -> tbdata !! ccdnum = Some tbd -> tbd <> [] ->
  tapebump_cut use tbdata ccdnum tapebump_extra fwhm [] name
  = Ok ([], py_replace name "psfcat" "psfcat_tb").
Proof.
  intros Huse Htbd Hne. destruct tbd as [|tb tbs]; [congruence|].
  unfold tapebump_cut. rewrite Huse, Htbd. cbn [rbind].
  rewrite exclude_tapebumps_filter. reflexivity.
Qed.

Lemma reserve_count_no_rows (reserve : Q) : reserve_count reserve 0 = Ok 0%Z.
Proof.
  unfold reserve_count.
  change (float_of_int (Z.of_nat 0)) with (@Ok Q 0%Q). cbn [rbind].
  unfold int_of_product, b64_round.
  assert (Hz : Qeq_bool (reserve * 0) 0 = true).
  { apply Qeq_bool_iff. apply Qmult_0_r. }
  rewrite Hz. reflexivity.
Qed.

Lemma reserve_cut_nil env wdir root reserve name (w : World) :
  permutation env 0 = [] ->
  (truthyQ reserve = true ->
   can_create env (os_path_join wdir (root ++ "_reserve.fits")) = true) ->
  reserve_cut env wdir root reserve [] name w
  = (Ok ([], if truthyQ reserve
             then py_replace name "psfcat" ("psfcat_reserve_" ++ fmt_f 2 reserve)
             else name),
     if truthyQ reserve
     then mkWorld (<[os_path_join wdir (root ++ "_reserve.fits")
                     := ReserveTable []]> (files w)) (flag w) (calls w)
     else w).
Proof.
  intros Hperm Hdir. unfold reserve_cut. destruct (truthyQ reserve); [|reflexivity].
  cbn [length]. rewrite Hperm. unfold reserve_split. cbn [length].
  rewrite reserve_count_no_rows. cbn [rbind].
  rewrite slice_to_nil, slice_from_nil.
  unfold bind, lift, write_table, ret. cbn [index_rows rbind map].
  rewrite (Hdir eq_refl). reflexivity.
Qed.

(** With the bright-end cut off and no clean row, the remaining stages run on
    the empty catalog and the empty catalog is written under the new name. *)
Lemma remove_bad_stars_no_clean_rows env wdir root ccdnum cat_file tbdata
    mag_cut nbright_stars max_mag use_tapebumps tapebump_extra reserve fwhm
    (w : World) (data : Catalog) (tbd : list Region) :
  files w !! cat_file = Some (LDAC data) ->
  List.filter (fun r => (FLAGS r =? 0)%Z) data = [] ->
  (mag_cut <= 0)%Q ->
  truthyZ use_tapebumps = true ->
  tbdata !! ccdnum = Some tbd -> tbd <> [] ->
  permutation env 0 = [] ->
  os_path_join wdir (root ++ "_reserve.fits") <> cat_file ->
  (truthyQ reserve = true ->
   can_create env (os_path_join wdir (root ++ "_reserve.fits")) = true) ->
  can_create env (renamed mag_cut max_mag use_tapebumps reserve cat_file) = true ->
  remove_bad_stars env wdir root ccdnum cat_file tbdata mag_cut nbright_stars
    max_mag use_tapebumps tapebump_extra reserve fwhm w
  = (Ok (renamed mag_cut max_mag use_tapebumps reserve cat_file, 0%Z),
     mkWorld
       (<[renamed mag_cut max_mag use_tapebumps reserve cat_file := LDAC []]>
          (if truthyQ reserve
           then <[os_path_join wdir (root ++ "_reserve.fits")
                  := ReserveTable []]> (files w)
           else files w))
       (flag w)
       (calls w ++ [StepRemoveBadStars cat_file])).
Proof.
  intros Hcat Hq Hmag Huse Htbd Hne Hperm Hfile Hdir Hout.
  unfold renamed in Hout. rewrite (Qlt_bool_0_nonpos _ Hmag), Huse in Hout.
  unfold remove_bad_stars, renamed.
  rewrite (Qlt_bool_0_nonpos _ Hmag), Huse.
  unfold bind at 1. unfold call at 1. cbv beta iota.
  unfold bind at 1. unfold read_catalog at 1. cbn [files]. rewrite Hcat.
  cbv beta iota.
  unfold bind at 1. unfold lift at 1. rewrite index_mask_map, Hq.
  cbv beta iota.
  unfold bind at 1. unfold lift at 1. rewrite (bright_cut_off _ _ _ _ Hmag).
  cbv beta iota.
  unfold bind at 1. unfold lift at 1. rewrite faint_cut_nil.
  cbv beta iota.
  unfold bind at 1. unfold lift at 1.
  rewrite (tapebump_cut_nil _ _ _ _ _ _ tbd Huse Htbd Hne).
  cbv beta iota.
  unfold bind at 1. rewrite (reserve_cut_nil _ _ _ _ _ _ Hperm Hdir).
  cbv beta iota.
  unfold bind, read_catalog, write_table, ret.
  destruct (truthyQ reserve); cbn [files flag calls length].
  - rewrite lookup_insert_ne by exact Hfile. rewrite Hcat, Hout. reflexivity.
  - rewrite Hcat, Hout. reflexivity.
Qed.

(** C2, as stated, fails: the only row of the catalog has FLAGS = 4, so no
    row passes the quality filter; yet the tapebump stage runs and a new
    catalog artifact, with the stage's name and no row, is written. *)
Lemma C2_empty_catalog_is_still_written :
  let work := psfcat_only one_flagged_row in
  let w := main_unit no_fit_env tapebumps_only bumps_of_unit_1
                     "w" "r" 1 "w/r_psfcat.fits" 4 work in
  List.filter (fun r => (FLAGS r =? 0)%Z) one_flagged_row = []
  /\ work !! "w/r_psfcat_tb.fits"%string = None
  /\ files w !! "w/r_psfcat_tb.fits"%string = Some (LDAC []).
Proof. vm_compute. repeat split; reflexivity. Qed.

(** C2 (amended): if no row of the catalog handed to the refinement passes
    the quality filter, the bright-end cut is disabled and the files the
    stages name can be created, nothing is aborted at that point: the
    enabled stages run on the empty catalog, the empty catalog is written
    under the name the stages give it (and an empty reserve table when the
    reservation is on), and the count 0 is returned;
    [main] then sets the "too few stars" bit and raises the "no stars"
    anomaly, so that the "no stars" bit is set and no later step of the
    detector unit (statistics, PSF fitting) is started. *)
Theorem C2_no_clean_rows
    (env : Env) (args : Args) (tbfile : gmap Z (list Region))
    (wdir root : string) (ccdnum : Z) (cat_file0 cat_file : string) (fwhm : Q)
    (work : gmap string Table) (w1 : World) (data : Catalog)
    (tbd : list Region) :
  findstars_pass env args wdir root cat_file0 (mkWorld work 0 [])
  = (Ok cat_file, w1) ->
  files w1 !! cat_file = Some (LDAC data) ->
  List.filter (fun r => (FLAGS r =? 0)%Z) data = [] ->
  (mag_cut args <= 0)%Q ->
  truthyZ (use_tapebumps args) = true ->
  tbfile !! ccdnum = Some tbd -> tbd <> [] ->
  permutation env 0 = [] ->
  os_path_join wdir (root ++ "_reserve.fits") <> cat_file ->
  (truthyQ (reserve args) = true ->
   can_create env (os_path_join wdir (root ++ "_reserve.fits")) = true) ->
  can_create env (renamed (mag_cut args) (max_mag args) (use_tapebumps args)
                          (reserve args) cat_file) = true ->
  let w := main_unit env args tbfile wdir root ccdnum cat_file0 fwhm work in
  let name := renamed (mag_cut args) (max_mag args) (use_tapebumps args)
                      (reserve args) cat_file in
  files w
  = <[name := LDAC []]>
      (if truthyQ (reserve args)
       then <[os_path_join wdir (root ++ "_reserve.fits") := ReserveTable []]>
              (files w1)
       else files w1)
  /\ calls w = (calls w1 ++ [StepRemoveBadStars cat_file])%list
  /\ flag w = Z.lor (Z.lor (flag w1) TOO_FEW_STARS_FLAG) NO_STARS_FLAG
  /\ Z.testbit (flag w) 0 = true
  /\ Z.testbit (flag w) 1 = true.
Proof.
  intros Hfs Hcat Hq Hmag Huse Htbd Hne Hperm Hfile Hdir Hout w name.
  assert (Hw : w = mkWorld
                     (<[name := LDAC []]>
                        (if truthyQ (reserve args)
                         then <[os_path_join wdir (root ++ "_reserve.fits")
                                := ReserveTable []]> (files w1)
                         else files w1))
                     (Z.lor (Z.lor (flag w1) TOO_FEW_STARS_FLAG) NO_STARS_FLAG)
                     (calls w1 ++ [StepRemoveBadStars cat_file])).
  { subst w name. unfold main_unit, unit_body.
    unfold bind at 1. rewrite Hfs.
    unfold bind at 1. unfold refinement_pass.
    assert (Hneed : needs_refinement args = true).
    { unfold needs_refinement. rewrite Huse. now rewrite orb_true_r. }
    assert (Hmain : main_tbdata args tbfile = Some tbfile)
      by (unfold main_tbdata; now rewrite Huse).
    rewrite Hneed, Hmain. unfold bind at 1.
    rewrite (remove_bad_stars_no_clean_rows env wdir root ccdnum cat_file tbfile
               _ _ _ _ _ _ fwhm w1 data tbd Hcat Hq Hmag Huse Htbd Hne Hperm Hfile
               Hdir Hout).
    reflexivity. }
  rewrite Hw. cbn [files flag calls]. repeat split.
  - rewrite Z.lor_spec. apply orb_true_r.
  - rewrite Z.lor_spec, testbit_lor_few. reflexivity.
Qed.

Lemma C2_no_clean_rows_witness :
  let w := main_unit no_fit_env tapebumps_only bumps_of_unit_1
                     "w" "r" 1 "w/r_psfcat.fits" 4
                     (psfcat_only one_flagged_row) in
  files w = <["w/r_psfcat_tb.fits"%string := LDAC []]>
              (psfcat_only one_flagged_row)
  /\ calls w = [StepRemoveBadStars "w/r_psfcat.fits"]
  /\ flag w = 3%Z.
Proof.
  destruct (C2_no_clean_rows no_fit_env tapebumps_only bumps_of_unit_1
              "w" "r" 1 "w/r_psfcat.fits" "w/r_psfcat.fits" 4
              (psfcat_only one_flagged_row)
              (mkWorld (psfcat_only one_flagged_row) 0 [])
              one_flagged_row [one_bump])
    as (Hfiles & Hcalls & Hflag & _);
    [reflexivity | reflexivity | reflexivity | unfold Qle; simpl; lia
    | reflexivity | reflexivity | discriminate | reflexivity
    | vm_compute; discriminate | discriminate | reflexivity |].
  intros w. split; [exact Hfiles | split; [exact Hcalls | exact Hflag]].
Defined.

(** In a work directory called "psfcat" the replacement renames the directory
    part of the path as well: the empty catalog cannot be written, and the
    unit ends with the "error" bit alone. *)
Example no_clean_rows_in_renamed_directory :
  let w := main_unit psfcat_dir_env tapebumps_only bumps_of_unit_1
                     "psfcat" "r" 1 "psfcat/r_psfcat.fits" 4
                     {[ "psfcat/r_psfcat.fits"%string := LDAC one_flagged_row ]} in
  renamed (-1) (-1) 1 0 "psfcat/r_psfcat.fits" = "psfcat_tb/r_psfcat_tb.fits"%string
  /\ files w !! "psfcat_tb/r_psfcat_tb.fits"%string = None
  /\ flag w = ERROR_FLAG.
Proof. vm_compute. repeat split; reflexivity. Qed.

(** ** The matching of two catalogs *)

Lemma where_from_In (mask : list bool) (k i : nat) :
  In i (PlotFs.where_from k mask)
  <-> (k <= i)%nat /\ nth_error mask (i - k) = Some true.
Proof.
  revert k. induction mask as [|b mask IH]; intros k; simpl.
  - split; [contradiction|]. intros [_ H]. destruct (i - k)%nat; discriminate.
  - assert (Hstep : forall P : Prop,
               (P <-> (S k <= i)%nat /\ nth_error mask (i - S k) = Some true) ->
               (i <> k -> (P <-> (k <= i)%nat
                                 /\ nth_error (b :: mask) (i - k) = Some true))).
    { intros P HP Hik. rewrite HP.
      split; intros [Hle Hn].
      - split; [lia|]. replace (i - k)%nat with (S (i - S k)) by lia. exact Hn.
      - assert (k < i)%nat by lia. split; [lia|].
        replace (i - k)%nat with (S (i - S k)) in Hn by lia. exact Hn. }
    destruct (Nat.eq_dec i k) as [->|Hik].
    + rewrite Nat.sub_diag. simpl. destruct b; simpl.
      * split; [intros _; split; [lia|reflexivity] | intros _; now left].
      * rewrite IH. split; [intros [? _]; lia | intros [_ ?]; discriminate].
    + destruct b; simpl.
      * specialize (Hstep _ (IH (S k)) Hik).
        rewrite <- Hstep. split; [intros [?|?]; [congruence|assumption] | now right].
      * apply (Hstep _ (IH (S k)) Hik).
Qed.

Lemma near_iff (s c : PlotFs.Pos) :
  PlotFs.near s c = true
  <-> (Qabs (fst s - fst c) < 1 /\ Qabs (snd s - snd c) < 1)%Q.
Proof. unfold PlotFs.near. now rewrite andb_true_iff, !Qlt_bool_iff. Qed.

Lemma candidates_In (s : PlotFs.Pos) (cat : list PlotFs.Pos) (j : nat) :
  In j (candidates s cat)
  <-> exists c, nth_error cat j = Some c
                /\ (Qabs (fst s - fst c) < 1 /\ Qabs (snd s - snd c) < 1)%Q.
Proof.
  unfold candidates, PlotFs.np_where. rewrite where_from_In, Nat.sub_0_r.
  rewrite nth_error_map. split.
  - intros [_ H]. destruct (nth_error cat j) as [c|]; [|discriminate].
    exists c. split; [reflexivity|]. apply near_iff. simpl in H. congruence.
  - intros (c & -> & H). split; [lia|]. simpl. f_equal. now apply near_iff.
Qed.

(** The retained rows and their partners, index by index. *)
Lemma where_concat_single (m1 : list (list nat)) (k : nat) :
  Forall2 (fun i j => (k <= i)%nat /\ nth_error m1 (i - k) = Some [j])
          (PlotFs.where_from k (map (fun a => (length a =? 1)%nat) m1))
          (concat (List.filter (fun a => (length a =? 1)%nat) m1)).
Proof.
  revert k. induction m1 as [|a m1 IH]; intros k; simpl; [constructor|].
  assert (Htail :
    Forall2 (fun i j => (k <= i)%nat /\ nth_error (a :: m1) (i - k) = Some [j])
            (PlotFs.where_from (S k) (map (fun a => (length a =? 1)%nat) m1))
            (concat (List.filter (fun a => (length a =? 1)%nat) m1))).
  { eapply List.Forall2_impl; [|apply (IH (S k))].
    intros i j [Hle Hn]. split; [lia|].
    replace (i - k)%nat with (S (i - S k)) by lia. exact Hn. }
  destruct (length a =? 1)%nat eqn:E; [|exact Htail].
  apply Nat.eqb_eq in E.
  destruct a as [|j [|? ?]]; simpl in E; try discriminate.
  simpl. constructor; [|exact Htail].
  split; [lia|]. now rewrite Nat.sub_diag.
Qed.

(** C4, as stated, fails for a tolerance other than 1: the detection at
    (0, 0) has two candidates within 2 pixels, so the claim has it dropped for
    t = 2; the code, whose tolerance is the literal 1, sees one candidate and
    keeps the row. *)
Lemma C4_tolerance_is_fixed :
  PlotFs.match_catalogs [(0, 0)%Q] [(0, 0)%Q; (3 # 2, 0)%Q] = Ok ([0%nat], [0%nat])
  /\ length (candidates_tol 2 (0, 0)%Q [(0, 0)%Q; (3 # 2, 0)%Q]) = 2%nat.
Proof. split; reflexivity. Qed.

(** C4 (amended): with the tolerance fixed at 1 pixel, and provided at least
    one row of A has exactly one row of B within less than 1 pixel on both
    axes, the matching returns the retained indices of A and their partners in
    B: an index of A is retained if and only if its set of B-indices (those
    differing by less than 1 on both axes) has exactly one element; rows with
    no candidate or with several are dropped; and the k-th retained index of A
    is paired with the single candidate of that row. *)
Theorem C4_match_catalogs (sex cat : list PlotFs.Pos) :
  (exists s, In s sex /\ length (candidates s cat) = 1%nat) ->
  exists cat_m sex_m,
    PlotFs.match_catalogs sex cat = Ok (cat_m, sex_m)
    /\ (forall i, In i sex_m <->
                  exists s, nth_error sex i = Some s
                            /\ length (candidates s cat) = 1%nat)
    /\ Forall2 (fun i j => exists s, nth_error sex i = Some s
                                     /\ candidates s cat = [j])
               sex_m cat_m
    /\ (forall s j, In j (candidates s cat) <->
                    exists c, nth_error cat j = Some c
                              /\ (Qabs (fst s - fst c) < 1
                                  /\ Qabs (snd s - snd c) < 1)%Q).
Proof.
  intros (s0 & Hin0 & Hlen0).
  unfold PlotFs.match_catalogs. fold (candidates).
  change (map (fun s => PlotFs.np_where (map (PlotFs.near s) cat)) sex)
    with (map (fun s => candidates s cat) sex).
  set (m1 := map (fun s => candidates s cat) sex).
  assert (Hsingle : map (fun n => (n =? 1)%nat) (map (fun a => length a) m1)
                    = map (fun a : list nat => (length a =? 1)%nat) m1)
    by apply map_map.
  rewrite Hsingle, index_mask_map. cbn [rbind].
  assert (Hchosen : In (candidates s0 cat)
                       (List.filter (fun a => (length a =? 1)%nat) m1)).
  { apply filter_In. split.
    - subst m1. now apply (in_map (fun s => candidates s cat)).
    - now apply Nat.eqb_eq. }
  destruct (List.filter (fun a => (length a =? 1)%nat) m1) as [|a chosen] eqn:Ech;
    [contradiction|].
  cbn [PlotFs.np_concatenate rbind]. do 2 eexists. split; [reflexivity|].
  split; [|split].
  - intros i. unfold PlotFs.np_where. rewrite where_from_In, Nat.sub_0_r.
    subst m1. rewrite map_map, nth_error_map. split.
    + intros [_ H]. destruct (nth_error sex i) as [s|]; [|discriminate].
      exists s. split; [reflexivity|]. simpl in H. apply Nat.eqb_eq. congruence.
    + intros (s & -> & H). split; [lia|]. simpl. f_equal. now apply Nat.eqb_eq.
  - rewrite <- Ech. unfold PlotFs.np_where.
    eapply List.Forall2_impl; [|apply (where_concat_single m1 0)].
    intros i j [_ Hn]. rewrite Nat.sub_0_r in Hn. subst m1.
    rewrite nth_error_map in Hn.
    destruct (nth_error sex i) as [s|]; [|discriminate].
    exists s. split; [reflexivity|]. simpl in Hn. congruence.
  - intros s j. apply candidates_In.
Qed.

Lemma C4_match_catalogs_witness :
  exists cat_m sex_m,
    PlotFs.match_catalogs [(0, 0)%Q; (5, 5)%Q; (9, 9)%Q]
                          [(0, 0)%Q; (1 # 2, 0)%Q; (5, 11 # 2)%Q]
    = Ok (cat_m, sex_m)
    /\ Forall2 (fun i j =>
                  exists s, nth_error [(0, 0)%Q; (5, 5)%Q; (9, 9)%Q] i = Some s
                            /\ candidates s [(0, 0)%Q; (1 # 2, 0)%Q; (5, 11 # 2)%Q]
                               = [j])
               sex_m cat_m.
Proof.
  destruct (C4_match_catalogs [(0, 0)%Q; (5, 5)%Q; (9, 9)%Q]
                              [(0, 0)%Q; (1 # 2, 0)%Q; (5, 11 # 2)%Q])
    as (cat_m & sex_m & Hrun & _ & Hpairs & _).
  - exists (5, 5)%Q. split; [simpl; tauto | reflexivity].
  - exists cat_m, sex_m. split; assumption.
Defined.

(** The pairing is directional: two rows of A may have the same partner. *)
Example match_catalogs_shared_partner :
  PlotFs.match_catalogs [(0, 0)%Q; (1 # 2, 0)%Q] [(1 # 4, 0)%Q]
  = Ok ([0%nat; 0%nat], [0%nat; 1%nat]).
Proof. reflexivity. Qed.

(** When no row of A has exactly one candidate there is no result at all:
    [numpy.concatenate] is given an empty sequence. *)
Lemma match_catalogs_nothing_retained :
  PlotFs.match_catalogs [(0, 0)%Q] [(0, 0)%Q; (1 # 2, 0)%Q] = Raise ValueError
  /\ PlotFs.match_catalogs [(0, 0)%Q] [] = Raise ValueError
  /\ PlotFs.match_catalogs [] [(0, 0)%Q] = Raise ValueError.
Proof. repeat split; reflexivity. Qed.

(** ** Names of the output catalogs *)

#[local] Arguments String.append : simpl nomatch.

Lemma str_app_assoc (a b c : string) : ((a ++ b) ++ c = a ++ (b ++ c))%string.
Proof. induction a as [|x a IH]; simpl; [reflexivity|]. f_equal. exact IH. Qed.

Lemma str_length_app (a b : string) :
  String.length (a ++ b) = (String.length a + String.length b)%nat.
Proof. induction a as [|x a IH]; simpl; [reflexivity|]. f_equal. exact IH. Qed.

Lemma no_p_app (a b : string) : no_p (a ++ b) = no_p a && no_p b.
Proof.
  induction a as [|x a IH]; simpl; [reflexivity|].
  rewrite <- andb_assoc. f_equal. exact IH.
Qed.

Lemma prefix_empty (s : string) : String.prefix "" s = true.
Proof. now destruct s. Qed.

(** Whether [p] starts a string depends on the first [length p] characters
    only. *)
Lemma prefix_app_long (p x y : string) :
  (String.length p <= String.length x)%nat ->
  String.prefix p (x ++ y) = String.prefix p x.
Proof.
  revert x. induction p as [|a p IH]; intros x Hlen.
  - now rewrite !prefix_empty.
  - destruct x as [|b x]; simpl in Hlen; [lia|]. simpl.
    destruct (ascii_dec a b); [|reflexivity]. apply IH. lia.
Qed.

Lemma prefix_psfcat_other (c : ascii) (s : string) :
  Ascii.eqb c "p" = false -> String.prefix "psfcat" (String c s) = false.
Proof.
  intros Hc.
  change (String.prefix "psfcat" (String c s))
    with (match ascii_dec "p" c with
          | left _ => String.prefix "sfcat" s
          | right _ => false
          end).
  destruct (ascii_dec "p" c) as [<-|]; [|reflexivity].
  vm_compute in Hc. discriminate.
Qed.

Lemma occurs_no_p (tok post : string) :
  no_p tok = true -> occurs "psfcat" post = false ->
  occurs "psfcat" (tok ++ post) = false.
Proof.
  induction tok as [|c tok IH]; intros Htok Hpost; [exact Hpost|].
  simpl in Htok. apply andb_true_iff in Htok. destruct Htok as [Hc Htok].
  apply negb_true_iff in Hc.
  change (String.prefix "psfcat" (String c (tok ++ post))
          || occurs "psfcat" (tok ++ post) = false).
  rewrite (prefix_psfcat_other _ _ Hc). simpl. now apply IH.
Qed.

Lemma replace_no_occurrence (new s : string) :
  occurs "psfcat" s = false -> replace_aux "psfcat" new 0 s = s.
Proof.
  induction s as [|c s IH]; intros Hocc; [reflexivity|].
  change (String.prefix "psfcat" (String c s) || occurs "psfcat" s = false)
    in Hocc.
  apply orb_false_iff in Hocc. destruct Hocc as [Hpre Hocc].
  change (replace_aux "psfcat" new 0 (String c s))
    with (if String.prefix "psfcat" (String c s)
          then (new ++ replace_aux "psfcat" new 5 s)%string
          else String c (replace_aux "psfcat" new 0 s)).
  rewrite Hpre. now rewrite IH.
Qed.

(** One replacement on a name whose only "psfcat" sits between [pre] and
    [post]. *)
Lemma replace_at_stem (pre post new : string) :
  occurs "psfcat" (pre ++ "psfca") = false ->
  occurs "psfcat" post = false ->
  py_replace (pre ++ "psfcat" ++ post) "psfcat" new = (pre ++ new ++ post)%string.
Proof.
  unfold py_replace. induction pre as [|c pre IH]; intros Hpre Hpost.
  - change (replace_aux "psfcat" new 0 ("" ++ "psfcat" ++ post))
      with (if String.prefix "psfcat" ("psfcat" ++ post)
            then (new ++ replace_aux "psfcat" new 0 post)%string
            else String "p" (replace_aux "psfcat" new 0 ("sfcat" ++ post))).
    replace (String.prefix "psfcat" ("psfcat" ++ post)) with true
      by (symmetry; destruct post; reflexivity).
    now rewrite replace_no_occurrence.
  - change (String.prefix "psfcat" (String c (pre ++ "psfca"))
            || occurs "psfcat" (pre ++ "psfca") = false) in Hpre.
    apply orb_false_iff in Hpre. destruct Hpre as [Hhere Hrest].
    assert (Hnot : String.prefix "psfcat" (String c (pre ++ "psfcat" ++ post))
                   = false).
    { etransitivity; [|exact Hhere].
      change (String c (pre ++ "psfcat" ++ post))
        with (String c pre ++ ("psfca" ++ ("t" ++ post)))%string.
      rewrite <- str_app_assoc. apply prefix_app_long.
      pose proof (str_length_app pre "psfca") as Hlen.
      simpl in *. lia. }
    change (replace_aux "psfcat" new 0 (String c pre ++ "psfcat" ++ post))
      with (if String.prefix "psfcat" (String c (pre ++ "psfcat" ++ post))
            then (new ++ replace_aux "psfcat" new 5 (pre ++ "psfcat" ++ post))%string
            else String c (replace_aux "psfcat" new 0 (pre ++ "psfcat" ++ post))).
    rewrite Hnot. simpl. f_equal. now apply IH.
Qed.

Lemma no_p_uint (d : Decimal.uint) : no_p (NilEmpty.string_of_uint d) = true.
Proof. induction d; simpl; auto. Qed.

Lemma no_p_str_of_Z (n : Z) : no_p (str_of_Z n) = true.
Proof.
  unfold str_of_Z, NilZero.string_of_int.
  destruct (Z.to_int n) as [d|d]; unfold NilZero.string_of_uint;
    destruct d; simpl; auto using no_p_uint.
Qed.

Lemma no_p_zero_pad (width : nat) (s : string) :
  no_p s = true -> no_p (zero_pad width s) = true.
Proof.
  induction width as [|w IH]; intros Hs; simpl; [exact Hs|].
  destruct (String.length s <? S w)%nat; [|exact Hs].
  simpl. now apply IH.
Qed.

Lemma no_p_fmt_f (d : nat) (q : Q) : no_p (fmt_f d q) = true.
Proof.
  unfold fmt_f. rewrite !no_p_app, !no_p_str_of_Z.
  rewrite no_p_zero_pad by apply no_p_str_of_Z.
  destruct (Qlt_bool q 0); reflexivity.
Qed.

(** Names with a single "psfcat": the text [pre] in front of it is such that
    no "psfcat" starts inside it. *)
Section SingleStem.

Variable pre : string.
Hypothesis Hpre : occurs "psfcat" (pre ++ "psfca") = false.

(** One stage: the token goes right behind "psfcat", in front of the tokens
    of the stages before, and the name keeps its single "psfcat". *)
Lemma stage_rename (post tok : string) (enabled : bool) :
  occurs "psfcat" post = false ->
  no_p tok = true ->
  (if enabled
   then py_replace (pre ++ "psfcat" ++ post) "psfcat" ("psfcat" ++ tok)
   else (pre ++ "psfcat" ++ post)%string)
  = (pre ++ "psfcat" ++ (if enabled then tok else "") ++ post)%string
  /\ occurs "psfcat" ((if enabled then tok else "") ++ post) = false.
Proof.
  intros Hpost Htok. destruct enabled.
  - split; [|now apply occurs_no_p].
    rewrite replace_at_stem by assumption. now rewrite str_app_assoc.
  - split; [reflexivity|exact Hpost].
Qed.

Lemma renamed_shape (post : string) (mag_cut max_mag : Q)
    (use_tapebumps : Z) (reserve : Q) :
  occurs "psfcat" post = false ->
  renamed mag_cut max_mag use_tapebumps reserve (pre ++ "psfcat" ++ post)
  = (pre ++ "psfcat" ++ reserve_token reserve ++ tapebump_token use_tapebumps
     ++ maxmag_token max_mag ++ magcut_token mag_cut ++ post)%string.
Proof.
  intros Hpost.
  unfold renamed, reserve_token, tapebump_token, maxmag_token, magcut_token.
  destruct (stage_rename post ("_magcut_" ++ fmt_f 1 mag_cut)
              (Qlt_bool 0 mag_cut) Hpost) as [E1 O1].
  { rewrite no_p_app, no_p_fmt_f. reflexivity. }
  change ("psfcat_magcut_" ++ fmt_f 1 mag_cut)%string
    with ("psfcat" ++ ("_magcut_" ++ fmt_f 1 mag_cut))%string.
  rewrite E1. clear E1.
  destruct (stage_rename _ ("_maxmag_" ++ fmt_f 1 max_mag)
              (Qlt_bool 0 max_mag) O1) as [E2 O2].
  { rewrite no_p_app, no_p_fmt_f. reflexivity. }
  change ("psfcat_maxmag_" ++ fmt_f 1 max_mag)%string
    with ("psfcat" ++ ("_maxmag_" ++ fmt_f 1 max_mag))%string.
  rewrite E2. clear E2.
  destruct (stage_rename _ "_tb" (truthyZ use_tapebumps) O2)
    as [E3 O3]; [reflexivity|].
  change "psfcat_tb"%string with ("psfcat" ++ "_tb")%string.
  rewrite E3. clear E3.
  destruct (stage_rename _ ("_reserve_" ++ fmt_f 2 reserve)
              (truthyQ reserve) O3) as [E4 _].
  { rewrite no_p_app, no_p_fmt_f. reflexivity. }
  change ("psfcat_reserve_" ++ fmt_f 2 reserve)%string
    with ("psfcat" ++ ("_reserve_" ++ fmt_f 2 reserve))%string.
  rewrite E4.
  destruct (truthyQ reserve), (truthyZ use_tapebumps), (Qlt_bool 0 max_mag),
    (Qlt_bool 0 mag_cut); reflexivity.
Qed.

(** The catalog written by [run_findstars] gets its token the same way. *)
Lemma findstars_name (post : string) :
  occurs "psfcat" post = false ->
  py_replace (pre ++ "psfcat" ++ post) "psfcat" "psfcat_findstars"
  = (pre ++ "psfcat" ++ "_findstars" ++ post)%string.
Proof.
  intros Hpost. rewrite replace_at_stem by assumption. reflexivity.
Qed.

End SingleStem.

Lemma bright_cut_name mag_cut nbright_stars data name data' name' :
  bright_cut mag_cut nbright_stars data name = Ok (data', name') ->
  name' = if Qlt_bool 0 mag_cut
          then py_replace name "psfcat" ("psfcat_magcut_" ++ fmt_f 1 mag_cut)
          else name.
Proof.
  unfold bright_cut. destruct (Qlt_bool 0 mag_cut); [|congruence].
  destruct (np_sort (map MAG_AUTO data)); [discriminate|]. cbn [rbind].
  destruct (index_mask data _); cbn [rbind]; congruence.
Qed.

Lemma faint_cut_name max_mag data name data' name' :
  faint_cut max_mag data name = Ok (data', name') ->
  name' = if Qlt_bool 0 max_mag
          then py_replace name "psfcat" ("psfcat_maxmag_" ++ fmt_f 1 max_mag)
          else name.
Proof.
  unfold faint_cut. destruct (Qlt_bool 0 max_mag); [|congruence].
  destruct (index_mask data _); cbn [rbind]; congruence.
Qed.

Lemma tapebump_cut_name use tbdata ccdnum tapebump_extra fwhm data name data' name' :
  tapebump_cut use tbdata ccdnum tapebump_extra fwhm data name = Ok (data', name') ->
  name' = if truthyZ use then py_replace name "psfcat" "psfcat_tb" else name.
Proof.
  unfold tapebump_cut. destruct (truthyZ use); [|congruence].
  destruct (tbdata !! ccdnum); cbn [rbind]; [|discriminate].
  destruct (exclude_tapebumps _ _ _); cbn [rbind]; congruence.
Qed.

Lemma reserve_cut_name env wdir root reserve data name w data' name' w' :
  reserve_cut env wdir root reserve data name w = (Ok (data', name'), w') ->
  name' = if truthyQ reserve
          then py_replace name "psfcat" ("psfcat_reserve_" ++ fmt_f 2 reserve)
          else name.
Proof.
  unfold reserve_cut. destruct (truthyQ reserve).
  - unfold bind, lift, write_table, ret.
    destruct (reserve_split _ _ _) as [[rd d]|e]; [|congruence].
    destruct (can_create env _); congruence.
  - unfold ret. congruence.
Qed.

(** What a successful call of [remove_bad_stars] returns: the name built by
    the stages, and the number of rows of the catalog written under it. *)
Lemma remove_bad_stars_returns env wdir root ccdnum cat_file tbdata
    mag_cut nbright_stars max_mag use_tapebumps tapebump_extra reserve fwhm
    (w w' : World) (name : string) (n : Z) :
  remove_bad_stars env wdir root ccdnum cat_file tbdata mag_cut nbright_stars
    max_mag use_tapebumps tapebump_extra reserve fwhm w = (Ok (name, n), w') ->
  name = renamed mag_cut max_mag use_tapebumps reserve cat_file
  /\ exists data, files w' !! name = Some (LDAC data)
                  /\ n = Z.of_nat (length data).
Proof.
  unfold remove_bad_stars, bind, call, lift, ret.
  intros H.
  destruct (read_catalog cat_file _) as [[data0|?] w0]; [|discriminate].
  destruct (index_mask data0 _) as [data1|?]; [|discriminate].
  destruct (bright_cut _ _ _ _) as [[d2 n2]|?] eqn:E2; [|discriminate].
  destruct (faint_cut _ _ _) as [[d3 n3]|?] eqn:E3; [|discriminate].
  destruct (tapebump_cut _ _ _ _ _ _ _) as [[d4 n4]|?] eqn:E4; [|discriminate].
  destruct (reserve_cut _ _ _ _ _ _ _) as [[[d5 n5]|?] w5] eqn:E5; [|discriminate].
  destruct (read_catalog cat_file w5) as [[orig|?] w6]; [|discriminate].
  unfold write_table in H.
  destruct (can_create env n5); [|discriminate].
  injection H as <- <- <-.
  apply bright_cut_name in E2. apply faint_cut_name in E3.
  apply tapebump_cut_name in E4. apply reserve_cut_name in E5.
  split.
  - unfold renamed. subst. reflexivity.
  - exists d5. cbn [files]. split; [apply lookup_insert_eq|reflexivity].
Qed.

(** C7, as stated, fails: with the bright-end cut and the tapebump exclusion
    on, the output catalog of "w/r_psfcat.fits" is named
    "w/r_psfcat_tb_magcut_1.0.fits".  The tokens are not appended to the name,
    the token of the later stage stands in front of the token of the earlier
    one, and the quality filter, which ran first, left no token. *)
Lemma C7_later_token_comes_first :
  fst (remove_bad_stars no_fit_env "w" "r" 1 "w/r_psfcat.fits" bumps_of_unit_1
         1 10 (-1) 1 2 0 4 (mkWorld (psfcat_only five_stars) 0 []))
  = Ok ("w/r_psfcat_tb_magcut_1.0.fits"%string, 1%Z)
  /\ "w/r_psfcat_tb_magcut_1.0.fits"%string
     <> ("w/r_psfcat.fits" ++ "_magcut_1.0" ++ "_tb")%string
  /\ "w/r_psfcat_tb_magcut_1.0.fits"%string
     <> "w/r_psfcat_magcut_1.0_tb.fits"%string.
Proof.
  split; [vm_compute; reflexivity|]. split; vm_compute; discriminate.
Qed.

(** C7 (amended): for an input name with a single "psfcat", between [pre] and
    [post], a successful refinement writes its catalog under the name obtained
    by the replacements of the enabled stages, each putting its token right
    behind "psfcat": the name reads [pre], "psfcat", then the tokens of the
    reservation, of the tapebump exclusion, of the faint-end cut and of the
    bright-end cut (the reverse of the order of application, a disabled stage
    contributing nothing), then [post].  The quality filter has no token.  The
    name is a function of the options and of the input name alone. *)
Theorem C7_output_catalog_name env wdir root ccdnum tbdata
    mag_cut nbright_stars max_mag use_tapebumps tapebump_extra reserve fwhm
    (pre post : string) (w w' : World) (name : string) (n : Z) :
  occurs "psfcat" (pre ++ "psfca") = false ->
  occurs "psfcat" post = false ->
  remove_bad_stars env wdir root ccdnum (pre ++ "psfcat" ++ post) tbdata
    mag_cut nbright_stars max_mag use_tapebumps tapebump_extra reserve fwhm w
  = (Ok (name, n), w') ->
  name = (pre ++ "psfcat" ++ reserve_token reserve ++ tapebump_token use_tapebumps
          ++ maxmag_token max_mag ++ magcut_token mag_cut ++ post)%string
  /\ name = renamed mag_cut max_mag use_tapebumps reserve (pre ++ "psfcat" ++ post)
  /\ exists data, files w' !! name = Some (LDAC data)
                  /\ n = Z.of_nat (length data).
Proof.
  intros Hpre Hpost Hrun.
  apply remove_bad_stars_returns in Hrun. destruct Hrun as [Hname Hdata].
  split; [|split; assumption].
  rewrite Hname. now apply renamed_shape.
Qed.

Lemma C7_output_catalog_name_witness :
  "w/r_psfcat_tb_magcut_1.0.fits"%string
  = ("w/r_" ++ "psfcat" ++ reserve_token 0 ++ tapebump_token 1
     ++ maxmag_token (-1) ++ magcut_token 1 ++ ".fits")%string.
Proof.
  destruct (C7_output_catalog_name no_fit_env "w" "r" 1 bumps_of_unit_1
              1 10 (-1) 1 2 0 4 "w/r_" ".fits"
              (mkWorld (psfcat_only five_stars) 0 [])
              (snd (remove_bad_stars no_fit_env "w" "r" 1 "w/r_psfcat.fits"
                      bumps_of_unit_1 1 10 (-1) 1 2 0 4
                      (mkWorld (psfcat_only five_stars) 0 [])))
              "w/r_psfcat_tb_magcut_1.0.fits" 1)
    as [Hname _]; [reflexivity | reflexivity | vm_compute; reflexivity |].
  exact Hname.
Defined.

(** ** The bright-end cut *)

Lemma bright_cut_empty (mag_cut : Q) (nbright_stars : Z) (name : string) :
  (0 < mag_cut)%Q -> bright_cut mag_cut nbright_stars [] name = Raise IndexError.
Proof.
  intros H. unfold bright_cut. apply Qlt_bool_iff in H. now rewrite H.
Qed.

(** C10: on a catalog without rows the bright-end cut does not return the
    empty selection, it raises IndexError (the diagnostic [mags[0]]); in
    [main] the detector unit of a catalog without clean rows then ends with
    the "unclassified error" bit alone, not with the "no stars" bit. *)
Theorem C10_bright_cut_fails_without_rows :
  bright_cut 1 10 [] "w/r_psfcat.fits" = Raise IndexError
  /\ flag (main_unit no_fit_env with_bright_cut bumps_of_unit_1
             "w" "r" 1 "w/r_psfcat.fits" 4 (psfcat_only one_flagged_row))
     = ERROR_FLAG.
Proof. split; reflexivity. Qed.

Lemma np_sort_sorted_id (l : list Q) : StronglySorted Qle l -> np_sort l = l.
Proof.
  induction 1 as [|v l Hs IH Hall]; simpl; [reflexivity|].
  rewrite IH. destruct l as [|w l]; [reflexivity|]. simpl.
  inversion Hall as [|? ? Hvw _]; subst.
  apply Qle_bool_iff in Hvw. now rewrite Hvw.
Qed.

Lemma Forall_firstn_keeps {A} (P : A -> Prop) (k : nat) (l : list A) :
  List.Forall P l -> List.Forall P (firstn k l).
Proof.
  intros H. revert k. induction H as [|x l Hx _ IH]; intros [|k]; simpl;
    constructor; auto.
Qed.

Lemma StronglySorted_firstn (k : nat) (l : list Q) :
  StronglySorted Qle l -> StronglySorted Qle (firstn k l).
Proof.
  intros H. revert k. induction H as [|x l Hs IH Hall]; intros [|k]; simpl;
    constructor; auto using Forall_firstn_keeps.
Qed.

Lemma slice_to_firstn {A} (stop : Z) (l : list A) :
  (0 <= stop)%Z ->
  slice_to stop l = firstn (Nat.min (Z.to_nat stop) (length l)) l.
Proof.
  intros H. unfold slice_to. destruct (Z.leb_spec 0 stop); [|lia].
  destruct (Nat.le_gt_cases (Z.to_nat stop) (length l)) as [Hle|Hgt].
  - now rewrite Nat.min_l.
  - rewrite Nat.min_r by lia. rewrite !firstn_all2 by lia. reflexivity.
Qed.

(** On a catalog with at least one row, and for [nbright_stars >= 1], the
    bright-end cut keeps exactly the rows whose magnitude is strictly above
    the median of the min(nbright_stars, n) smallest magnitudes plus
    [mag_cut]; a row at the threshold is dropped. *)
Lemma bright_cut_on_rows (mag_cut : Q) (nbright_stars : Z) (data : Catalog)
    (name : string) :
  (0 < mag_cut)%Q -> data <> [] -> (1 <= nbright_stars)%Z ->
  exists mags brightest threshold,
    Permutation mags (map MAG_AUTO data)
    /\ StronglySorted Qle mags
    /\ brightest = firstn (Nat.min (Z.to_nat nbright_stars) (length data)) mags
    /\ threshold = (median_sorted brightest + mag_cut)%Q
    /\ bright_cut mag_cut nbright_stars data name
       = Ok (List.filter (fun r => Qlt_bool threshold (MAG_AUTO r)) data,
             py_replace name "psfcat" ("psfcat_magcut_" ++ fmt_f 1 mag_cut))
    /\ forall r, Qlt_bool threshold (MAG_AUTO r) = true
                 <-> (threshold < MAG_AUTO r)%Q.
Proof.
  intros Hcut Hdata Hn.
  set (mags := np_sort (map MAG_AUTO data)).
  assert (Hlen : length mags = length data)
    by (subst mags; now rewrite np_sort_length, length_map).
  exists mags, (firstn (Nat.min (Z.to_nat nbright_stars) (length data)) mags).
  eexists. split; [apply np_sort_perm|]. split; [apply np_sort_sorted|].
  split; [reflexivity|]. split; [reflexivity|].
  split; [|intros r; apply Qlt_bool_iff].
  unfold bright_cut. apply Qlt_bool_iff in Hcut. rewrite Hcut. fold mags.
  rewrite slice_to_firstn by lia. rewrite Hlen.
  set (brightest := firstn (Nat.min (Z.to_nat nbright_stars) (length data)) mags).
  assert (Hb : brightest <> []).
  { intros Hnil. apply (f_equal (@length Q)) in Hnil. subst brightest.
    rewrite length_firstn, Hlen in Hnil. simpl in Hnil.
    destruct data; [congruence|]. simpl in Hnil. lia. }
  assert (Hmed : np_median brightest = Some (median_sorted brightest)).
  { unfold np_median. destruct brightest eqn:E; [congruence|]. rewrite <- E.
    rewrite np_sort_sorted_id; [reflexivity|].
    subst brightest. apply StronglySorted_firstn, np_sort_sorted. }
  rewrite Hmed.
  destruct mags as [|m0 mags'] eqn:Em.
  { destruct data; [congruence|discriminate]. }
  cbn [rbind]. rewrite index_mask_map. reflexivity.
Qed.

Example bright_cut_five_stars :
  bright_cut 1 10 five_stars "w/r_psfcat.fits"
  = Ok ([star 5 0 500 100 19 2], "w/r_psfcat_magcut_1.0.fits"%string).
Proof. reflexivity. Qed.

(* ================================================================== *)
(** * Part III : further properties of the code                        *)
(* ================================================================== *)

(** ** The tape bump table *)

Lemma five_numbers_row (d : list (option Q)) (v0 v1 v2 v3 v4 : Q) :
  five_numbers d = Some (v0, v1, v2, v3, v4) ->
  forall tbdata,
    tapebump_row tbdata d
    = Ok (alter (fun l => (l ++ [(py_int v1, py_int v2, py_int v3, py_int v4)])%list)
                (py_int v0)
                (match tbdata !! py_int v0 with
                 | None => <[py_int v0 := []]> tbdata
                 | Some _ => tbdata
                 end)).
Proof.
  intros H tbdata.
  destruct d as [|[a0|] [|[a1|] [|[a2|] [|[a3|] [|[a4|] d]]]]]; try discriminate.
  simpl in H. injection H as <- <- <- <- <-. reflexivity.
Qed.

Lemma tapebump_row_needs_five (d : list (option Q)) tbdata tbdata' :
  tapebump_row tbdata d = Ok tbdata' -> five_numbers d <> None.
Proof.
  destruct d as [|[a0|] [|[a1|] [|[a2|] [|[a3|] [|[a4|] d]]]]]; discriminate.
Qed.

(** One row adds its bump at the end of the list of its unit and leaves the
    other units alone. *)
Lemma tapebump_row_lookup (d : list (option Q)) (v0 v1 v2 v3 v4 : Q)
    (tbdata : gmap Z (list Region)) (known : Z -> list Region) :
  five_numbers d = Some (v0, v1, v2, v3, v4) ->
  (forall c, tbdata !! c = entry_of (known c)) ->
  exists tbdata',
    tapebump_row tbdata d = Ok tbdata'
    /\ forall c,
         tbdata' !! c
         = entry_of (if (py_int v0 =? c)%Z
                     then (known c ++ [(py_int v1, py_int v2, py_int v3, py_int v4)])%list
                     else known c).
Proof.
  intros Hd Hknown. eexists. split; [apply (five_numbers_row _ _ _ _ _ _ Hd)|].
  intros c. destruct (Z.eqb_spec (py_int v0) c) as [<-|Hne].
  - rewrite lookup_alter_eq. rewrite (Hknown (py_int v0)).
    destruct (known (py_int v0)) as [|tb l] eqn:E; simpl.
    + now rewrite lookup_insert_eq.
    + rewrite Hknown, E. reflexivity.
  - rewrite lookup_alter_ne by exact Hne.
    destruct (tbdata !! py_int v0); [apply Hknown|].
    rewrite lookup_insert_ne by exact Hne. apply Hknown.
Qed.

Lemma tapebump_rows_lookup (rows : list (list (option Q))) :
  List.Forall (fun d => five_numbers d <> None) rows ->
  forall (tbdata : gmap Z (list Region)) (known : Z -> list Region),
    (forall c, tbdata !! c = entry_of (known c)) ->
    exists tbdata',
      tapebump_rows tbdata rows = Ok tbdata'
      /\ forall c, tbdata' !! c = entry_of (known c ++ bumps_listed c rows)%list.
Proof.
  induction 1 as [|d rows Hd _ IH]; intros tbdata known Hknown.
  - exists tbdata. split; [reflexivity|]. intros c. simpl.
    rewrite app_nil_r. apply Hknown.
  - destruct (five_numbers d) as [[[[[v0 v1] v2] v3] v4]|] eqn:E; [|congruence].
    destruct (tapebump_row_lookup d v0 v1 v2 v3 v4 tbdata known E Hknown)
      as (tbdata1 & Hrow & Hlook).
    destruct (IH tbdata1 _ Hlook) as (tbdata' & Hrows & Hlook').
    exists tbdata'. split.
    + simpl. now rewrite Hrow.
    + intros c. rewrite Hlook'. simpl. rewrite E.
      destruct (py_int v0 =? c)%Z; [|reflexivity].
      now rewrite <- app_assoc.
Qed.

Lemma tapebump_rows_needs_five (rows : list (list (option Q))) tbdata tbdata' :
  tapebump_rows tbdata rows = Ok tbdata' ->
  List.Forall (fun d => five_numbers d <> None) rows.
Proof.
  revert tbdata. induction rows as [|d rows IH]; intros tbdata H; [constructor|].
  simpl in H. destruct (tapebump_row tbdata d) as [t|e] eqn:E; [|discriminate].
  constructor; [eapply tapebump_row_needs_five; eauto | eapply IH; eauto].
Qed.

(** X1: for a table whose rows all hold five numbers, [read_tapebump_file]
    returns the dictionary in which a unit is a key exactly when some row
    names it, its value being the bumps of those rows, truncated to integers,
    in the order of the rows; no key holds an empty list. *)
Theorem read_tapebump_file_lookup (rows : list (list (option Q))) :
  List.Forall (fun d => five_numbers d <> None) rows ->
  exists tbdata,
    read_tapebump_file (Table2D rows) = Ok tbdata
    /\ (forall c, tbdata !! c = entry_of (bumps_listed c rows))
    /\ (forall c tbd, tbdata !! c = Some tbd ->
                      tbd = bumps_listed c rows /\ tbd <> []).
Proof.
  intros Hrows.
  destruct (tapebump_rows_lookup rows Hrows ∅ (fun _ => []))
    as (tbdata & Hrun & Hlook); [intros c; apply lookup_empty|].
  exists tbdata. split; [exact Hrun|]. split; [exact Hlook|].
  intros c tbd Hc. rewrite Hlook in Hc. simpl in Hc.
  destruct (bumps_listed c rows); [discriminate|].
  simpl in Hc. injection Hc as <-. split; [reflexivity|discriminate].
Qed.

Lemma read_tapebump_file_lookup_witness :
  exists tbdata,
    read_tapebump_file
      (Table2D [bump_line 1 one_bump; bump_line 2 (5, 6, 7, 8);
                bump_line 1 (30, 30, 40, 40)]) = Ok tbdata
    /\ tbdata !! 1%Z = Some [one_bump; (30, 30, 40, 40)]
    /\ tbdata !! 3%Z = None.
Proof.
  destruct (read_tapebump_file_lookup
              [bump_line 1 one_bump; bump_line 2 (5, 6, 7, 8);
               bump_line 1 (30, 30, 40, 40)])
    as (tbdata & Hrun & Hlook & _).
  - repeat constructor; discriminate.
  - exists tbdata. split; [exact Hrun|]. split; rewrite Hlook; reflexivity.
Defined.

Lemma tapebump_row_failure (d : list (option Q)) (tbdata : gmap Z (list Region)) :
  five_numbers d = None -> tapebump_row tbdata d = Raise (row_failure d).
Proof.
  destruct d as [|[a0|] [|[a1|] [|[a2|] [|[a3|] [|[a4|] d]]]]]; try discriminate;
    reflexivity.
Qed.

Lemma tapebump_rows_failure (good : list (list (option Q))) (d : list (option Q))
    (rest : list (list (option Q))) :
  List.Forall (fun g => five_numbers g <> None) good ->
  five_numbers d = None ->
  forall tbdata,
    tapebump_rows tbdata (good ++ d :: rest) = Raise (row_failure d).
Proof.
  intros Hgood Hd. induction Hgood as [|g good Hg _ IH]; intros tbdata; simpl.
  - now rewrite (tapebump_row_failure d tbdata Hd).
  - destruct (five_numbers g) as [[[[[v0 v1] v2] v3] v4]|] eqn:E; [|congruence].
    rewrite (five_numbers_row g _ _ _ _ _ E). apply IH.
Qed.

(** X2: [read_tapebump_file] succeeds on a two-dimensional table if and only
    if every row holds five numbers.  Otherwise the first row that does not
    decides the exception: ValueError when one of its first five entries is
    a nan (the nan is met before the end of the row), IndexError when the row
    is merely too short.  A one-dimensional table, which is what a file of
    one line gives, is an IndexError. *)
Theorem read_tapebump_file_succeeds_iff :
  (forall rows,
     (exists tbdata, read_tapebump_file (Table2D rows) = Ok tbdata)
     <-> List.Forall (fun d => five_numbers d <> None) rows)
  /\ (forall good d rest,
        List.Forall (fun g => five_numbers g <> None) good ->
        five_numbers d = None ->
        read_tapebump_file (Table2D (good ++ d :: rest))
        = Raise (if existsb is_nan (firstn 5 d) then ValueError else IndexError))
  /\ (forall v values,
        read_tapebump_file (Table1D (v :: values)) = Raise IndexError).
Proof.
  split; [|split; [|reflexivity]].
  - intros rows. split.
    + intros [tbdata H]. eapply tapebump_rows_needs_five. exact H.
    + intros H.
      destruct (tapebump_rows_lookup rows H ∅ (fun _ => []))
        as (t & Ht & _); [intros c; apply lookup_empty|]. eauto.
  - intros good d rest Hgood Hd. apply (tapebump_rows_failure good d rest Hgood Hd).
Qed.

Lemma read_tapebump_file_succeeds_iff_witness :
  read_tapebump_file (Table2D [bump_line 1 one_bump; [Some 1; Some 2; Some 3]%Q;
                               bump_line 2 one_bump])
  = Raise IndexError
  /\ read_tapebump_file (Table2D [[Some 1; None; Some 3]%Q]) = Raise ValueError.
Proof.
  destruct read_tapebump_file_succeeds_iff as (_ & Hbad & _). split.
  - apply (Hbad [bump_line 1 one_bump] [Some 1; Some 2; Some 3]%Q
                [bump_line 2 one_bump]).
    + repeat constructor; discriminate.
    + reflexivity.
  - apply (Hbad [] [Some 1; None; Some 3]%Q []).
    + constructor.
    + reflexivity.
Defined.

(** X3: with the dictionary read from the table, the tapebump stage of the
    refinement never meets an empty region list: for a unit that no row names
    it raises KeyError, and for every other unit it returns the rows of the
    catalog that lie strictly inside none of the unit's inflated bumps. *)
Theorem tapebump_cut_of_table (rows : list (list (option Q)))
    (tbdata : gmap Z (list Region)) (use ccdnum : Z) (tapebump_extra fwhm : Q)
    (data : Catalog) (name : string) :
  read_tapebump_file (Table2D rows) = Ok tbdata ->
  truthyZ use = true ->
  tapebump_cut use tbdata ccdnum tapebump_extra fwhm data name
  = match bumps_listed ccdnum rows with
    | [] => Raise KeyError
    | tbd =>
      Ok (List.filter
            (fun r => negb (existsb
                              (fun tb => bump_mask (tapebump_extra * fwhm + (1 # 2)) tb r)
                              tbd))
            data,
          py_replace name "psfcat" "psfcat_tb")
    end.
Proof.
  intros Hread Huse.
  assert (Hrows : List.Forall (fun d => five_numbers d <> None) rows)
    by (eapply tapebump_rows_needs_five; exact Hread).
  destruct (tapebump_rows_lookup rows Hrows ∅ (fun _ => []))
    as (t & Ht & Hlook); [intros c; apply lookup_empty|].
  unfold read_tapebump_file in Hread.
  rewrite Hread in Ht. injection Ht as <-.
  unfold tapebump_cut. rewrite Huse, Hlook. cbn [app].
  destruct (bumps_listed ccdnum rows) as [|tb tbs]; [reflexivity|].
  cbn [entry_of rbind]. rewrite exclude_tapebumps_filter. reflexivity.
Qed.

Lemma tapebump_cut_of_table_witness :
  tapebump_cut 1 bumps_of_unit_1 2 2 4 [edge_star] "w/r_psfcat.fits"
  = Raise KeyError.
Proof.
  rewrite (tapebump_cut_of_table [bump_line 1 one_bump] bumps_of_unit_1 1 2 2 4
             [edge_star] "w/r_psfcat.fits"); reflexivity.
Defined.

(** ** Algebra of the tapebump exclusion *)

Lemma filter_absorbs {A} (f g : A -> bool) (l : list A) :
  (forall x, g x = true -> f x = true) ->
  List.filter g (List.filter f l) = List.filter g l.
Proof.
  intros Himp. induction l as [|x l IH]; simpl; [reflexivity|].
  destruct (f x) eqn:Ef; simpl.
  - destruct (g x); now rewrite IH.
  - destruct (g x) eqn:Eg; [|exact IH].
    apply Himp in Eg. congruence.
Qed.

Lemma filter_andb {A} (f g : A -> bool) (l : list A) :
  List.filter (fun x => f x && g x) l = List.filter g (List.filter f l).
Proof.
  induction l as [|x l IH]; simpl; [reflexivity|].
  destruct (f x); simpl; [|exact IH].
  destruct (g x); now rewrite IH.
Qed.

(** A larger margin inflates every bump. *)
Lemma bump_mask_grows (e e' : Q) (tb : Region) (r : Row) :
  (e <= e')%Q -> bump_mask e tb r = true -> bump_mask e' tb r = true.
Proof.
  unfold bump_mask. rewrite !andb_true_iff, !Qlt_bool_iff.
  intros He [[[H0 H1] H2] H3]. repeat split; lra.
Qed.

(** X4: for a non-empty region list and margins m <= m', excluding with the
    larger margin gives the same catalog whether or not the smaller margin
    was applied before; every row that survives the larger margin survives
    the smaller one; and applying the exclusion a second time with the same
    margin removes nothing more. *)
Theorem exclude_tapebumps_margins (tbd : list Region) (data : Catalog)
    (m m' : Q) :
  tbd <> [] -> (m <= m')%Q ->
  exists kept kept' : Catalog,
    exclude_tapebumps tbd data m = Ok kept
    /\ exclude_tapebumps tbd data m' = Ok kept'
    /\ exclude_tapebumps tbd kept m' = Ok kept'
    /\ exclude_tapebumps tbd kept m = Ok kept
    /\ (forall r, In r kept' -> In r kept)
    /\ (length kept' <= length kept <= length data)%nat.
Proof.
  intros Hne Hm. destruct tbd as [|tb tbs]; [congruence|].
  rewrite !exclude_tapebumps_filter. do 2 eexists.
  split; [reflexivity|]. split; [reflexivity|].
  assert (Himp : forall r,
    negb (existsb (fun tb0 => bump_mask (m' + (1 # 2)) tb0 r) (tb :: tbs)) = true ->
    negb (existsb (fun tb0 => bump_mask (m + (1 # 2)) tb0 r) (tb :: tbs)) = true).
  { intros r H. apply negb_true_iff in H. apply negb_true_iff.
    destruct (existsb (fun tb0 => bump_mask (m + (1 # 2)) tb0 r) (tb :: tbs))
      eqn:E; [|reflexivity].
    apply existsb_exists in E. destruct E as (tb' & Hin & Hb).
    assert (existsb (fun tb0 => bump_mask (m' + (1 # 2)) tb0 r) (tb :: tbs) = true)
      as Habs.
    { apply existsb_exists. exists tb'. split; [exact Hin|].
      eapply bump_mask_grows; [|exact Hb]. lra. }
    congruence. }
  split; [|split; [|split]].
  - rewrite exclude_tapebumps_filter. f_equal. now apply filter_absorbs.
  - rewrite exclude_tapebumps_filter. f_equal. apply filter_absorbs. auto.
  - intros r Hr. apply filter_In in Hr. destruct Hr as [Hin Hk].
    apply filter_In. split; [exact Hin|]. now apply Himp.
  - split.
    + rewrite <- (filter_absorbs _ _ data Himp). apply List.filter_length_le.
    + apply List.filter_length_le.
Qed.

Lemma exclude_tapebumps_margins_witness :
  exists kept kept' : Catalog,
    exclude_tapebumps [one_bump] [edge_star] 0 = Ok kept
    /\ exclude_tapebumps [one_bump] [edge_star] 1 = Ok kept'
    /\ exclude_tapebumps [one_bump] kept 1 = Ok kept'
    /\ (length kept' <= length kept)%nat.
Proof.
  destruct (exclude_tapebumps_margins [one_bump] [edge_star] 0 1)
    as (kept & kept' & H1 & H2 & H3 & _ & _ & H4 & _).
  - discriminate.
  - unfold Qle; simpl; lia.
  - exists kept, kept'. repeat split; assumption.
Defined.

(** X5: excluding the bumps of two non-empty lists at once is excluding the
    first list and then the second. *)
Theorem exclude_tapebumps_app (tbd1 tbd2 : list Region) (data : Catalog)
    (m : Q) :
  tbd1 <> [] -> tbd2 <> [] ->
  exclude_tapebumps (tbd1 ++ tbd2) data m
  = rbind (exclude_tapebumps tbd1 data m)
          (fun kept => exclude_tapebumps tbd2 kept m).
Proof.
  intros H1 H2. destruct tbd1 as [|a tbd1]; [congruence|].
  destruct tbd2 as [|b tbd2]; [congruence|].
  change ((a :: tbd1) ++ b :: tbd2)%list with (a :: (tbd1 ++ b :: tbd2))%list.
  rewrite !exclude_tapebumps_filter. cbn [rbind].
  rewrite exclude_tapebumps_filter. f_equal.
  rewrite <- filter_andb. apply filter_ext. intros r.
  change (a :: (tbd1 ++ b :: tbd2))%list with ((a :: tbd1) ++ b :: tbd2)%list.
  now rewrite existsb_app, negb_orb.
Qed.

Lemma exclude_tapebumps_app_witness :
  exclude_tapebumps ([one_bump] ++ [(30, 30, 40, 40)]) five_stars 2
  = rbind (exclude_tapebumps [one_bump] five_stars 2)
          (fun kept => exclude_tapebumps [(30, 30, 40, 40)] kept 2).
Proof.
  apply (exclude_tapebumps_app [one_bump] [(30, 30, 40, 40)] five_stars 2);
    discriminate.
Defined.

Lemma existsb_permutation {A} (f : A -> bool) (l l' : list A) :
  Permutation l l' -> existsb f l = existsb f l'.
Proof.
  induction 1 as [|x l l' _ IH|x y l|l l' l'' _ IH1 _ IH2]; simpl.
  - reflexivity.
  - now rewrite IH.
  - now rewrite !orb_assoc, (orb_comm (f y)).
  - now rewrite IH1.
Qed.

(** X6: the order in which the bumps of a unit are listed does not matter. *)
Theorem exclude_tapebumps_permutation (tbd tbd' : list Region)
    (data : Catalog) (m : Q) :
  Permutation tbd tbd' ->
  exclude_tapebumps tbd data m = exclude_tapebumps tbd' data m.
Proof.
  intros Hp. destruct tbd as [|tb tbs].
  - apply Permutation_nil in Hp. now subst.
  - destruct tbd' as [|tb' tbs'].
    + apply Permutation_sym, Permutation_nil in Hp. discriminate.
    + rewrite !exclude_tapebumps_filter. f_equal. apply filter_ext.
      intros r. f_equal. now apply existsb_permutation.
Qed.

Lemma exclude_tapebumps_permutation_witness :
  exclude_tapebumps [one_bump; (30, 30, 40, 40)] five_stars 2
  = exclude_tapebumps [(30, 30, 40, 40); one_bump] five_stars 2.
Proof.
  apply exclude_tapebumps_permutation. apply perm_swap.
Defined.

(** ** The blacklist, for every behaviour of the file system *)

Lemma is_OSError_iff (e : exn) : is_OSError e = true <-> e = OSError.
Proof. destruct e; simpl; split; congruence. Qed.

(** X7: whatever failures the file system produces, [log_blacklist] either
    returns normally, and then every failure was an OSError, it slept once per
    failure and the file is the old text followed by exactly its line; or it
    raises the first failure that is not an OSError, and then it slept once
    per OSError before it and the file is the old text. *)
Theorem log_blacklist_outcome (fails : list exn) (text : string) (naps : nat)
    (run exp : string) (ccdnum flag : Z) :
  let out := log_blacklist fails text naps run exp ccdnum flag in
  let line := (run ++ " " ++ exp ++ " " ++ str_of_Z ccdnum ++ " "
               ++ str_of_Z flag ++ nl)%string in
  (fst out = Ok tt
   /\ fails = repeat OSError (length fails)
   /\ snd out = mkBlFile (text ++ line) [] (length fails + naps))
  \/ (exists k e rest,
        fails = (repeat OSError k ++ e :: rest)%list
        /\ e <> OSError
        /\ fst out = Raise e
        /\ snd out = mkBlFile text rest (k + naps)).
Proof.
  revert naps. induction fails as [|e fails IH]; intros naps; cbv zeta.
  - left. repeat split.
  - cbn [log_blacklist]. destruct (is_OSError e) eqn:E.
    + apply is_OSError_iff in E. subst e.
      destruct (IH (S naps)) as [(H1 & H2 & H3)|(k & e & rest & H1 & H2 & H3 & H4)].
      * left. split; [exact H1|]. split.
        -- cbn [length repeat]. now rewrite <- H2.
        -- rewrite H3. f_equal. cbn [length]. lia.
      * right. exists (S k), e, rest. split; [now rewrite H1|].
        split; [exact H2|]. split; [exact H3|]. rewrite H4. f_equal. lia.
    + right. exists 0%nat, e, fails. repeat split.
      intros ->. discriminate.
Qed.

(** ** Order of the statistics *)

Lemma sorted_entry_bounds (lo hi : Q) (s : list Q) (k : nat) :
  (forall x, In x s -> lo <= x /\ x <= hi)%Q -> (k < length s)%nat ->
  (lo <= nth k s 0 /\ nth k s 0 <= hi)%Q.
Proof. intros H Hk. apply H. now apply nth_In. Qed.

Lemma median_sorted_bounds (lo hi : Q) (s : list Q) :
  (forall x, In x s -> lo <= x /\ x <= hi)%Q -> s <> [] ->
  (lo <= median_sorted s /\ median_sorted s <= hi)%Q.
Proof.
  intros H Hne. unfold median_sorted.
  assert (Hpos : (0 < length s)%nat) by (destruct s; [congruence|simpl; lia]).
  assert (Hhalf : (length s / 2 < length s)%nat)
    by (apply Nat.div_lt; lia).
  destruct (Nat.even (length s)) eqn:E.
  - assert (Hprev : (length s / 2 - 1 < length s)%nat) by lia.
    destruct (sorted_entry_bounds lo hi s _ H Hhalf).
    destruct (sorted_entry_bounds lo hi s _ H Hprev).
    split.
    + apply Qle_shift_div_l; lra.
    + apply Qle_shift_div_r; lra.
  - now apply sorted_entry_bounds.
Qed.

(** X8: whenever [get_fwhm]'s statistics exist, the median lies between the
    minimum and the maximum, whatever value [numpy.mean] returns for the
    mean. *)
Theorem fwhm_stats_median_between (env : Env) (flux_radius : list Q)
    (mn mx mean med : Q) :
  fwhm_stats env flux_radius = Ok (mn, mx, mean, med) ->
  (mn <= med /\ med <= mx /\ mn <= mx)%Q.
Proof.
  unfold fwhm_stats. destruct flux_radius as [|v l]; [discriminate|].
  cbn [map]. set (fw := (2 * v)%Q :: map (Qmult 2) l).
  intros H. injection H as <- <- <- <-.
  destruct (Qmin_list_spec (map (Qmult 2) l) (2 * v)%Q) as [Hmin1 Hmin2].
  destruct (Qmax_list_spec (map (Qmult 2) l) (2 * v)%Q) as [Hmax1 Hmax2].
  fold fw in Hmin1, Hmin2, Hmax1, Hmax2.
  set (mn := Qmin_list (2 * v) (map (Qmult 2) l)) in *.
  set (mx := Qmax_list (2 * v) (map (Qmult 2) l)) in *.
  assert (Hall : forall x, In x fw -> (mn <= x /\ x <= mx)%Q) by (split; auto).
  assert (Hsorted : forall x, In x (np_sort fw) -> (mn <= x /\ x <= mx)%Q).
  { intros x Hx. apply Hall. eapply Permutation_in; [apply np_sort_perm|exact Hx]. }
  assert (Hne : np_sort fw <> []).
  { intros Hnil. apply (f_equal (@length Q)) in Hnil.
    rewrite np_sort_length in Hnil. discriminate. }
  destruct (median_sorted_bounds mn mx _ Hsorted Hne) as [Hm1 Hm2].
  repeat split; try assumption. apply (Hall mn Hmin1).
Qed.

Lemma fwhm_stats_median_between_witness :
  fwhm_stats no_fit_env [1; 3; 2; 5]%Q = Ok (2, 10, 22 # 4, 10 # 2)%Q
  /\ (2 <= 10 # 2 /\ 10 # 2 <= 10 /\ 2 <= 10)%Q.
Proof.
  split; [reflexivity|].
  apply (fwhm_stats_median_between no_fit_env [1; 3; 2; 5]%Q 2 10 (22 # 4) (10 # 2)).
  reflexivity.
Defined.

(** ** The star selection of findstars *)

Lemma index_mask_combine {A} (data : list A) (mask : list bool) :
  length data = length mask ->
  index_mask data mask = Ok (map fst (List.filter snd (combine data mask))).
Proof.
  revert mask. induction data as [|r data IH]; intros [|b mask] Hlen;
    simpl in Hlen; try discriminate; [reflexivity|].
  simpl. rewrite IH by lia. destruct b; reflexivity.
Qed.

Lemma index_mask_In {A} (data : list A) (mask : list bool) (kept : list A) :
  index_mask data mask = Ok kept -> forall r, In r kept -> In r data.
Proof.
  revert mask kept. induction data as [|x data IH]; intros [|b mask] kept H;
    simpl in H; try discriminate.
  - injection H as <-. contradiction.
  - destruct (index_mask data mask) as [rest|] eqn:E; [|discriminate].
    injection H as <-. intros r Hr. destruct b.
    + destruct Hr as [<-|Hr]; [now left|right; eauto].
    + right. eauto.
Qed.

Lemma index_mask_count {A} (data : list A) (mask : list bool) (kept : list A) :
  index_mask data mask = Ok kept ->
  Z.of_nat (length kept) = count_nonzero mask /\ length data = length mask.
Proof.
  unfold count_nonzero.
  revert mask kept. induction data as [|x data IH]; intros [|b mask] kept H;
    simpl in H; try discriminate.
  - injection H as <-. split; reflexivity.
  - destruct (index_mask data mask) as [rest|] eqn:E; [|discriminate].
    injection H as <-. destruct (IH _ _ E) as [Hc Hl].
    apply Nat2Z.inj in Hc.
    split; [|simpl; lia]. destruct b; cbn; lia.
Qed.

Lemma count_nonzero_bounds (mask : list bool) :
  (0 <= count_nonzero mask <= Z.of_nat (length mask))%Z.
Proof.
  unfold count_nonzero. pose proof (List.filter_length_le id mask). lia.
Qed.

Lemma run_findstars_no_file (env : Env) (wdir root cat_file : string) (w : World) :
  findstars_out env = None ->
  run_findstars env wdir root cat_file w
  = (Ok None, mkWorld (files w) (flag w) (calls w ++ [StepFindstars])).
Proof.
  intros Hout. unfold run_findstars, bind, call, ret. now rewrite Hout.
Qed.

Lemma run_findstars_no_star (env : Env) (wdir root cat_file : string) (w : World)
    (star_flag : list Z) :
  findstars_out env = Some star_flag ->
  List.Forall (fun f => f <> 1%Z) star_flag ->
  run_findstars env wdir root cat_file w
  = (Raise NoStarsException,
     mkWorld (files w) (flag w) (calls w ++ [StepFindstars])).
Proof.
  intros Hout Hnone. unfold run_findstars, bind, call, ret, raise. rewrite Hout.
  assert (Hz : count_nonzero (map (fun f => (f =? 1)%Z) star_flag) = 0%Z).
  { clear Hout. unfold count_nonzero. induction Hnone as [|f l Hf _ IH]; [reflexivity|].
    simpl. destruct (Z.eqb_spec f 1); [contradiction|]. exact IH. }
  rewrite Hz. reflexivity.
Qed.

(** X9: when findstars leaves no star file, or a star file in which no row
    has star_flag 1, [run_findstars] writes no catalog: in the first case it
    returns the triple of None, in the second it raises NoStarsException, and
    it does so even when the detection catalog cannot be read. *)
Theorem run_findstars_without_stars (env : Env) (wdir root cat_file : string)
    (w : World) :
  match findstars_out env with
  | None =>
    run_findstars env wdir root cat_file w
    = (Ok None, mkWorld (files w) (flag w) (calls w ++ [StepFindstars]))
  | Some star_flag =>
    List.Forall (fun f => f <> 1%Z) star_flag ->
    run_findstars env wdir root cat_file w
    = (Raise NoStarsException,
       mkWorld (files w) (flag w) (calls w ++ [StepFindstars]))
  end.
Proof.
  unfold run_findstars, bind, call, ret, raise.
  destruct (findstars_out env) as [star_flag|]; [|reflexivity].
  intros Hnone.
  assert (Hz : count_nonzero (map (fun f => (f =? 1)%Z) star_flag) = 0%Z).
  { unfold count_nonzero. induction Hnone as [|f l Hf _ IH]; [reflexivity|].
    simpl. destruct (Z.eqb_spec f 1); [contradiction|]. exact IH. }
  rewrite Hz. reflexivity.
Qed.

Lemma run_findstars_without_stars_witness :
  run_findstars (mkEnv (Some [0; 4; 2]%Z) (fun n => seq 0 n) true true only_w plain_mean)
                "w" "r" "w/r_psfcat.fits" (mkWorld ∅ 0 [])
  = (Raise NoStarsException, mkWorld ∅ 0 [StepFindstars]).
Proof.
  apply (run_findstars_without_stars
           (mkEnv (Some [0; 4; 2]%Z) (fun n => seq 0 n) true true only_w plain_mean)
           "w" "r" "w/r_psfcat.fits" (mkWorld ∅ 0 [])).
  repeat constructor; discriminate.
Defined.

(** X10: when the star file has as many rows as the detection catalog and
    marks at least one star, [run_findstars] writes, under the name with
    every "psfcat" replaced by "psfcat_findstars", exactly the detections
    whose star_flag is 1, in catalog order, and nothing else; the count it
    returns is the number of rows written, positive and at most the total it
    returns, which is the number of detections.  When a file of that name
    cannot be created (the replacement also renames the directory part of the
    path), it raises IOError and writes nothing. *)
Theorem run_findstars_selects (env : Env) (wdir root cat_file : string)
    (w : World) (star_flag : list Z) (cat : Catalog) :
  findstars_out env = Some star_flag ->
  files w !! cat_file = Some (LDAC cat) ->
  length cat = length star_flag ->
  Exists (fun f => f = 1%Z) star_flag ->
  let stars :=
    map fst (List.filter (fun p => (snd p =? 1)%Z) (combine cat star_flag)) in
  let new_cat_file := py_replace cat_file "psfcat" "psfcat_findstars" in
  run_findstars env wdir root cat_file w
  = (if can_create env new_cat_file
     then (Ok (Some (new_cat_file, Z.of_nat (length stars), Z.of_nat (length cat))),
           mkWorld (<[new_cat_file := LDAC stars]> (files w)) (flag w)
                   (calls w ++ [StepFindstars]))
     else (Raise IOError,
           mkWorld (files w) (flag w) (calls w ++ [StepFindstars])))
  /\ (0 < length stars <= length cat)%nat
  /\ (forall r, In r stars -> In r cat).
Proof.
  intros Hout Hcat Hlen Hex stars new_cat_file.
  set (mask := map (fun f => (f =? 1)%Z) star_flag).
  assert (Hmask : index_mask cat mask = Ok stars).
  { rewrite index_mask_combine by (subst mask; now rewrite length_map).
    f_equal. subst stars mask. clear. revert star_flag.
    induction cat as [|r cat IH]; intros [|f fl]; simpl; try reflexivity.
    destruct (f =? 1)%Z; simpl; now rewrite IH. }
  destruct (index_mask_count _ _ _ Hmask) as [Hcount _].
  assert (Hpos : (0 < count_nonzero mask)%Z).
  { subst mask. unfold count_nonzero. clear - Hex.
    induction Hex as [f l Hf|f l _ IH]; simpl.
    - subst f. cbn. lia.
    - destruct (f =? 1)%Z; cbn; cbn in IH; lia. }
  split; [|split].
  - unfold run_findstars, bind, call, ret, raise, lift, read_catalog, write_table.
    rewrite Hout. fold mask. cbn [files flag calls].
    destruct (Z.eqb_spec (count_nonzero mask) 0) as [Hz|_]; [lia|].
    cbn [files flag calls]. rewrite Hcat. cbv beta iota. rewrite Hmask, <- Hcount.
    fold new_cat_file. destruct (can_create env new_cat_file); [|reflexivity].
    subst mask. rewrite length_map, <- Hlen. reflexivity.
  - pose proof (count_nonzero_bounds mask) as Hb.
    subst mask. rewrite length_map in Hb. lia.
  - apply (index_mask_In _ _ _ Hmask).
Qed.

Lemma run_findstars_selects_witness :
  run_findstars two_of_three_env "w" "r" "w/r_psfcat.fits"
                (mkWorld (psfcat_only three_rows) 0 [])
  = (Ok (Some ("w/r_psfcat_findstars.fits"%string, 2%Z, 3%Z)),
     mkWorld (<["w/r_psfcat_findstars.fits"%string
                := LDAC [star 1 0 100 100 15 2; star 2 0 200 100 16 2]]>
                (psfcat_only three_rows)) 0 [StepFindstars]).
Proof.
  destruct (run_findstars_selects two_of_three_env "w" "r" "w/r_psfcat.fits"
              (mkWorld (psfcat_only three_rows) 0 []) [1; 1; 0]%Z three_rows)
    as [Hrun _]; [reflexivity | reflexivity | reflexivity | |exact Hrun].
  constructor. reflexivity.
Defined.

(** ** What the refinement writes *)

Lemma read_catalog_run (name : string) (w : World) :
  read_catalog name w
  = (match files w !! name with
     | Some (LDAC data) => Ok data
     | Some (ReserveTable _) => Raise IndexError
     | None => Raise IOError
     end, w).
Proof.
  unfold read_catalog. destruct (files w !! name) as [[?|?]|]; reflexivity.
Qed.

Lemma index_rows_In {A} (data : list A) (idx : list nat) (rows : list A) :
  index_rows data idx = Ok rows -> forall r, In r rows -> In r data.
Proof.
  revert rows. induction idx as [|i idx IH]; intros rows H; simpl in H.
  - injection H as <-. contradiction.
  - destruct (nth_error data i) as [x|] eqn:E; [|discriminate].
    destruct (index_rows data idx) as [rest|]; [|discriminate].
    injection H as <-. intros r [<-|Hr].
    + eapply nth_error_In; eauto.
    + eauto.
Qed.

Lemma bright_cut_rows mag_cut nbright_stars data name data' name' :
  bright_cut mag_cut nbright_stars data name = Ok (data', name') ->
  forall r, In r data' -> In r data.
Proof.
  unfold bright_cut. destruct (Qlt_bool 0 mag_cut).
  - destruct (np_sort (map MAG_AUTO data)); [discriminate|]. cbn [rbind].
    destruct (index_mask data _) as [kept|] eqn:E; cbn [rbind]; [|discriminate].
    intros H. injection H as <- _. eapply index_mask_In; eauto.
  - intros H. now injection H as <- _.
Qed.

Lemma faint_cut_rows max_mag data name data' name' :
  faint_cut max_mag data name = Ok (data', name') ->
  forall r, In r data' ->
            In r data /\ (Qlt_bool 0 max_mag = true -> (MAG_AUTO r < max_mag)%Q).
Proof.
  unfold faint_cut. destruct (Qlt_bool 0 max_mag).
  - rewrite index_mask_map. cbn [rbind]. intros H. injection H as <- _.
    intros r Hr. apply filter_In in Hr. destruct Hr as [Hin Hlt].
    split; [exact Hin|]. intros _. now apply Qlt_bool_iff.
  - intros H. injection H as <- _. intros r Hr. split; [exact Hr|discriminate].
Qed.

Lemma tapebump_cut_rows use tbdata ccdnum tapebump_extra fwhm data name data' name' :
  tapebump_cut use tbdata ccdnum tapebump_extra fwhm data name = Ok (data', name') ->
  forall r, In r data' ->
            In r data
            /\ (truthyZ use = true ->
                exists tbd, tbdata !! ccdnum = Some tbd
                            /\ forall tb, In tb tbd ->
                                          ~ inside_open (tapebump_extra * fwhm) tb r).
Proof.
  unfold tapebump_cut. destruct (truthyZ use).
  - destruct (tbdata !! ccdnum) as [tbd|]; cbn [rbind]; [|discriminate].
    destruct tbd as [|tb tbs]; [discriminate|].
    rewrite exclude_tapebumps_filter. cbn [rbind].
    intros H. injection H as <- _. intros r Hr.
    apply filter_In in Hr. destruct Hr as [Hin Hk]. split; [exact Hin|].
    intros _. exists (tb :: tbs). split; [reflexivity|].
    intros tb' Htb Hinside. apply bump_mask_iff in Hinside.
    cbv beta in Hk. apply negb_true_iff, Bool.not_true_iff_false in Hk.
    apply Hk.
    apply (proj2 (existsb_exists
                    (fun tb0 => bump_mask (tapebump_extra * fwhm + (1 # 2)) tb0 r)
                    (tb :: tbs))).
    eauto.
  - intros H. injection H as <- _. intros r Hr. split; [exact Hr|discriminate].
Qed.

(** The reservation stage, when it returns. *)
Lemma reserve_cut_inv env wdir root reserve data name w data' name' w' :
  reserve_cut env wdir root reserve data name w = (Ok (data', name'), w') ->
  (truthyQ reserve = false /\ data' = data /\ w' = w)
  \/ (truthyQ reserve = true
      /\ exists reserved,
           reserve_split reserve (permutation env (length data)) data
           = Ok (reserved, data')
           /\ w' = mkWorld (<[os_path_join wdir (root ++ "_reserve.fits")
                              := ReserveTable (map reserve_cols reserved)]> (files w))
                           (flag w) (calls w)).
Proof.
  unfold reserve_cut. destruct (truthyQ reserve).
  - unfold bind, lift, write_table, ret.
    destruct (reserve_split _ _ _) as [[rd d]|e]; [|discriminate].
    destruct (can_create env _); [|discriminate].
    intros H. injection H as <- _ <-. right. split; [reflexivity|].
    exists rd. split; reflexivity.
  - unfold ret. intros H. injection H as <- _ <-. left. repeat split.
Qed.

Lemma reserve_split_rows reserve perm data reserved training :
  reserve_split reserve perm data = Ok (reserved, training) ->
  forall r, In r training -> In r data.
Proof.
  unfold reserve_split.
  destruct (reserve_count reserve (length data)) as [n1|]; cbn [rbind];
    [|discriminate].
  destruct (index_rows data (slice_to _ perm)) as [rd|]; cbn [rbind]; [|discriminate].
  destruct (index_rows data (slice_from _ perm)) as [tr|] eqn:E; cbn [rbind];
    [|discriminate].
  intros H. injection H as _ <-. eapply index_rows_In; eauto.
Qed.

(** Every step of a successful refinement. *)
Lemma remove_bad_stars_inv env wdir root ccdnum cat_file tbdata
    mag_cut nbright_stars max_mag use_tapebumps tapebump_extra reserve fwhm
    (w w' : World) (name : string) (n : Z) :
  remove_bad_stars env wdir root ccdnum cat_file tbdata mag_cut nbright_stars
    max_mag use_tapebumps tapebump_extra reserve fwhm w = (Ok (name, n), w') ->
  exists data0 d2 n2 d3 n3 d4 n4 d5 w5,
    files w !! cat_file = Some (LDAC data0)
    /\ bright_cut mag_cut nbright_stars
         (List.filter (fun r => (FLAGS r =? 0)%Z) data0) cat_file = Ok (d2, n2)
    /\ faint_cut max_mag d2 n2 = Ok (d3, n3)
    /\ tapebump_cut use_tapebumps tbdata ccdnum tapebump_extra fwhm d3 n3
       = Ok (d4, n4)
    /\ reserve_cut env wdir root reserve d4 n4
         (mkWorld (files w) (flag w) (calls w ++ [StepRemoveBadStars cat_file]))
       = (Ok (d5, name), w5)
    /\ n = Z.of_nat (length d5)
    /\ w' = mkWorld (<[name := LDAC d5]> (files w5)) (flag w5) (calls w5).
Proof.
  unfold remove_bad_stars, bind, call, lift, ret. rewrite read_catalog_run.
  cbn [files]. intros H.
  destruct (files w !! cat_file) as [[data0|?]|]; try discriminate.
  rewrite index_mask_map in H.
  destruct (bright_cut _ _ _ _) as [[d2 n2]|?] eqn:E2; [|discriminate].
  destruct (faint_cut _ _ _) as [[d3 n3]|?] eqn:E3; [|discriminate].
  destruct (tapebump_cut _ _ _ _ _ _ _) as [[d4 n4]|?] eqn:E4; [|discriminate].
  destruct (reserve_cut _ _ _ _ _ _ _) as [[[d5 n5]|?] w5] eqn:E5; [|discriminate].
  rewrite read_catalog_run in H.
  destruct (files w5 !! cat_file) as [[orig|?]|]; try discriminate.
  unfold write_table in H.
  destruct (can_create env n5); [|discriminate].
  injection H as <- <- <-.
  exists data0, d2, n2, d3, n3, d4, n4, d5, w5. repeat split; assumption.
Qed.

(** X11: whatever the options and whatever permutation is drawn, every row
    of the catalog written by a successful refinement is a row of the catalog
    read, has FLAGS = 0, is brighter than [max_mag] when the faint-end cut is
    on, and lies strictly inside no inflated bump of the unit when the
    tapebump exclusion is on. *)
Theorem remove_bad_stars_rows env wdir root ccdnum cat_file tbdata
    mag_cut nbright_stars max_mag use_tapebumps tapebump_extra reserve fwhm
    (w w' : World) (name : string) (n : Z) (data0 : Catalog) :
  files w !! cat_file = Some (LDAC data0) ->
  remove_bad_stars env wdir root ccdnum cat_file tbdata mag_cut nbright_stars
    max_mag use_tapebumps tapebump_extra reserve fwhm w = (Ok (name, n), w') ->
  exists out,
    files w' !! name = Some (LDAC out)
    /\ n = Z.of_nat (length out)
    /\ forall r, In r out ->
         In r data0
         /\ FLAGS r = 0%Z
         /\ ((0 < max_mag)%Q -> (MAG_AUTO r < max_mag)%Q)
         /\ (truthyZ use_tapebumps = true ->
             exists tbd, tbdata !! ccdnum = Some tbd
                         /\ forall tb, In tb tbd ->
                                       ~ inside_open (tapebump_extra * fwhm) tb r).
Proof.
  intros Hcat Hrun. apply remove_bad_stars_inv in Hrun.
  destruct Hrun as (d0 & d2 & n2 & d3 & n3 & d4 & n4 & d5 & w5
                    & Hd0 & E2 & E3 & E4 & E5 & Hn & Hw).
  rewrite Hcat in Hd0. injection Hd0 as <-.
  exists d5. subst w'. cbn [files]. split; [apply lookup_insert_eq|].
  split; [exact Hn|]. intros r Hr.
  assert (Hr4 : In r d4).
  { apply reserve_cut_inv in E5.
    destruct E5 as [(_ & -> & _)|(_ & rd & Hsplit & _)]; [exact Hr|].
    eapply reserve_split_rows; eauto. }
  destruct (tapebump_cut_rows _ _ _ _ _ _ _ _ _ E4 r Hr4) as [Hr3 Htb].
  destruct (faint_cut_rows _ _ _ _ _ E3 r Hr3) as [Hr2 Hfaint].
  pose proof (bright_cut_rows _ _ _ _ _ _ E2 r Hr2) as Hr1.
  apply filter_In in Hr1. destruct Hr1 as [Hr0 Hclean].
  split; [exact Hr0|]. split; [now apply Z.eqb_eq|].
  split; [|exact Htb]. intros Hm. apply Hfaint. now apply Qlt_bool_iff.
Qed.

Lemma remove_bad_stars_rows_witness :
  exists out,
    files (snd (remove_bad_stars no_fit_env "w" "r" 1 "w/r_psfcat.fits"
                  bumps_of_unit_1 (-1) 10 18 1 2 0 4
                  (mkWorld (psfcat_only five_stars) 0 [])))
      !! "w/r_psfcat_tb_maxmag_18.0.fits"%string = Some (LDAC out)
    /\ length out = 3%nat
    /\ forall r, In r out ->
         In r five_stars /\ FLAGS r = 0%Z /\ (MAG_AUTO r < 18)%Q
         /\ ~ inside_open (2 * 4) one_bump r.
Proof.
  destruct (remove_bad_stars_rows no_fit_env "w" "r" 1 "w/r_psfcat.fits"
              bumps_of_unit_1 (-1) 10 18 1 2 0 4
              (mkWorld (psfcat_only five_stars) 0 [])
              (snd (remove_bad_stars no_fit_env "w" "r" 1 "w/r_psfcat.fits"
                      bumps_of_unit_1 (-1) 10 18 1 2 0 4
                      (mkWorld (psfcat_only five_stars) 0 [])))
              "w/r_psfcat_tb_maxmag_18.0.fits" 3 five_stars)
    as (out & Hout & Hn & Hrows); [reflexivity | vm_compute; reflexivity |].
  exists out. split; [exact Hout|]. split; [lia|]. intros r Hr.
  destruct (Hrows r Hr) as (H1 & H2 & H3 & H4).
  split; [exact H1|]. split; [exact H2|].
  split; [apply H3; reflexivity|].
  destruct (H4 eq_refl) as (tbd & Htbd & Hout').
  apply Hout'. vm_compute in Htbd. injection Htbd as <-. now left.
Defined.

(** X12: with the bright-end cut and the reservation off and the tapebump
    exclusion on for a unit with bumps, the refinement returns when the
    renamed catalog can be created, and the catalog it writes is the catalog
    read, filtered once, in the same order, by the conjunction of the three
    tests: FLAGS = 0, magnitude below [max_mag] (when that cut is on), and
    not strictly inside any inflated bump.  When the renamed catalog cannot
    be created (the replacements also rename the directory part of the
    path), it raises IOError and writes nothing. *)
Theorem remove_bad_stars_is_one_filter env wdir root ccdnum cat_file tbdata
    mag_cut nbright_stars max_mag use_tapebumps tapebump_extra reserve fwhm
    (w : World) (data : Catalog) (tbd : list Region) :
  files w !! cat_file = Some (LDAC data) ->
  (mag_cut <= 0)%Q ->
  truthyQ reserve = false ->
  truthyZ use_tapebumps = true ->
  tbdata !! ccdnum = Some tbd -> tbd <> [] ->
  let keep := fun r =>
    (FLAGS r =? 0)%Z
    && (if Qlt_bool 0 max_mag then Qlt_bool (MAG_AUTO r) max_mag else true)
    && negb (existsb (fun tb => bump_mask (tapebump_extra * fwhm + (1 # 2)) tb r)
                     tbd) in
  let name := renamed mag_cut max_mag use_tapebumps reserve cat_file in
  remove_bad_stars env wdir root ccdnum cat_file tbdata mag_cut nbright_stars
    max_mag use_tapebumps tapebump_extra reserve fwhm w
  = if can_create env name
    then (Ok (name, Z.of_nat (length (List.filter keep data))),
          mkWorld (<[name := LDAC (List.filter keep data)]> (files w)) (flag w)
                  (calls w ++ [StepRemoveBadStars cat_file]))
    else (Raise IOError,
          mkWorld (files w) (flag w) (calls w ++ [StepRemoveBadStars cat_file])).
Proof.
  intros Hcat Hmag Hres Huse Htbd Hne keep name.
  destruct tbd as [|tb tbs]; [congruence|].
  assert (Hfaint : forall d n,
    faint_cut max_mag d n
    = Ok (List.filter (fun r => if Qlt_bool 0 max_mag
                                then Qlt_bool (MAG_AUTO r) max_mag else true) d,
          if Qlt_bool 0 max_mag
          then py_replace n "psfcat" ("psfcat_maxmag_" ++ fmt_f 1 max_mag)
          else n)).
  { intros d n. unfold faint_cut. destruct (Qlt_bool 0 max_mag).
    - now rewrite index_mask_map.
    - f_equal. f_equal. clear. induction d as [|x d IH]; simpl; congruence. }
  assert (Htb : forall d n,
    tapebump_cut use_tapebumps tbdata ccdnum tapebump_extra fwhm d n
    = Ok (List.filter
            (fun r => negb (existsb
                              (fun tb0 => bump_mask (tapebump_extra * fwhm + (1 # 2)) tb0 r)
                              (tb :: tbs))) d,
          py_replace n "psfcat" "psfcat_tb")).
  { intros d n. unfold tapebump_cut. rewrite Huse, Htbd. cbn [rbind].
    now rewrite exclude_tapebumps_filter. }
  assert (Hkeep : List.filter keep data
                  = List.filter
                      (fun r => negb (existsb
                         (fun tb0 => bump_mask (tapebump_extra * fwhm + (1 # 2)) tb0 r)
                         (tb :: tbs)))
                      (List.filter
                         (fun r => if Qlt_bool 0 max_mag
                                   then Qlt_bool (MAG_AUTO r) max_mag else true)
                         (List.filter (fun r => (FLAGS r =? 0)%Z) data))).
  { subst keep. rewrite <- !filter_andb. apply filter_ext. intros r.
    now rewrite andb_assoc. }
  rewrite Hkeep. subst name. unfold remove_bad_stars, renamed.
  rewrite (Qlt_bool_0_nonpos _ Hmag), Huse, Hres.
  unfold bind at 1. unfold call at 1. cbv beta iota.
  unfold bind at 1. rewrite read_catalog_run. cbn [files]. rewrite Hcat.
  cbv beta iota.
  unfold bind at 1. unfold lift at 1. rewrite index_mask_map.
  cbv beta iota.
  unfold bind at 1. unfold lift at 1. rewrite (bright_cut_off _ _ _ _ Hmag).
  cbv beta iota.
  unfold bind at 1. unfold lift at 1. rewrite Hfaint.
  cbv beta iota.
  unfold bind at 1. unfold lift at 1. rewrite Htb.
  cbv beta iota.
  unfold bind at 1. unfold reserve_cut. rewrite Hres. unfold ret at 1.
  cbv beta iota.
  unfold bind at 1. rewrite read_catalog_run. cbn [files]. rewrite Hcat.
  cbv beta iota. unfold bind, write_table, ret. cbn [files flag calls].
  destruct (can_create env _); reflexivity.
Qed.

Lemma remove_bad_stars_is_one_filter_witness :
  remove_bad_stars no_fit_env "w" "r" 1 "w/r_psfcat.fits" bumps_of_unit_1
    (-1) 10 18 1 2 0 4 (mkWorld (psfcat_only five_stars) 0 [])
  = (Ok ("w/r_psfcat_tb_maxmag_18.0.fits"%string, 3%Z),
     mkWorld (<["w/r_psfcat_tb_maxmag_18.0.fits"%string
                := LDAC [star 1 0 100 100 15 2; star 2 0 200 100 16 2;
                         star 3 0 300 100 17 2]]>
                (psfcat_only five_stars)) 0
             [StepRemoveBadStars "w/r_psfcat.fits"]).
Proof.
  rewrite (remove_bad_stars_is_one_filter no_fit_env "w" "r" 1 "w/r_psfcat.fits"
             bumps_of_unit_1 (-1) 10 18 1 2 0 4
             (mkWorld (psfcat_only five_stars) 0 []) five_stars [one_bump]);
    [reflexivity | reflexivity | unfold Qle; simpl; lia | reflexivity
    | reflexivity | reflexivity | discriminate].
Defined.

(** X13: a refinement that raises leaves the work directory as it was, with
    one exception: when the reservation is on, the reserve file is written
    before the catalog, so that a catalog that cannot be created (IOError)
    leaves the new reserve file behind.  Every other exception comes before
    the first write.  (The reserve file is supposed not to be the catalog
    being read.) *)
Theorem remove_bad_stars_failure_leaves env wdir root ccdnum cat_file
    tbdata mag_cut nbright_stars max_mag use_tapebumps tapebump_extra reserve
    fwhm (w : World) (e : exn) :
  let out := remove_bad_stars env wdir root ccdnum cat_file tbdata mag_cut
               nbright_stars max_mag use_tapebumps tapebump_extra reserve fwhm w in
  let reserve_file := os_path_join wdir (root ++ "_reserve.fits") in
  let name := renamed mag_cut max_mag use_tapebumps reserve cat_file in
  reserve_file <> cat_file ->
  fst out = Raise e ->
  files (snd out) = files w
  \/ (e = IOError /\ truthyQ reserve = true
      /\ can_create env reserve_file = true /\ can_create env name = false
      /\ exists rows,
           files (snd out) = <[reserve_file := ReserveTable rows]> (files w)).
Proof.
  intros out reserve_file name Hfile. subst out name reserve_file.
  unfold remove_bad_stars, bind, call, lift, ret, renamed.
  rewrite read_catalog_run. cbn [files].
  destruct (files w !! cat_file) as [[data0|?]|] eqn:Ecat; try (left; reflexivity).
  rewrite index_mask_map.
  destruct (bright_cut _ _ _ _) as [[d2 n2]|?] eqn:E2; [|left; reflexivity].
  destruct (faint_cut _ _ _) as [[d3 n3]|?] eqn:E3; [|left; reflexivity].
  destruct (tapebump_cut _ _ _ _ _ _ _) as [[d4 n4]|?] eqn:E4; [|left; reflexivity].
  apply bright_cut_name in E2. apply faint_cut_name in E3.
  apply tapebump_cut_name in E4. subst n2 n3 n4.
  unfold reserve_cut. destruct (truthyQ reserve).
  - unfold bind, lift, write_table, ret.
    destruct (reserve_split _ _ _) as [[rd d5]|?]; [|left; reflexivity].
    destruct (can_create env (os_path_join _ _)) eqn:Edir; [|left; reflexivity].
    rewrite read_catalog_run. cbn [files fst snd].
    rewrite lookup_insert_ne by exact Hfile. rewrite Ecat.
    destruct (can_create env (py_replace _ _ _)) eqn:Eout;
      [cbn [fst snd]; intros He; discriminate He|].
    cbn [fst snd files]. intros He. injection He as <-. right.
    repeat split; try reflexivity. eauto.
  - unfold ret. rewrite read_catalog_run. cbn [files]. rewrite Ecat.
    unfold write_table. destruct (can_create env _);
      [cbn [fst snd]; intros He; discriminate He|].
    left. reflexivity.
Qed.

Lemma remove_bad_stars_failure_leaves_witness :
  let out := remove_bad_stars psfcat_dir_env "psfcat" "r" 1 "psfcat/r_psfcat.fits"
               bumps_of_unit_1 (-1) 10 (-1) 1 2 (1 # 2) 4
               (mkWorld {[ "psfcat/r_psfcat.fits"%string := LDAC five_stars ]} 0 []) in
  fst out = Raise IOError
  /\ files (snd out) !! "psfcat/r_reserve.fits"%string
     = Some (ReserveTable (map reserve_cols
                             [star 1 0 100 100 15 2; star 2 0 200 100 16 2]))
  /\ files (snd out)
       !! "psfcat_reserve_0.50_tb/r_psfcat_reserve_0.50_tb.fits"%string = None
  /\ (files (snd out) = {[ "psfcat/r_psfcat.fits"%string := LDAC five_stars ]}
      \/ (IOError = IOError /\ truthyQ (1 # 2) = true
          /\ can_create psfcat_dir_env "psfcat/r_reserve.fits" = true
          /\ can_create psfcat_dir_env
               (renamed (-1) (-1) 1 (1 # 2) "psfcat/r_psfcat.fits") = false
          /\ exists rows,
               files (snd out)
               = <["psfcat/r_reserve.fits"%string := ReserveTable rows]>
                   {[ "psfcat/r_psfcat.fits"%string := LDAC five_stars ]})).
Proof.
  intros out. split; [vm_compute; reflexivity|].
  split; [vm_compute; reflexivity|]. split; [vm_compute; reflexivity|].
  pose proof (remove_bad_stars_failure_leaves psfcat_dir_env "psfcat" "r" 1
                "psfcat/r_psfcat.fits" bumps_of_unit_1 (-1) 10 (-1) 1 2 (1 # 2) 4
                (mkWorld {[ "psfcat/r_psfcat.fits"%string := LDAC five_stars ]} 0 [])
                IOError) as H.
  cbv zeta in H. apply H.
  - vm_compute. discriminate.
  - vm_compute. reflexivity.
Defined.

(** X14: when the name of the catalog read has a single "psfcat" and the
    tapebump exclusion is on (as it is whenever [main] runs the refinement),
    the catalog is written under another name and the catalog read is still
    in the work directory, unchanged, provided the reserve file is not that
    catalog. *)
Theorem remove_bad_stars_keeps_its_input env wdir root ccdnum tbdata
    mag_cut nbright_stars max_mag use_tapebumps tapebump_extra reserve fwhm
    (pre post : string) (w w' : World) (name : string) (n : Z) :
  occurs "psfcat" (pre ++ "psfca") = false ->
  occurs "psfcat" post = false ->
  truthyZ use_tapebumps = true ->
  os_path_join wdir (root ++ "_reserve.fits") <> (pre ++ "psfcat" ++ post)%string ->
  remove_bad_stars env wdir root ccdnum (pre ++ "psfcat" ++ post) tbdata
    mag_cut nbright_stars max_mag use_tapebumps tapebump_extra reserve fwhm w
  = (Ok (name, n), w') ->
  name <> (pre ++ "psfcat" ++ post)%string
  /\ files w' !! (pre ++ "psfcat" ++ post)%string
     = files w !! (pre ++ "psfcat" ++ post)%string.
Proof.
  intros Hpre Hpost Huse Hfile Hrun.
  destruct (remove_bad_stars_returns _ _ _ _ _ _ _ _ _ _ _ _ _ _ _ _ _ Hrun)
    as [Hname _].
  rewrite (renamed_shape pre Hpre post _ _ _ _ Hpost) in Hname.
  assert (Hdiff : name <> (pre ++ "psfcat" ++ post)%string).
  { intros Heq. rewrite Hname in Heq. apply (f_equal String.length) in Heq.
    unfold tapebump_token in Heq. rewrite Huse in Heq.
    rewrite !str_length_app in Heq. simpl in Heq. lia. }
  split; [exact Hdiff|].
  apply remove_bad_stars_inv in Hrun.
  destruct Hrun as (d0 & d2 & n2 & d3 & n3 & d4 & n4 & d5 & w5
                    & _ & _ & _ & _ & E5 & _ & Hw).
  subst w'. cbn [files]. rewrite lookup_insert_ne by exact Hdiff.
  apply reserve_cut_inv in E5.
  destruct E5 as [(_ & _ & ->)|(_ & rd & _ & ->)]; cbn [files]; [reflexivity|].
  now rewrite lookup_insert_ne by exact Hfile.
Qed.

Lemma remove_bad_stars_keeps_its_input_witness :
  files (snd (remove_bad_stars no_fit_env "w" "r" 1 "w/r_psfcat.fits"
                bumps_of_unit_1 (-1) 10 18 1 2 0 4
                (mkWorld (psfcat_only five_stars) 0 [])))
    !! "w/r_psfcat.fits"%string
  = Some (LDAC five_stars).
Proof.
  destruct (remove_bad_stars_keeps_its_input no_fit_env "w" "r" 1 bumps_of_unit_1
              (-1) 10 18 1 2 0 4 "w/r_" ".fits"
              (mkWorld (psfcat_only five_stars) 0 [])
              (snd (remove_bad_stars no_fit_env "w" "r" 1 "w/r_psfcat.fits"
                      bumps_of_unit_1 (-1) 10 18 1 2 0 4
                      (mkWorld (psfcat_only five_stars) 0 [])))
              "w/r_psfcat_tb_maxmag_18.0.fits" 3)
    as [_ Hkeep];
    [reflexivity | reflexivity | reflexivity | vm_compute; discriminate
    | vm_compute; reflexivity |].
  exact Hkeep.
Defined.

(** ** The quality flag of a detector unit *)

Lemma keeps_flag_sets_only allowed {A} (m : M A) :
  keeps_flag m -> sets_only allowed m.
Proof.
  intros H w. exists 0%Z. split; [reflexivity|].
  now rewrite H, Z.lor_0_r.
Qed.

Lemma sets_only_or_flag allowed (bit : Z) :
  Z.land bit allowed = bit -> sets_only allowed (or_flag bit).
Proof. intros H w. exists bit. split; [exact H|reflexivity]. Qed.

Lemma sets_only_bind allowed {A B} (m : M A) (k : A -> M B) :
  sets_only allowed m -> (forall a, sets_only allowed (k a)) ->
  sets_only allowed (bind m k).
Proof.
  intros Hm Hk w. unfold bind. destruct (Hm w) as (b & Hb & Hf).
  destruct (m w) as [[a|e] w1]; simpl in Hf.
  - destruct (Hk a w1) as (b' & Hb' & Hf').
    exists (Z.lor b b'). split.
    + now rewrite Z.land_lor_distr_l, Hb, Hb'.
    + now rewrite Hf', Hf, Z.lor_assoc.
  - exists b. split; [exact Hb|exact Hf].
Qed.

Lemma sets_only_when allowed (c : bool) (m : M unit) :
  sets_only allowed m -> sets_only allowed (when_ c m).
Proof.
  intros H. destruct c; [exact H|].
  apply keeps_flag_sets_only, keeps_flag_ret.
Qed.

Lemma keeps_flag_run_findstars env wdir root cat_file :
  keeps_flag (run_findstars env wdir root cat_file).
Proof.
  unfold run_findstars. apply keeps_flag_bind; [auto with flagdb|]. intros _.
  destruct (findstars_out env); [|auto with flagdb].
  destruct (_ =? 0)%Z; [auto with flagdb|].
  repeat (first [ apply keeps_flag_bind | progress auto with flagdb | intros ? ]).
Qed.

Lemma keeps_flag_get_fwhm env cat_file : keeps_flag (get_fwhm env cat_file).
Proof.
  unfold get_fwhm.
  repeat (first [ apply keeps_flag_bind | progress auto with flagdb | intros ? ]).
Qed.

Lemma sets_only_findstars_pass env args wdir root cat_file :
  sets_only body_bits (findstars_pass env args wdir root cat_file).
Proof.
  unfold findstars_pass. destruct (truthyZ (use_findstars args));
    [|apply keeps_flag_sets_only, keeps_flag_ret].
  apply sets_only_bind;
    [apply keeps_flag_sets_only, keeps_flag_run_findstars|].
  intros [[[name nstars] ntot]|].
  - apply sets_only_bind;
      [apply sets_only_when, sets_only_or_flag; reflexivity|]. intros _.
    apply sets_only_bind;
      [apply sets_only_when, sets_only_or_flag; reflexivity|]. intros _.
    apply keeps_flag_sets_only, keeps_flag_ret.
  - apply sets_only_bind; [apply sets_only_or_flag; reflexivity|].
    intros _. apply keeps_flag_sets_only, keeps_flag_raise.
Qed.

Lemma sets_only_refinement_pass env args tbfile wdir root ccdnum cat_file fwhm :
  sets_only body_bits
    (refinement_pass env args tbfile wdir root ccdnum cat_file fwhm).
Proof.
  unfold refinement_pass. destruct (needs_refinement args);
    [|apply keeps_flag_sets_only, keeps_flag_ret].
  destruct (main_tbdata args tbfile);
    [|apply keeps_flag_sets_only, keeps_flag_raise].
  apply sets_only_bind;
    [apply keeps_flag_sets_only, keeps_flag_remove_bad_stars|].
  intros [name n]. apply sets_only_bind;
    [apply sets_only_when, sets_only_or_flag; reflexivity|].
  intros _. destruct (n <=? 1)%Z; apply keeps_flag_sets_only;
    auto with flagdb.
Qed.

Lemma sets_only_fwhm_pass env args cat_file fwhm :
  sets_only body_bits (fwhm_pass env args cat_file fwhm).
Proof.
  unfold fwhm_pass. destruct (needs_catalog args);
    [|apply keeps_flag_sets_only, keeps_flag_ret].
  apply sets_only_bind; [apply keeps_flag_sets_only, keeps_flag_get_fwhm|].
  intros stats. apply sets_only_bind; [|intros _];
    apply sets_only_when, sets_only_or_flag; reflexivity.
Qed.

Lemma sets_only_fit_pass env args cat_file :
  sets_only body_bits (fit_pass env args cat_file).
Proof.
  unfold fit_pass, run_psfex, run_piff.
  apply sets_only_bind; [|intros _]; apply sets_only_when;
    (apply sets_only_bind;
     [apply keeps_flag_sets_only, keeps_flag_bind; auto with flagdb|]);
    intros [|]; first [ apply keeps_flag_sets_only, keeps_flag_ret
                      | apply sets_only_or_flag; reflexivity ].
Qed.

Lemma sets_only_unit_body env args tbfile wdir root ccdnum cat_file fwhm :
  sets_only body_bits (unit_body env args tbfile wdir root ccdnum cat_file fwhm).
Proof.
  unfold unit_body.
  apply sets_only_bind; [apply sets_only_findstars_pass|]. intros c1.
  apply sets_only_bind; [apply sets_only_refinement_pass|]. intros c2.
  apply sets_only_bind; [apply sets_only_fwhm_pass|]. intros _.
  apply sets_only_fit_pass.
Qed.

Lemma body_bits_bounds (b : Z) :
  Z.land b body_bits = b ->
  (0 <= b < 64)%Z /\ Z.testbit b 0 = false /\ Z.testbit b 6 = false.
Proof.
  intros H.
  assert (Hnn : (0 <= b)%Z).
  { rewrite <- H. apply Z.land_nonneg. right. unfold body_bits. lia. }
  split; [|split].
  - split; [exact Hnn|].
    destruct (Z.eq_dec b 0) as [->|Hz]; [lia|].
    apply (Z.log2_lt_pow2 b 6); [lia|].
    rewrite <- H.
    pose proof (Z.log2_land b body_bits Hnn) as Hl.
    assert (Hb : (0 <= body_bits)%Z) by (unfold body_bits; lia).
    specialize (Hl Hb). change (Z.log2 body_bits) with 5%Z in Hl. lia.
  - rewrite <- H, Z.land_spec. apply andb_false_r.
  - rewrite <- H, Z.land_spec. apply andb_false_r.
Qed.

(** X15: the flag with which [main] leaves a detector unit lies between 0 and
    127; its "no stars" bit is set exactly when the [try] block ended with
    NoStarsException and its "error" bit exactly when the block ended with
    another exception, so the two are never set together and neither is set
    when the block ran to its end. *)
Theorem main_unit_flag env args tbfile wdir root ccdnum cat_file fwhm work :
  let out := unit_body env args tbfile wdir root ccdnum cat_file fwhm
                       (mkWorld work 0 []) in
  let w := main_unit env args tbfile wdir root ccdnum cat_file fwhm work in
  (0 <= flag w < 128)%Z
  /\ (Z.testbit (flag w) 0 = true
      <-> fst out = Raise NoStarsException)
  /\ (Z.testbit (flag w) 6 = true
      <-> exists e, fst out = Raise e /\ e <> NoStarsException)
  /\ ~ (Z.testbit (flag w) 0 = true /\ Z.testbit (flag w) 6 = true).
Proof.
  intros out w.
  destruct (sets_only_unit_body env args tbfile wdir root ccdnum cat_file fwhm
              (mkWorld work 0 [])) as (b & Hb & Hflag).
  fold out in Hflag. cbn [flag] in Hflag. rewrite Z.lor_0_l in Hflag.
  destruct (body_bits_bounds b Hb) as (Hrange & Hb0 & Hb6).
  assert (Hw : flag w = match fst out with
                        | Ok _ => b
                        | Raise e => if is_NoStars e then Z.lor b NO_STARS_FLAG
                                     else Z.lor b ERROR_FLAG
                        end).
  { subst w. unfold main_unit. fold out. destruct out as [[u|e] w1].
    - exact Hflag.
    - simpl in Hflag. cbn [fst]. destruct (is_NoStars e); cbn; now rewrite Hflag. }
  assert (Hlor : forall h, (0 <= h < 128)%Z -> (0 <= Z.lor b h < 128)%Z).
  { intros h Hh. split; [apply Z.lor_nonneg; lia|].
    destruct (Z.eq_dec (Z.lor b h) 0) as [->|Hz]; [lia|].
    assert (0 <= Z.lor b h)%Z by (apply Z.lor_nonneg; lia).
    apply (Z.log2_lt_pow2 (Z.lor b h) 7); [lia|].
    rewrite Z.log2_lor by lia.
    assert (Z.log2 b < 7)%Z.
    { destruct (Z.eq_dec b 0) as [->|]; [simpl; lia|].
      apply Z.log2_lt_pow2; lia. }
    assert (Z.log2 h < 7)%Z.
    { destruct (Z.eq_dec h 0) as [->|]; [simpl; lia|].
      apply Z.log2_lt_pow2; lia. }
    lia. }
  rewrite Hw. destruct (fst out) as [u|e] eqn:Eout.
  - rewrite Hb0, Hb6. repeat split; try lia; try discriminate;
      try (intros (e & He & _); discriminate);
      try (intros [H _]; discriminate).
  - destruct e; cbn [is_NoStars];
      rewrite !Z.lor_spec, Hb0, Hb6; cbn;
      (split; [apply Hlor; unfold NO_STARS_FLAG, ERROR_FLAG; lia|]);
      repeat split; try discriminate; try congruence;
      try (intros _; eexists; split; [reflexivity|discriminate]);
      try (intros (e' & He' & Hne); congruence);
      try (intros [? ?]; discriminate).
Qed.

(** X16: the [try] block of [main] never clears a bit of the flag, and the
    only bits it sets itself are among too few, too many, high FWHM,
    findstars failure and PSFEx failure. *)
Theorem unit_body_flag_grows env args tbfile wdir root ccdnum cat_file fwhm
    (w : World) (i : Z) :
  let w' := snd (unit_body env args tbfile wdir root ccdnum cat_file fwhm w) in
  (Z.testbit (flag w) i = true -> Z.testbit (flag w') i = true)
  /\ (Z.testbit (flag w') i = true -> Z.testbit (flag w) i = false ->
      Z.testbit body_bits i = true).
Proof.
  intros w'. subst w'.
  destruct (sets_only_unit_body env args tbfile wdir root ccdnum cat_file fwhm w)
    as (b & Hb & Hflag).
  rewrite Hflag, Z.lor_spec. split.
  - intros ->. reflexivity.
  - intros H Hold. rewrite Hold in H. simpl in H.
    rewrite <- Hb, Z.land_spec in H. now apply andb_true_iff in H.
Qed.

(** X17: when the star selection is on and findstars leaves no star file,
    the unit ends with flag 17 (findstars failure and no stars), nothing is
    written to the work directory, no later step is started, and, with
    blacklisting on and the blacklist writable, the line
    "run exp ccdnum 17" is appended. *)
Theorem main_unit_findstars_failure env args tbfile wdir root ccdnum cat_file
    fwhm work (text : string) (run exp : string) :
  truthyZ (use_findstars args) = true ->
  findstars_out env = None ->
  truthyZ (blacklist args) = true ->
  let w := main_unit env args tbfile wdir root ccdnum cat_file fwhm work in
  w = mkWorld work 17 [StepFindstars]
  /\ main_blacklist args w (mkBlFile text [] 0) run exp ccdnum
     = (Ok tt,
        mkBlFile (text ++ (run ++ " " ++ exp ++ " " ++ str_of_Z ccdnum
                           ++ " 17" ++ nl))%string [] 0).
Proof.
  intros Hfs Hout Hbl w.
  assert (Hw : w = mkWorld work 17 [StepFindstars]).
  { subst w. unfold main_unit, unit_body, findstars_pass.
    rewrite Hfs. unfold bind at 1. unfold bind at 1.
    rewrite (run_findstars_no_file env wdir root cat_file _ Hout).
    reflexivity. }
  split; [exact Hw|]. rewrite Hw. unfold main_blacklist. cbn [flag].
  rewrite Hbl. reflexivity.
Qed.

Lemma main_unit_findstars_failure_witness :
  main_unit no_fit_env with_findstars bumps_of_unit_1 "w" "r" 1
            "w/r_psfcat.fits" 4 (psfcat_only three_rows)
  = mkWorld (psfcat_only three_rows) 17 [StepFindstars].
Proof.
  destruct (main_unit_findstars_failure no_fit_env with_findstars bumps_of_unit_1
              "w" "r" 1 "w/r_psfcat.fits" 4 (psfcat_only three_rows)
              "" "run" "exp")
    as [Hw _]; [reflexivity | reflexivity | reflexivity |].
  exact Hw.
Defined.

(** X18: when the star selection is on and the star file marks no star, the
    unit ends with flag 1 ("no stars") alone, and the work directory is as it
    was: no catalog is written and no later step is started. *)
Theorem main_unit_no_star env args tbfile wdir root ccdnum cat_file fwhm work
    (star_flag : list Z) :
  truthyZ (use_findstars args) = true ->
  findstars_out env = Some star_flag ->
  List.Forall (fun f => f <> 1%Z) star_flag ->
  main_unit env args tbfile wdir root ccdnum cat_file fwhm work
  = mkWorld work 1 [StepFindstars].
Proof.
  intros Hfs Hout Hnone.
  unfold main_unit, unit_body, findstars_pass.
  rewrite Hfs. unfold bind at 1. unfold bind at 1.
  rewrite (run_findstars_no_star env wdir root cat_file _ star_flag Hout Hnone).
  reflexivity.
Qed.

Lemma main_unit_no_star_witness :
  main_unit (mkEnv (Some [0; 4; 2]%Z) (fun n => seq 0 n) true true only_w plain_mean)
            with_findstars bumps_of_unit_1 "w" "r" 1 "w/r_psfcat.fits" 4
            (psfcat_only three_rows)
  = mkWorld (psfcat_only three_rows) 1 [StepFindstars].
Proof.
  apply (main_unit_no_star (mkEnv (Some [0; 4; 2]%Z) (fun n => seq 0 n) true true only_w plain_mean)
           with_findstars bumps_of_unit_1 "w" "r" 1 "w/r_psfcat.fits" 4
           (psfcat_only three_rows) [0; 4; 2]%Z);
    [reflexivity | reflexivity | repeat constructor; discriminate].
Defined.

(** X19: [main] reads the tape bump table only when the tapebump exclusion
    is on; when it is off and a magnitude cut or a reservation is asked for,
    the call of the refinement fails on the unassigned [tbdata]: the unit ends
    with the "error" bit, no refined catalog is written and nothing is
    fitted. *)
Theorem main_unit_without_tapebumps env args tbfile wdir root ccdnum cat_file0
    cat_file fwhm work (w1 : World) :
  truthyZ (use_tapebumps args) = false ->
  needs_refinement args = true ->
  findstars_pass env args wdir root cat_file0 (mkWorld work 0 [])
  = (Ok cat_file, w1) ->
  main_unit env args tbfile wdir root ccdnum cat_file0 fwhm work
  = mkWorld (files w1) (Z.lor (flag w1) ERROR_FLAG) (calls w1).
Proof.
  intros Huse Hneed Hfs.
  unfold main_unit, unit_body. unfold bind at 1. rewrite Hfs.
  unfold bind at 1. unfold refinement_pass, main_tbdata.
  rewrite Hneed, Huse. reflexivity.
Qed.

Lemma main_unit_without_tapebumps_witness :
  main_unit no_fit_env (mkArgs true false 0 1 10 (-1) 0 2 0 1) bumps_of_unit_1
            "w" "r" 1 "w/r_psfcat.fits" 4 (psfcat_only five_stars)
  = mkWorld (psfcat_only five_stars) 64 [].
Proof.
  apply (main_unit_without_tapebumps no_fit_env
           (mkArgs true false 0 1 10 (-1) 0 2 0 1) bumps_of_unit_1
           "w" "r" 1 "w/r_psfcat.fits" "w/r_psfcat.fits" 4
           (psfcat_only five_stars) (mkWorld (psfcat_only five_stars) 0 []));
    reflexivity.
Defined.

Lemma get_fwhm_run (env : Env) (cat_file : string) (w : World) (data : Catalog) :
  files w !! cat_file = Some (LDAC data) ->
  get_fwhm env cat_file w
  = (fwhm_stats env (map FLUX_RADIUS data),
     mkWorld (files w) (flag w) (calls w ++ [StepGetFwhm cat_file])).
Proof.
  intros Hcat. unfold get_fwhm, bind, call, lift. rewrite read_catalog_run.
  cbn [files]. now rewrite Hcat.
Qed.

(** X20: on a catalog with at least one row, the FWHM check returns
    normally, changes no file, and sets the "high FWHM" bit (value 8) exactly
    when the median of 2 * FLUX_RADIUS exceeds 13.8 pixels or 1.5 times the
    FWHM of the image header; no other bit is touched.  On a catalog without
    rows it raises ValueError. *)
Theorem fwhm_pass_high_fwhm env args cat_file fwhm (w : World) (data : Catalog) :
  needs_catalog args = true ->
  files w !! cat_file = Some (LDAC data) ->
  match data with
  | [] =>
    fwhm_pass env args cat_file fwhm w
    = (Raise ValueError,
       mkWorld (files w) (flag w) (calls w ++ [StepGetFwhm cat_file]))
  | _ =>
    let median := median_sorted (np_sort (map (Qmult 2) (map FLUX_RADIUS data))) in
    let high := Qlt_bool HIGH_FWHM median || Qlt_bool ((3 # 2) * fwhm) median in
    fwhm_pass env args cat_file fwhm w
    = (Ok tt,
       mkWorld (files w)
               (Z.lor (flag w) (if high then TOO_HIGH_FWHM_FLAG else 0))
               (calls w ++ [StepGetFwhm cat_file]))
    /\ (high = true <-> (HIGH_FWHM < median \/ (3 # 2) * fwhm < median)%Q)
  end.
Proof.
  intros Hneed Hcat. unfold fwhm_pass. rewrite Hneed.
  destruct data as [|r data].
  { unfold bind at 1. now rewrite (get_fwhm_run _ _ _ _ Hcat). }
  cbv zeta. unfold bind at 1. rewrite (get_fwhm_run _ _ _ _ Hcat).
  cbn [map fwhm_stats snd]. split.
  - unfold bind, when_, or_flag, ret. cbn [snd].
    destruct (Qlt_bool HIGH_FWHM _) eqn:E1;
      destruct (Qlt_bool ((3 # 2) * fwhm) _) eqn:E2; cbn [orb flag files calls];
      rewrite ?Z.lor_0_r, <- ?Z.lor_assoc, ?Z.lor_diag; reflexivity.
  - rewrite orb_true_iff, !Qlt_bool_iff. reflexivity.
Qed.

Lemma fwhm_pass_high_fwhm_witness :
  fwhm_pass no_fit_env tapebumps_only "w/r_psfcat.fits" 1
            (mkWorld (psfcat_only five_stars) 0 [])
  = (Ok tt, mkWorld (psfcat_only five_stars) 8 [StepGetFwhm "w/r_psfcat.fits"]).
Proof.
  pose proof (fwhm_pass_high_fwhm no_fit_env tapebumps_only "w/r_psfcat.fits" 1
                (mkWorld (psfcat_only five_stars) 0 []) five_stars
                eq_refl eq_refl) as [Hrun _].
  exact Hrun.
Defined.

(** ** The labels of plot_fs.py *)

Lemma where_from_sorted (mask : list bool) (k : nat) :
  StronglySorted lt (PlotFs.where_from k mask).
Proof.
  revert k. induction mask as [|b mask IH]; intros k; simpl; [constructor|].
  destruct b; [|apply IH]. constructor; [apply IH|].
  rewrite List.Forall_forall. intros i Hi. apply where_from_In in Hi. lia.
Qed.

Lemma candidates_least (u : PlotFs.Pos) (cat : list PlotFs.Pos) (j : nat)
    (rest : list nat) :
  candidates u cat = j :: rest ->
  In j (candidates u cat) /\ forall j', In j' (candidates u cat) -> (j <= j')%nat.
Proof.
  intros H. pose proof (where_from_sorted (map (PlotFs.near u) cat) 0) as Hs.
  fold (PlotFs.np_where (map (PlotFs.near u) cat)) in Hs.
  fold (candidates u cat) in Hs. rewrite H in *.
  split; [now left|]. intros j' [<-|Hj']; [lia|].
  apply StronglySorted_inv in Hs. destruct Hs as [_ Hall].
  rewrite List.Forall_forall in Hall. specialize (Hall j' Hj'). lia.
Qed.

(** X21: the list of used stars exists exactly when every star of the PSFEx
    list has some detection within less than one pixel on both axes, and then
    each star is paired with the first such detection, even when there are
    several; otherwise the statement raises IndexError. *)
Theorem used_stars_first_match (psfex cat : list PlotFs.Pos) :
  match PlotFs.used_stars psfex cat with
  | Ok used =>
    Forall2 (fun u j =>
               In j (candidates u cat)
               /\ forall j', In j' (candidates u cat) -> (j <= j')%nat)
            psfex used
  | Raise e =>
    e = IndexError
    /\ Exists (fun u => forall c, In c cat -> PlotFs.near u c = false) psfex
  end.
Proof.
  induction psfex as [|u psfex IH]; simpl; [constructor|].
  fold (candidates u cat).
  destruct (candidates u cat) as [|j rest] eqn:Ec; simpl.
  - split; [reflexivity|]. left. intros c Hc.
    destruct (PlotFs.near u c) eqn:En; [|reflexivity].
    apply In_nth_error in Hc. destruct Hc as [k Hk].
    assert (Hin : In k (candidates u cat)).
    { apply candidates_In. exists c. split; [exact Hk|]. now apply near_iff. }
    rewrite Ec in Hin. contradiction.
  - destruct (PlotFs.used_stars psfex cat) as [used|e].
    + constructor; [|exact IH].
      exact (candidates_least _ _ _ _ Ec).
    + destruct IH as [-> IH]. split; [reflexivity|]. now right.
Qed.

Example used_stars_takes_first :
  PlotFs.used_stars [(0, 0)%Q] [(5, 5)%Q; (1 # 2, 0)%Q; (0, 0)%Q] = Ok [1%nat]
  /\ PlotFs.used_stars [(0, 0)%Q; (9, 9)%Q] [(0, 0)%Q] = Raise IndexError.
Proof. split; reflexivity. Qed.

Lemma set_mask_lookup (flag : list Z) (mask : list bool) (v : Z) (out : list Z) :
  PlotFs.set_mask flag mask v = Ok out ->
  length out = length flag
  /\ forall (i : nat) (f : Z) (b : bool), flag !! i = Some f -> mask !! i = Some b ->
                          out !! i = Some (if b then v else f).
Proof.
  revert mask out. induction flag as [|f0 flag IH]; intros [|b0 mask] out H;
    simpl in H; try discriminate.
  - injection H as <-. split; [reflexivity|]. intros i f b Hf. discriminate.
  - destruct (PlotFs.set_mask flag mask v) as [rest|] eqn:E; [|discriminate].
    injection H as <-. destruct (IH _ _ E) as [Hlen Hlook].
    split; [simpl; now rewrite Hlen|].
    intros [|i] f b Hf Hb; simpl in *.
    + injection Hf as <-. injection Hb as <-. reflexivity.
    + eauto.
Qed.

Lemma set_index_lookup (idx : list nat) (flag : list Z) (v : Z) (out : list Z) :
  PlotFs.set_index flag idx v = Ok out ->
  length out = length flag
  /\ forall (i : nat) (f : Z), flag !! i = Some f ->
                 out !! i = Some (if in_dec Nat.eq_dec i idx then v else f).
Proof.
  revert flag out. induction idx as [|j idx IH]; intros flag out H; simpl in H.
  - injection H as <-. split; [reflexivity|]. intros i f Hf. exact Hf.
  - destruct (Nat.ltb_spec j (length flag)) as [Hj|]; [|discriminate].
    destruct (IH _ _ H) as [Hlen Hlook]. rewrite length_insert in Hlen.
    split; [exact Hlen|]. intros i f Hf.
    destruct (Nat.eq_dec j i) as [->|Hne].
    + rewrite (Hlook i v) by (now apply list_lookup_insert_eq).
      destruct (in_dec Nat.eq_dec i (i :: idx)) as [_|Hn];
        [|exfalso; apply Hn; now left].
      now destruct (in_dec Nat.eq_dec i idx).
    + rewrite (Hlook i f) by (now rewrite list_lookup_insert_ne).
      destruct (in_dec Nat.eq_dec i idx) as [Hin|Hn];
        destruct (in_dec Nat.eq_dec i (j :: idx)) as [Hin'|Hn']; try reflexivity.
      * exfalso. apply Hn'. now right.
      * destruct Hin' as [->|Hin']; [congruence|contradiction].
Qed.

(** X22: when the labelling succeeds, there are as many labels as
    detections, and the label of a detection is 2 if it is one of the used
    stars, else 4 if its size measurement is flagged, else its star_flag: a
    used star is labelled 2 even when its size measurement is flagged.  The
    candidates are the detections whose star_flag was 1 before the
    relabelling. *)
Theorem label_detections_labels (star_flag size_flags : list Z)
    (psfex cat : list PlotFs.Pos) (flag : list Z) (cand used : list nat) :
  PlotFs.label_detections star_flag size_flags psfex cat = Ok (flag, cand, used) ->
  length flag = length star_flag
  /\ (forall (i : nat) (f s : Z),
        star_flag !! i = Some f -> size_flags !! i = Some s ->
        flag !! i = Some (if in_dec Nat.eq_dec i used then 2%Z
                          else if (0 <? s)%Z then 4%Z else f))
  /\ (forall i : nat, In i cand <-> star_flag !! i = Some 1%Z)
  /\ PlotFs.used_stars psfex cat = Ok used.
Proof.
  unfold PlotFs.label_detections. intros H.
  destruct (PlotFs.set_mask star_flag _ 4) as [flag1|] eqn:E1; cbn [rbind] in H;
    [|discriminate].
  destruct (PlotFs.used_stars psfex cat) as [used'|] eqn:E2; cbn [rbind] in H;
    [|discriminate].
  destruct (PlotFs.set_index flag1 used' 2) as [flag2|] eqn:E3; cbn [rbind] in H;
    [|discriminate].
  injection H as <- <- <-.
  destruct (set_mask_lookup _ _ _ _ E1) as [Hlen1 Hlook1].
  destruct (set_index_lookup _ _ _ _ E3) as [Hlen2 Hlook2].
  split; [congruence|]. split; [|split; [|reflexivity]].
  - intros i f s Hf Hs.
    assert (Hm : map (fun s => (0 <? s)%Z) size_flags !! i = Some (0 <? s)%Z)
      by (rewrite list_lookup_fmap, Hs; reflexivity).
    specialize (Hlook1 i f _ Hf Hm).
    rewrite (Hlook2 i _ Hlook1).
    destruct (in_dec Nat.eq_dec i used'); reflexivity.
  - intros i. unfold PlotFs.np_where. rewrite where_from_In, Nat.sub_0_r.
    rewrite nth_error_map. split.
    + intros [_ Hn]. destruct (nth_error star_flag i) as [f|] eqn:Ef; [|discriminate].
      simpl in Hn. injection Hn as Hn. apply Z.eqb_eq in Hn. subst f.
      clear - Ef. revert i Ef. induction star_flag as [|x l IH]; intros [|i] Ef;
        simpl in *; try discriminate; [exact Ef|now apply IH].
    + intros Hf. split; [lia|].
      assert (Hn : nth_error star_flag i = Some 1%Z).
      { clear - Hf. revert i Hf. induction star_flag as [|x l IH]; intros [|i] Hf;
          simpl in *; try discriminate; [exact Hf|now apply IH]. }
      now rewrite Hn.
Qed.

Lemma label_detections_labels_witness :
  PlotFs.label_detections [1; 1; 0]%Z [0; 3; 3]%Z
                          [(10, 10)%Q] [(0, 0)%Q; (10, 10)%Q; (20, 20)%Q]
  = Ok ([1; 2; 4]%Z, [0; 1]%nat, [1%nat])
  /\ length [1; 2; 4]%Z = 3%nat.
Proof.
  split; [reflexivity|].
  apply (label_detections_labels [1; 1; 0]%Z [0; 3; 3]%Z
           [(10, 10)%Q] [(0, 0)%Q; (10, 10)%Q; (20, 20)%Q]
           [1; 2; 4]%Z [0; 1]%nat [1%nat]).
  reflexivity.
Defined.

(** ** [parse_file_name] *)

Lemma has_char_app (c : ascii) (a b : string) :
  has_char c (a ++ b)%string = has_char c a || has_char c b.
Proof.
  induction a as [|x a IH]; simpl; [reflexivity|].
  now rewrite IH, orb_assoc.
Qed.

Lemma split_last_none (c : ascii) (s : string) :
  has_char c s = false -> split_last c s = None.
Proof.
  induction s as [|a s IH]; simpl; [reflexivity|].
  intros H. apply orb_false_iff in H as [Ha Hs].
  now rewrite (IH Hs), Ha.
Qed.

Lemma split_last_app (c : ascii) (b e : string) :
  has_char c e = false ->
  split_last c (b ++ String c e)%string = Some (b, e).
Proof.
  intros He. induction b as [|a b IH]; simpl.
  - now rewrite (split_last_none _ _ He), Ascii.eqb_refl.
  - now rewrite IH.
Qed.

Lemma all_dots_app (a b : string) :
  all_dots (a ++ b)%string = all_dots a && all_dots b.
Proof.
  induction a as [|x a IH]; simpl; [reflexivity|].
  now rewrite IH, andb_assoc.
Qed.

Lemma string_app_assoc (a b c : string) :
  ((a ++ b) ++ c = a ++ (b ++ c))%string.
Proof.
  induction a as [|x a IH]; simpl; [reflexivity|]. now rewrite IH.
Qed.

Lemma os_path_basename_join (dir base : string) :
  has_char "/" base = false ->
  os_path_basename (dir ++ String "/" base)%string = base.
Proof.
  intros H. unfold os_path_basename. now rewrite (split_last_app _ _ _ H).
Qed.

Lemma os_path_splitext_ext (stem ext : string) :
  has_char "/" stem = false -> has_char "/" ext = false ->
  has_char "." ext = false ->
  os_path_splitext (stem ++ String "." ext)%string
  = if all_dots stem then ((stem ++ String "." ext)%string, EmptyString)
    else (stem, String "." ext).
Proof.
  intros Hs He Hd. unfold os_path_splitext.
  rewrite split_last_none
    by (rewrite has_char_app; simpl; now rewrite Hs, He).
  now rewrite (split_last_app _ _ _ Hd).
Qed.

(** X23: a path [dir/PRE_NUM.fits] or [dir/PRE_NUM.fits.fz], where PRE and
    NUM hold no slash and NUM no underscore, parses to the root [PRE_NUM]
    with the chip number [int(NUM)]; it fails exactly as [int(NUM)] does. *)
Theorem parse_file_name_fits (int_of_str : string -> result Z)
    (dir pre num : string) (fz : bool) :
  has_char "/" pre = false -> has_char "/" num = false ->
  has_char "_" num = false ->
  parse_file_name int_of_str
    (dir ++ "/" ++ pre ++ "_" ++ num ++ ".fits" ++ (if fz then ".fz" else ""))%string
  = (do ccdnum <- int_of_str num; Ok ((pre ++ "_" ++ num)%string, ccdnum))%res.
Proof.
  intros Hpre Hnum Hus.
  set (stem := (pre ++ "_" ++ num)%string).
  assert (Hstem : has_char "/" stem = false).
  { unfold stem. rewrite has_char_app. simpl. now rewrite Hpre, Hnum. }
  assert (Hdots : all_dots stem = false).
  { unfold stem. rewrite all_dots_app. simpl. apply andb_false_r. }
  assert (Hfield : last_field "_" stem = num).
  { unfold last_field, stem. simpl.
    now rewrite (split_last_app "_" pre num Hus). }
  assert (Hfits : os_path_splitext (stem ++ ".fits")%string = (stem, ".fits"%string)).
  { change (stem ++ ".fits")%string with (stem ++ String "." "fits")%string.
    rewrite os_path_splitext_ext by (assumption || reflexivity).
    now rewrite Hdots. }
  assert (Hname : (dir ++ "/" ++ pre ++ "_" ++ num ++ ".fits"
                       ++ (if fz then ".fz" else ""))%string
                  = (dir ++ String "/" (stem ++ ".fits"
                       ++ (if fz then ".fz" else "")))%string).
  { unfold stem. simpl. now rewrite !string_app_assoc. }
  rewrite Hname. clear Hname. unfold parse_file_name.
  rewrite os_path_basename_join
    by (rewrite !has_char_app, Hstem; destruct fz; reflexivity).
  destruct fz.
  - assert (Hfz : os_path_splitext (stem ++ ".fits" ++ ".fz")%string
                  = ((stem ++ ".fits")%string, ".fz"%string)).
    { assert (E : (stem ++ ".fits" ++ ".fz")%string
                  = ((stem ++ ".fits") ++ String "." "fz")%string)
        by (now rewrite string_app_assoc).
      rewrite E. rewrite os_path_splitext_ext; try reflexivity.
      - rewrite all_dots_app, Hdots. reflexivity.
      - rewrite has_char_app, Hstem. reflexivity. }
    rewrite Hfz. cbn [fst snd]. change (String.eqb ".fz" ".fz") with true.
    cbv iota. rewrite Hfits. cbn [fst snd].
    change (String.eqb ".fits" ".fits") with true. cbn [negb].
    now rewrite Hfield.
  - change (stem ++ ".fits" ++ "")%string with (stem ++ ".fits")%string.
    rewrite Hfits. cbn [fst snd].
    change (String.eqb ".fits" ".fz") with false. cbv iota.
    rewrite Hfits. cbn [fst snd].
    change (String.eqb ".fits" ".fits") with true. cbn [negb].
    now rewrite Hfield.
Qed.

Lemma parse_file_name_fits_witness :
  parse_file_name int_of_digits "/data/DECam_00123_07.fits.fz"
  = Ok ("DECam_00123_07"%string, 7%Z).
Proof.
  exact (parse_file_name_fits int_of_digits "/data" "DECam_00123" "07" true
           eq_refl eq_refl eq_refl).
Defined.

(** X24: a file name whose last extension is neither [.fits] nor [.fz]
    raises TypeError, not the ValueError the code names: the message is
    built by adding the builtin [file] to a string.  No chip number is
    looked for. *)
Theorem parse_file_name_other_extension (int_of_str : string -> result Z)
    (dir stem ext : string) :
  has_char "/" stem = false -> has_char "/" ext = false ->
  has_char "." ext = false ->
  ext <> "fits"%string -> ext <> "fz"%string ->
  parse_file_name int_of_str (dir ++ "/" ++ stem ++ "." ++ ext)%string
  = Raise TypeError.
Proof.
  intros Hs He Hd Hfits Hfz.
  assert (Hname : (dir ++ "/" ++ stem ++ "." ++ ext)%string
                  = (dir ++ String "/" (stem ++ String "." ext))%string)
    by reflexivity.
  rewrite Hname. clear Hname. unfold parse_file_name.
  rewrite os_path_basename_join
    by (rewrite has_char_app; simpl; now rewrite Hs, He).
  rewrite (os_path_splitext_ext _ _ Hs He Hd).
  destruct (all_dots stem).
  - cbn [fst snd]. change (String.eqb "" ".fz") with false. cbv iota.
    rewrite (os_path_splitext_ext _ _ Hs He Hd).
    destruct (all_dots stem); reflexivity || idtac.
    cbn [fst snd]. simpl.
    apply String.eqb_neq in Hfits. now rewrite Hfits.
  - cbn [fst snd].
    replace (String.eqb (String "." ext) ".fz") with false
      by (symmetry; simpl; now apply String.eqb_neq).
    cbv iota. rewrite (os_path_splitext_ext _ _ Hs He Hd).
    destruct (all_dots stem); [reflexivity|].
    cbn [fst snd]. simpl.
    apply String.eqb_neq in Hfits. now rewrite Hfits.
Qed.

Lemma parse_file_name_other_extension_witness :
  parse_file_name int_of_digits "/data/DECam_00123_07.cat" = Raise TypeError.
Proof.
  apply (parse_file_name_other_extension int_of_digits "/data" "DECam_00123_07" "cat");
    (reflexivity || discriminate).
Defined.

(** ** [remove_temp_files] *)

Lemma list_mem_In (x : string) (l : list string) :
  list_mem x l = true <-> In x l.
Proof.
  unfold list_mem. rewrite existsb_exists. split.
  - intros (y & Hy & E). apply String.eqb_eq in E. now subst.
  - intros H. exists x. split; [assumption|apply String.eqb_refl].
Qed.

Lemma list_remove_In (x : string) (l : list string) :
  List.NoDup l ->
  forall f, In f (list_remove x l) <-> In f l /\ f <> x.
Proof.
  induction 1 as [|y l Hy Hnd IH]; intros f; simpl; [tauto|].
  destruct (String.eqb x y) eqn:E.
  - apply String.eqb_eq in E. subst y. split.
    + intros Hf. split; [now right|]. intros ->. contradiction.
    + intros [[->|Hf] Hne]; [contradiction|assumption].
  - apply String.eqb_neq in E. simpl. rewrite IH. split.
    + intros [->|[Hf Hne]]; [split; [now left|congruence]|tauto].
    + intros [[->|Hf] Hne]; [now left|tauto].
Qed.

Lemma list_remove_NoDup (x : string) (l : list string) :
  List.NoDup l -> List.NoDup (list_remove x l).
Proof.
  induction 1 as [|y l Hy Hnd IH]; simpl; [constructor|].
  destruct (String.eqb x y); [assumption|].
  constructor; [|assumption].
  intros Hin. apply (list_remove_In x l Hnd) in Hin. tauto.
Qed.

Lemma drop_saved_In (args l : list string) :
  List.NoDup l ->
  List.NoDup (drop_saved l args)
  /\ forall f, In f (drop_saved l args) <-> In f l /\ ~ In f args.
Proof.
  revert l. induction args as [|a args IH]; intros l Hnd; simpl.
  - split; [assumption|]. intros f. tauto.
  - unfold drop_saved. simpl. fold (drop_saved (if list_mem a l then list_remove a l else l) args).
    destruct (list_mem a l) eqn:E.
    + destruct (IH _ (list_remove_NoDup a l Hnd)) as [H1 H2].
      split; [assumption|]. intros f. rewrite H2, (list_remove_In a l Hnd).
      split; [intros [[? ?] ?]|intros [? ?]]; repeat split; try tauto.
      * intros [->|?]; tauto.
      * intros ->. tauto.
    + destruct (IH _ Hnd) as [H1 H2].
      split; [assumption|]. intros f. rewrite H2.
      assert (Ha : ~ In a l).
      { intros Hin. apply list_mem_In in Hin. congruence. }
      split; [intros [? ?]|intros [? ?]]; split; try tauto.
      intros [->|?]; tauto.
Qed.

Lemma os_remove_all_run (fs : list string) :
  List.NoDup fs ->
  forall disk : gset string,
  (forall f, In f fs -> f ∈ disk) ->
  exists disk', os_remove_all fs disk = (Ok tt, disk')
    /\ forall f, f ∈ disk' <-> f ∈ disk /\ ~ In f fs.
Proof.
  induction 1 as [|x fs Hx Hnd IH]; intros disk Hall; simpl.
  - exists disk. split; [reflexivity|]. intros f. tauto.
  - destruct (decide (x ∈ disk)) as [_|Hn]; [|exfalso; apply Hn, Hall; now left].
    destruct (IH (disk ∖ {[x]})) as (disk' & Hrun & Hmem).
    { intros f Hf. apply elem_of_difference. split; [apply Hall; now right|].
      rewrite elem_of_singleton. intros ->. contradiction. }
    exists disk'. split; [assumption|]. intros f.
    rewrite Hmem, elem_of_difference, elem_of_singleton.
    split; [intros [[? ?] ?]|intros [? ?]]; repeat split; try tauto.
    + intros [->|?]; tauto.
    + intros ->. tauto.
Qed.

(** X25: when the listing of [wdir/root*] has no repetition and names
    existing files, [remove_temp_files] succeeds, and afterwards a file exists
    exactly when it existed before and is either outside the listing or named
    among the files to keep.  Names to keep that are not listed, or given
    twice, change nothing. *)
Theorem remove_temp_files_keeps_saved (listing args : list string)
    (disk : gset string) :
  List.NoDup listing ->
  (forall f, In f listing -> f ∈ disk) ->
  exists disk', remove_temp_files listing args disk = (Ok tt, disk')
    /\ forall f, f ∈ disk' <-> f ∈ disk /\ (In f listing -> In f args).
Proof.
  intros Hnd Hall. unfold remove_temp_files.
  destruct (drop_saved_In args listing Hnd) as [Hnd' Hin].
  destruct (os_remove_all_run _ Hnd' disk) as (disk' & Hrun & Hmem).
  { intros f Hf. apply Hall. now apply Hin in Hf. }
  exists disk'. split; [assumption|]. intros f. rewrite Hmem, Hin.
  destruct (in_dec String.string_dec f args); tauto.
Qed.

Lemma remove_temp_files_keeps_saved_witness :
  exists disk',
    remove_temp_files ["w/r.fits"; "w/r_psfcat.psf"; "w/r_tmp.cat"]%string
                      ["w/r_psfcat.psf"; "w/r_psfcat.psf"; "w/r.xml"]%string
                      (list_to_set ["w/keep"; "w/r.fits"; "w/r_psfcat.psf";
                                    "w/r_tmp.cat"]%string)
    = (Ok tt, disk')
    /\ forall f, f ∈ disk' <->
         f ∈ (list_to_set ["w/keep"; "w/r.fits"; "w/r_psfcat.psf";
                           "w/r_tmp.cat"]%string : gset string)
         /\ (In f ["w/r.fits"; "w/r_psfcat.psf"; "w/r_tmp.cat"]%string ->
             In f ["w/r_psfcat.psf"; "w/r_psfcat.psf"; "w/r.xml"]%string).
Proof.
  apply (remove_temp_files_keeps_saved
           ["w/r.fits"; "w/r_psfcat.psf"; "w/r_tmp.cat"]%string
           ["w/r_psfcat.psf"; "w/r_psfcat.psf"; "w/r.xml"]%string
           (list_to_set ["w/keep"; "w/r.fits"; "w/r_psfcat.psf";
                         "w/r_tmp.cat"]%string)).
  - repeat constructor; simpl; intuition discriminate.
  - intros f Hf. simpl in Hf.
    destruct Hf as [<-|[<-|[<-|[]]]];
      apply (bool_decide_unpack (_ ∈ _)); vm_compute; exact I.
Defined.
